(** * RaceTrack: a shallow embedding of [game_world/racetrack.py] and
    [game_world/track_builder.py]

    The grid model is four numpy layers plus spawn, target and the canvas
    size.  numpy arrays are objects: a track holds references to them, and
    a store gives every live array its contents, so that a write through
    one attribute is seen through every attribute that holds the same
    array.  Arrays are row lists of integer cells, Python exceptions an
    error monad, in-place mutation explicit state passing, and the pygame
    surface the log of the draw calls made on it. *)

From Stdlib Require Import ZArith.
From Stdlib Require Import Floats.SpecFloat.
From stdpp Require Import gmap strings list.

Local Open Scope Z_scope.

(** ** Python runtime: exceptions and the two monads *)

Module py.

(** The exception classes the modelled code can raise. *)
Inductive exn : Set :=
| ValueError | IndexError | KeyError | ZeroDivisionError | OverflowError
| TypeError | AttributeError | FileNotFoundError | EOFError | UnpicklingError
| PygameError.

Inductive result (A : Type) : Type :=
| Ok (a : A)
| Raise (e : exn).
Arguments Ok {A} a.
Arguments Raise {A} e.

#[export] Instance result_ret : MRet result := λ A a, Ok a.
#[export] Instance result_bind : MBind result := λ A B k m,
  match m with Ok a => k a | Raise e => Raise e end.

Definition is_ok {A} (m : result A) : Prop := ∃ a, m = Ok a.

(** A computation that mutates an object of type [S] in place and may
    raise: the state at the point of the raise is kept, as in Python. *)
Definition stateM (S A : Type) : Type := S → S * result A.

#[export] Instance stateM_ret {S} : MRet (stateM S) := λ A a s, (s, Ok a).
#[export] Instance stateM_bind {S} : MBind (stateM S) := λ A B k m s,
  match m s with
  | (s', Ok a) => k a s'
  | (s', Raise e) => (s', Raise e)
  end.

Definition get {S} : stateM S S := λ s, (s, Ok s).
Definition put {S} (s : S) : stateM S unit := λ _, (s, Ok tt).
Definition lift {S A} (m : result A) : stateM S A := λ s, (s, m).

(** [for x in l: body(x)] *)
Fixpoint for_ {S A} (l : list A) (body : A → stateM S unit) : stateM S unit :=
  match l with
  | [] => mret tt
  | x :: l' => body x ≫= λ _, for_ l' body
  end.

(** [[f(x) for x in l]] where [f] may raise. *)
Fixpoint traverse {A B} (f : A → result B) (l : list A) : result (list B) :=
  match l with
  | [] => Ok []
  | x :: l' => f x ≫= λ y, traverse f l' ≫= λ ys, Ok (y :: ys)
  end.

(** [range(a, b)] *)
Definition range (a b : Z) : list Z :=
  (λ i : nat, a + Z.of_nat i) <$> seq 0 (Z.to_nat (b - a)).

(** [i in range(n)] *)
Definition in_range (i : Z) (n : nat) : bool := (0 <=? i) && (i <? Z.of_nat n).

(** [d[k]] on a dict *)
Definition dict_get {V} (d : gmap Z V) (k : Z) : result V :=
  match d !! k with Some v => Ok v | None => Raise KeyError end.

End py.
Import py.

(** ** binary64 arithmetic, as Python floats

    Pixel sizes and grid indices are converted with [of_int], which rounds
    to nearest even as Python does; the two agree on every integer a
    binary64 can reach (beyond that Python raises [OverflowError]). *)

Module f64.

Definition prec : Z := 53.
Definition emax : Z := 1024.

Definition of_int (z : Z) : spec_float := binary_normalize prec emax z 0 false.
Definition add : spec_float → spec_float → spec_float := SFadd prec emax.
Definition mul : spec_float → spec_float → spec_float := SFmul prec emax.
Definition ltb : spec_float → spec_float → bool := SFltb.

Definition is_zero (x : spec_float) : bool :=
  match x with S754_zero _ => true | _ => false end.

(** [x / y] on floats raises on a zero divisor. *)
Definition div (x y : spec_float) : result spec_float :=
  if is_zero y then Raise ZeroDivisionError else Ok (SFdiv prec emax x y).

(** [a / b] on ints (true division). *)
Definition int_truediv (a b : Z) : result spec_float :=
  if b =? 0 then Raise ZeroDivisionError
  else Ok (SFdiv prec emax (of_int a) (of_int b)).

(** A decimal literal [n/10], e.g. [0.8]: the double nearest to it. *)
Definition tenths (n : Z) : spec_float := SFdiv prec emax (of_int n) (of_int 10).

(** [min(x, y)] *)
Definition min (x y : spec_float) : spec_float := if ltb y x then y else x.

(** [int(x)]: truncation toward zero. *)
Definition to_int (x : spec_float) : result Z :=
  match x with
  | S754_zero _ => Ok 0
  | S754_finite s m e =>
      let v := if 0 <=? e then Z.pos m * 2 ^ e else Z.pos m / 2 ^ (- e) in
      Ok (if s then - v else v)
  | S754_infinity _ => Raise OverflowError
  | S754_nan => Raise ValueError
  end.

End f64.

(** ** numpy: two-dimensional arrays of integer-valued cells

    A cell holds an integer and arithmetic on cells is exact.  numpy
    computes in the array's dtype, which agrees with this as long as the
    values are the flags and colour indices the code stores; statements
    that depend on a value being a flag say so. *)

Module np.

Record ndarray : Type := NDArray { nd_cols : nat; nd_rows : list (list Z) }.

Definition shape (a : ndarray) : nat * nat := (length (nd_rows a), nd_cols a).

(** Every row has [nd_cols] cells: the value really is an array. *)
Definition wf (a : ndarray) : Prop :=
  Forall (λ row, length row = nd_cols a) (nd_rows a).

(** The cell at an in-range position. *)
Definition cell (a : ndarray) (i j : nat) : option Z :=
  nd_rows a !! i ≫= λ row, row !! j.

Definition full (s : nat * nat) (v : Z) : ndarray :=
  NDArray (snd s) (replicate (fst s) (replicate (snd s) v)).

(** [np.zeros(shape)], [np.ones(shape)] on a caller-supplied shape. *)
Definition new_full (s : Z * Z) (v : Z) : result ndarray :=
  if (fst s <? 0) || (snd s <? 0) then Raise ValueError
  else Ok (full (Z.to_nat (fst s), Z.to_nat (snd s)) v).
Definition zeros (s : Z * Z) : result ndarray := new_full s 0.
Definition ones (s : Z * Z) : result ndarray := new_full s 1.

Definition map_cells (f : Z → Z) (a : ndarray) : ndarray :=
  NDArray (nd_cols a) (map (map f) (nd_rows a)).

(** [a == v] with a scalar [v], as a 0/1 mask. *)
Definition eq_scalar (a : ndarray) (v : Z) : ndarray :=
  map_cells (λ x, Z.b2z (x =? v)) a.

(** [k - a] with a scalar [k]. *)
Definition rsub (k : Z) (a : ndarray) : ndarray := map_cells (λ x, k - x) a.

(** [a.astype(int)]: cells are integer valued already. *)
Definition astype_int (a : ndarray) : ndarray := a.

(** Broadcasting of one dimension. *)
Definition bdim (m n : nat) : result nat :=
  if decide (m = n) then Ok m
  else if decide (m = 1%nat) then Ok n
  else if decide (n = 1%nat) then Ok m
  else Raise ValueError.

(** The cell of [a] that position [(i, j)] of a broadcast result reads. *)
Definition bcell (a : ndarray) (i j : nat) : Z :=
  default 0
    (cell a (if decide (length (nd_rows a) = 1%nat) then 0%nat else i)
            (if decide (nd_cols a = 1%nat) then 0%nat else j)).

Definition tabulate (R C : nat) (f : nat → nat → Z) : ndarray :=
  NDArray C ((λ i, f i <$> seq 0 C) <$> seq 0 R).

(** An elementwise binary operator, with broadcasting. *)
Definition binop (f : Z → Z → Z) (a b : ndarray) : result ndarray :=
  R ← bdim (length (nd_rows a)) (length (nd_rows b));
  C ← bdim (nd_cols a) (nd_cols b);
  Ok (tabulate R C (λ i j, f (bcell a i j) (bcell b i j))).

(** [a & b] and [a | b] on integer arrays: bitwise. *)
Definition band : ndarray → ndarray → result ndarray := binop Z.land.
Definition bor : ndarray → ndarray → result ndarray := binop Z.lor.

(** Columns of the non-zero cells of one row. *)
Definition nonzero_row (row : list Z) : list nat :=
  fst <$> filter (λ p : nat * Z, p.2 ≠ 0) (imap pair row).

(** Positions of the non-zero cells, in row-major order. *)
Definition nonzero (a : ndarray) : list (Z * Z) :=
  mjoin (imap (λ i row, (λ j : nat, (Z.of_nat i, Z.of_nat j)) <$> nonzero_row row)
              (nd_rows a)).

(** [np.where(a)]: the row numbers and the column numbers. *)
Definition where_ (a : ndarray) : list Z * list Z :=
  ((nonzero a).*1, (nonzero a).*2).

(** An index into an axis of length [n]; negative indices count from the
    end. *)
Definition norm_index (n : nat) (i : Z) : result nat :=
  if (0 <=? i) && (i <? Z.of_nat n) then Ok (Z.to_nat i)
  else if (- Z.of_nat n <=? i) && (i <? 0) then Ok (Z.to_nat (i + Z.of_nat n))
  else Raise IndexError.

(** [a[r, c]] *)
Definition getitem (a : ndarray) (r c : Z) : result Z :=
  i ← norm_index (length (nd_rows a)) r;
  j ← norm_index (nd_cols a) c;
  match cell a i j with Some v => Ok v | None => Raise IndexError end.

(** [a[r, c] = v] *)
Definition setitem (a : ndarray) (r c : Z) (v : Z) : result ndarray :=
  i ← norm_index (length (nd_rows a)) r;
  j ← norm_index (nd_cols a) c;
  Ok (NDArray (nd_cols a) (alter (λ row, <[j := v]> row) i (nd_rows a))).

(** [a[(rows, cols)]] with two index arrays of the same length (as
    [np.where] returns them). *)
Definition getitems (a : ndarray) (idx : list Z * list Z) : result (list Z) :=
  if decide (length idx.1 = length idx.2)
  then traverse (λ p : Z * Z, getitem a p.1 p.2) (zip idx.1 idx.2)
  else Raise IndexError.

Fixpoint setitems_seq (a : ndarray) (ps : list (Z * Z)) (vs : list Z)
  : result ndarray :=
  match ps, vs with
  | [], [] => Ok a
  | p :: ps', v :: vs' => setitem a p.1 p.2 v ≫= λ a', setitems_seq a' ps' vs'
  | _, _ => Raise ValueError
  end.

(** [a[(rows, cols)] = vs] *)
Definition setitems (a : ndarray) (idx : list Z * list Z) (vs : list Z)
  : result ndarray :=
  if decide (length idx.1 = length idx.2)
  then setitems_seq a (zip idx.1 idx.2) vs
  else Raise IndexError.

End np.

(** ** pygame: a surface is the log of the draw calls made on it *)

Module pygame.

(** [pygame.Color("#rrggbb")], kept as its hex string. *)
Definition Color : Type := string.

Definition fpoint : Type := spec_float * spec_float.

Inductive DrawOp : Type :=
| Fill (color : Color)
  (** [draw.rect(surface, color, (x, y, w, h), width)] *)
| Rect (color : Color) (x y w h : spec_float) (width : Z)
  (** [draw.circle(surface, color, center, radius)] *)
| Circle (color : Color) (center : fpoint) (radius : spec_float)
  (** [surface.blit(star_img, dest)], [star.png] scaled to [size] *)
| BlitStar (size : fpoint) (dest : fpoint)
  (** [surface.blit(triangle, dest)], the white [size] surface carrying the
      green polygon [pts] *)
| BlitTriangle (size : fpoint) (pts : list fpoint) (dest : fpoint).

Record Surface : Type :=
  { get_width : Z; get_height : Z; log : list DrawOp }.

(** [pygame.Surface((width, height))] refuses a negative size. *)
Definition new_surface (width height : Z) : result Surface :=
  if (width <? 0) || (height <? 0) then Raise PygameError
  else Ok {| get_width := width; get_height := height; log := [] |}.

(** [surface.get_rect().collidepoint(x, y)] *)
Definition collidepoint (s : Surface) (x y : Z) : bool :=
  (0 <=? x) && (x <? get_width s) && (0 <=? y) && (y <? get_height s).

End pygame.
(** ** racetrack.py: what a method reads

    A method of [RaceTrack] that only reads is a function of the
    attributes of [self] with each of the four arrays at its present
    contents.  [Track] is that view of the object; the object itself, with
    its references into the store, follows in [racetrack]. *)

Module reads.
Import np pygame.

Definition Point : Type := Z * Z.

Record Track : Type := {
  walls : ndarray;
  active : ndarray;
  buttons : ndarray;
  colors : ndarray;
  shape : nat * nat;
  color_scheme : gmap Z Color;
  spawn : Point;
  target : Point;
  surface : Surface;
  screen_size : Point
}.

Definition set_walls (t : Track) (a : ndarray) : Track :=
  {| walls := a; active := active t; buttons := buttons t; colors := colors t;
     shape := shape t; color_scheme := color_scheme t; spawn := spawn t;
     target := target t; surface := surface t; screen_size := screen_size t |}.
Definition set_active (t : Track) (a : ndarray) : Track :=
  {| walls := walls t; active := a; buttons := buttons t; colors := colors t;
     shape := shape t; color_scheme := color_scheme t; spawn := spawn t;
     target := target t; surface := surface t; screen_size := screen_size t |}.
Definition set_buttons (t : Track) (a : ndarray) : Track :=
  {| walls := walls t; active := active t; buttons := a; colors := colors t;
     shape := shape t; color_scheme := color_scheme t; spawn := spawn t;
     target := target t; surface := surface t; screen_size := screen_size t |}.
Definition set_colors (t : Track) (a : ndarray) : Track :=
  {| walls := walls t; active := active t; buttons := buttons t; colors := a;
     shape := shape t; color_scheme := color_scheme t; spawn := spawn t;
     target := target t; surface := surface t; screen_size := screen_size t |}.
Definition set_spawn (t : Track) (p : Point) : Track :=
  {| walls := walls t; active := active t; buttons := buttons t; colors := colors t;
     shape := shape t; color_scheme := color_scheme t; spawn := p;
     target := target t; surface := surface t; screen_size := screen_size t |}.
Definition set_target (t : Track) (p : Point) : Track :=
  {| walls := walls t; active := active t; buttons := buttons t; colors := colors t;
     shape := shape t; color_scheme := color_scheme t; spawn := spawn t;
     target := p; surface := surface t; screen_size := screen_size t |}.
Definition set_surface (t : Track) (s : Surface) : Track :=
  {| walls := walls t; active := active t; buttons := buttons t; colors := colors t;
     shape := shape t; color_scheme := color_scheme t; spawn := spawn t;
     target := target t; surface := s; screen_size := screen_size t |}.

(** The literal [colors_basic] of [__init__]. *)
Definition colors_basic : gmap Z string :=
  list_to_map
    [ (0, "#ffffff"); (1, "#000000"); (2, "#d20000"); (3, "#de9f00");
      (4, "#00AE00"); (5, "#0000cd"); (6, "#8b008b"); (7, "#739F9F") ].

(** One iteration of the cell loop of [render]: the draw calls for the cell
    [(row, col)], in order. *)
Definition render_cell (t : Track) (w h : spec_float) (rc : Z * Z)
  : result (list DrawOp) :=
  let '(row, col) := rc in
  let x := f64.mul (f64.of_int col) w in
  let y := f64.mul (f64.of_int row) h in
  let w1 := f64.add w (f64.of_int 1) in
  let h1 := f64.add h (f64.of_int 1) in
  let icon_at := (f64.add x (f64.mul (f64.tenths 1) w),
                  f64.add y (f64.mul (f64.tenths 1) h)) in
  active_ ← getitem (active t) row col;
  wall ← getitem (walls t) row col;
  color_type ← getitem (colors t) row col;
  button ← getitem (buttons t) row col;
  color ← dict_get (color_scheme t) color_type;
  shape_ops ←
    (if negb (wall =? 0) then
       width ← (if negb (active_ =? 0) then Ok 0
                else f64.to_int (f64.mul (f64.tenths 2) w));
       Ok [Rect color x y w1 h1 width]
     else if negb (button =? 0) then
       w2 ← f64.div w (f64.of_int 2);
       h2 ← f64.div h (f64.of_int 2);
       Ok [Circle color (f64.add x w2, f64.add y h2)
                  (f64.mul (f64.tenths 4) (f64.min w h))]
     else if bool_decide ((row, col) = target t) then
       Ok [BlitStar (f64.mul (f64.tenths 8) w, f64.mul (f64.tenths 8) h) icon_at]
     else Ok []);
  let spawn_ops :=
    if bool_decide ((row, col) = spawn t) then
      [BlitTriangle
         (f64.mul (f64.tenths 8) w, f64.mul (f64.tenths 8) w)
         [ (f64.mul (f64.tenths 4) w, f64.of_int 0);
           (f64.mul (f64.tenths 8) w, f64.mul (f64.tenths 8) h);
           (f64.of_int 0, f64.mul (f64.tenths 8) h) ]
         icon_at]
    else [] in
  Ok (shape_ops ++ spawn_ops ++ [Rect "#000000" x y w1 h1 2]).

(** [product(range(rows), range(cols))] *)
Definition cells_of (s : nat * nat) : list (Z * Z) :=
  r ← range 0 (Z.of_nat s.1); (λ c, (r, c)) <$> range 0 (Z.of_nat s.2).

(** [RaceTrack.render]; [star.png] is taken to be present. *)
Definition render (t : Track) (width height : Z) : result Surface :=
  s ← new_surface width height;
  w ← f64.int_truediv width (Z.of_nat (shape t).2);
  h ← f64.int_truediv height (Z.of_nat (shape t).1);
  ops ← traverse (render_cell t w h) (cells_of (shape t));
  Ok {| get_width := get_width s; get_height := get_height s;
        log := Fill "#ffffff" :: mjoin ops |}.

(** The mask of a filter: [(layer == v) if v is not None else np.ones(shape)],
    then [.astype(int)]. *)
Definition mask (t : Track) (layer : ndarray) (filter : option Z) : ndarray :=
  astype_int
    (match filter with
     | Some v => eq_scalar layer v
     | None => full (shape t) 1
     end).

Definition find_wall_locations_np
    (t : Track) (color : option Z) (active_ : option bool)
  : result (list Z * list Z) :=
  let color_mask := mask t (colors t) color in
  let active_mask := mask t (active t) (Z.b2z <$> active_) in
  m ← band (astype_int (walls t)) color_mask;
  m' ← band m active_mask;
  Ok (where_ m').

Definition find_wall_locations
    (t : Track) (color : option Z) (active_ : option bool)
  : result (gset Point) :=
  '(rows, cols) ← find_wall_locations_np t color active_;
  Ok (list_to_set (zip rows cols)).

Definition find_buttons (t : Track) (color : option Z) : result (gset Point) :=
  let color_mask := mask t (colors t) color in
  m ← band (astype_int (buttons t)) color_mask;
  let '(rows, cols) := where_ m in
  Ok (list_to_set (zip rows cols)).

Definition find_traversable_cells (t : Track) : result (gset Point) :=
  m ← bor (astype_int (eq_scalar (walls t) 0)) (astype_int (rsub 1 (active t)));
  let output := where_ m in
  Ok (list_to_set (zip output.1 output.2)).

Definition get_grid_coord (t : Track) (x y : Z) : result (Z * Z) :=
  let screen_width := get_width (surface t) in
  let screen_height := get_height (surface t) in
  w ← f64.int_truediv screen_width (Z.of_nat (shape t).2);
  h ← f64.int_truediv screen_height (Z.of_nat (shape t).1);
  row ← f64.div (f64.of_int y) h ≫= f64.to_int;
  col ← f64.div (f64.of_int x) w ≫= f64.to_int;
  Ok (row, col).

(** The four layer attributes by name, and the view with the contents of
    one of them replaced. *)
Inductive layer : Set := Walls | Active | Buttons | Colors.

Definition layer_get (l : layer) (t : Track) : ndarray :=
  match l with
  | Walls => walls t | Active => active t
  | Buttons => buttons t | Colors => colors t
  end.

Definition layer_set (l : layer) (t : Track) (a : ndarray) : Track :=
  match l with
  | Walls => set_walls t a | Active => set_active t a
  | Buttons => set_buttons t a | Colors => set_colors t a
  end.

End reads.

(** ** racetrack.py *)

Module racetrack.
Import np pygame.

(** *** The store of numpy arrays

    An array is known by its reference; [alloc] makes a new one, and a
    write goes to the store at the reference, whoever else holds it. *)

Abbreviation ref := nat.
Abbreviation store := (list ndarray).

(** The contents of the array [r]. *)
Definition deref (σ : store) (r : ref) : ndarray :=
  default (NDArray 0 []) (σ !! r).

(** A new array object with the contents [a]. *)
Definition alloc (a : ndarray) : stateM store ref :=
  λ σ, (σ ++ [a], Ok (length σ)).

(** *** The object *)

Record RaceTrack : Type := {
  walls : ref;
  active : ref;
  buttons : ref;
  colors : ref;
  shape : nat * nat;
  color_scheme : gmap Z Color;
  spawn : reads.Point;
  target : reads.Point;
  surface : Surface;
  screen_size : reads.Point
}.

Definition set_spawn (t : RaceTrack) (p : reads.Point) : RaceTrack :=
  {| walls := walls t; active := active t; buttons := buttons t; colors := colors t;
     shape := shape t; color_scheme := color_scheme t; spawn := p;
     target := target t; surface := surface t; screen_size := screen_size t |}.
Definition set_target (t : RaceTrack) (p : reads.Point) : RaceTrack :=
  {| walls := walls t; active := active t; buttons := buttons t; colors := colors t;
     shape := shape t; color_scheme := color_scheme t; spawn := spawn t;
     target := p; surface := surface t; screen_size := screen_size t |}.
Definition set_surface (t : RaceTrack) (s : Surface) : RaceTrack :=
  {| walls := walls t; active := active t; buttons := buttons t; colors := colors t;
     shape := shape t; color_scheme := color_scheme t; spawn := spawn t;
     target := target t; surface := s; screen_size := screen_size t |}.

(** The array a layer attribute holds. *)
Definition layer_ref (l : reads.layer) (t : RaceTrack) : ref :=
  match l with
  | reads.Walls => walls t | reads.Active => active t
  | reads.Buttons => buttons t | reads.Colors => colors t
  end.

(** The object as a method reads it in the store [σ]. *)
Definition view (σ : store) (t : RaceTrack) : reads.Track :=
  {| reads.walls := deref σ (walls t); reads.active := deref σ (active t);
     reads.buttons := deref σ (buttons t); reads.colors := deref σ (colors t);
     reads.shape := shape t; reads.color_scheme := color_scheme t;
     reads.spawn := spawn t; reads.target := target t;
     reads.surface := surface t; reads.screen_size := screen_size t |}.

Definition render (σ : store) (t : RaceTrack) (width height : Z) : result Surface :=
  reads.render (view σ t) width height.

Definition find_wall_locations_np
    (σ : store) (t : RaceTrack) (color : option Z) (active_ : option bool)
  : result (list Z * list Z) :=
  reads.find_wall_locations_np (view σ t) color active_.

Definition find_wall_locations
    (σ : store) (t : RaceTrack) (color : option Z) (active_ : option bool)
  : result (gset reads.Point) :=
  reads.find_wall_locations (view σ t) color active_.

Definition find_buttons (σ : store) (t : RaceTrack) (color : option Z)
  : result (gset reads.Point) :=
  reads.find_buttons (view σ t) color.

Definition find_traversable_cells (σ : store) (t : RaceTrack)
  : result (gset reads.Point) :=
  reads.find_traversable_cells (view σ t).

Definition get_grid_coord (σ : store) (t : RaceTrack) (x y : Z) : result (Z * Z) :=
  reads.get_grid_coord (view σ t) x y.

(** The seven constructor arguments, which are also what [save] writes;
    the four arrays are passed by reference. *)
Record fields : Type := {
  f_walls : ref;
  f_active : ref;
  f_buttons : ref;
  f_colors : ref;
  f_target : reads.Point;
  f_spawn : reads.Point;
  f_screen_size : reads.Point
}.

Definition fields_of (t : RaceTrack) : fields :=
  {| f_walls := walls t; f_active := active t; f_buttons := buttons t;
     f_colors := colors t; f_target := target t; f_spawn := spawn t;
     f_screen_size := screen_size t |}.

(** [RaceTrack.__init__]: the object keeps the arrays it is given, it
    copies none.  The first render runs before [surface] is bound;
    [render] never reads that attribute, so the object it sees carries an
    empty surface there. *)
Definition __init__ (σ : store) (d : fields) : result RaceTrack :=
  if negb (bool_decide
             (np.shape (deref σ (f_walls d)) = np.shape (deref σ (f_active d))
              ∧ np.shape (deref σ (f_active d)) = np.shape (deref σ (f_buttons d))))
  then Raise ValueError
  else
    let self :=
      {| walls := f_walls d; active := f_active d; buttons := f_buttons d;
         colors := f_colors d; shape := np.shape (deref σ (f_walls d));
         color_scheme := reads.colors_basic;
         spawn := f_spawn d; target := f_target d;
         surface := {| get_width := 0; get_height := 0; log := [] |};
         screen_size := f_screen_size d |} in
    s ← render σ self (f_screen_size d).1 (f_screen_size d).2;
    Ok (set_surface self s).

(** [copy.deepcopy(a, memo)] on an array: the copy made earlier for this
    array if [memo] has one, else a new array with the same contents,
    which [memo] then records. *)
Definition deepcopy_array (r : ref) : stateM (store * gmap ref ref) ref :=
  λ st,
    match st.2 !! r with
    | Some r' => (st, Ok r')
    | None =>
        ((st.1 ++ [deref st.1 r], <[r := length st.1]> st.2), Ok (length st.1))
    end.

(** [RaceTrack.__deepcopy__]: the four arrays are copied through [memo],
    the two points and the size are tuples of ints, which [deepcopy]
    returns as they are, and the constructor is called on the copies. *)
Definition __deepcopy__ (t : RaceTrack) : stateM (store * gmap ref ref) RaceTrack :=
  walls_ ← deepcopy_array (walls t);
  active_ ← deepcopy_array (active t);
  buttons_ ← deepcopy_array (buttons t);
  colors_ ← deepcopy_array (colors t);
  st ← get;
  lift (__init__ st.1 {| f_walls := walls_; f_active := active_;
                         f_buttons := buttons_; f_colors := colors_;
                         f_target := target t; f_spawn := spawn t;
                         f_screen_size := screen_size t |}).

(** [RaceTrack.toggle]: the right-hand side is read first, then written
    back into the array [self.active] through the same index arrays; then
    the surface is redrawn. *)
Definition toggle (color : Z) : stateM (store * RaceTrack) unit :=
  st ← get;
  idx ← lift (find_wall_locations_np st.1 st.2 (Some color) None);
  vals ← lift (getitems (deref st.1 (active st.2)) idx);
  idx' ← lift (find_wall_locations_np st.1 st.2 (Some color) None);
  a ← lift (setitems (deref st.1 (active st.2)) idx' ((λ v, 1 - v) <$> vals));
  put (<[active st.2 := a]> st.1, st.2);;
  st' ← get;
  s ← lift (render st'.1 st'.2 (get_width (surface st'.2))
                   (get_height (surface st'.2)));
  put (st'.1, set_surface st'.2 s).

(** *** Persistence.  [pickle] and the file system are external.  What
    [pickle.load] makes of a file is one of: [EOFError], for a file without
    bytes; [UnpicklingError], for bytes that are no pickle; an object that
    does not unpack into the seven arguments of the constructor; seven
    objects of which the first is no array; or the seven-tuple [save]
    writes, four arrays, two points and a size.  [pickle] writes an array
    once, however often the tuple holds it, and on loading gives every
    place the one new array: [objs] are the contents of the arrays
    written, and the references of the record are places in [objs]. *)
Inductive file : Type :=
| Empty
| NotPickle
| WrongArity
| NoArrays
| Pickled (d : fields) (objs : list ndarray).

Abbreviation FileSystem := (gmap string file).

(** The place of [r] in [rs]. *)
Definition place (rs : list ref) (r : ref) : nat :=
  default 0%nat (fst <$> list_find (λ x, x = r) rs).

(** [RaceTrack.save]: the destination is taken to be writable. *)
Definition save (σ : store) (t : RaceTrack) (filename : string) (fs : FileSystem)
  : FileSystem :=
  let rs := remove_dups [walls t; active t; buttons t; colors t] in
  <[filename :=
      Pickled {| f_walls := place rs (walls t); f_active := place rs (active t);
                 f_buttons := place rs (buttons t);
                 f_colors := place rs (colors t);
                 f_target := target t; f_spawn := spawn t;
                 f_screen_size := screen_size t |}
              (deref σ <$> rs)]> fs.

(** [open], [pickle.load] and the call [RaceTrack( *data)] up to the
    first line of the constructor, which reads [walls.shape]: the arrays
    of the record become new objects. *)
Definition unpickle (fs : FileSystem) (filename : string) : stateM store fields :=
  λ σ,
    match fs !! filename with
    | None => (σ, Raise FileNotFoundError)
    | Some Empty => (σ, Raise EOFError)
    | Some NotPickle => (σ, Raise UnpicklingError)
    | Some WrongArity => (σ, Raise TypeError)
    | Some NoArrays => (σ, Raise AttributeError)
    | Some (Pickled d objs) =>
        (σ ++ objs,
         Ok {| f_walls := (length σ + f_walls d)%nat;
               f_active := (length σ + f_active d)%nat;
               f_buttons := (length σ + f_buttons d)%nat;
               f_colors := (length σ + f_colors d)%nat;
               f_target := f_target d; f_spawn := f_spawn d;
               f_screen_size := f_screen_size d |})
    end.

Definition load_track (fs : FileSystem) (filename : string)
  : stateM store RaceTrack :=
  data ← unpickle fs filename;
  σ ← get;
  track ← lift (__init__ σ data);
  s ← lift (render σ track (screen_size track).1 (screen_size track).2);
  mret (set_surface track s).

Definition blank_track (grid_size screen_size_ : Z * Z) (n_colors : Z)
  : stateM store RaceTrack :=
  walls_ ← lift (zeros grid_size) ≫= alloc;
  buttons_ ← lift (zeros grid_size) ≫= alloc;
  active_ ← lift (ones grid_size) ≫= alloc;
  colors_ ← lift (zeros grid_size) ≫= alloc;
  σ ← get;
  lift (__init__ σ {| f_walls := walls_; f_active := active_;
                      f_buttons := buttons_; f_colors := colors_;
                      f_target := (grid_size.1 - 1, grid_size.2 - 1);
                      f_spawn := (0, 0);
                      f_screen_size := screen_size_ |}).

End racetrack.

(** ** track_builder.py *)

Module track_builder.
Import np pygame reads.
Import racetrack(ref, store, deref, RaceTrack, layer_ref).

(** What [click_track] can reach: the arrays, the track and the set of
    cells already handled in the current pointer-down gesture. *)
Record editor : Type :=
  { arrays : store; track : RaceTrack; handled_points : gset Point }.

Definition update_track (f : RaceTrack → RaceTrack) : stateM editor unit :=
  e ← get;
  put {| arrays := arrays e; track := f (track e);
         handled_points := handled_points e |}.

(** [track.<layer>[r, c] = v]: a write into the array the attribute
    holds. *)
Definition assign (l : layer) (r c v : Z) : stateM editor unit :=
  e ← get;
  a ← lift (setitem (deref (arrays e) (layer_ref l (track e))) r c v);
  put {| arrays := <[layer_ref l (track e) := a]> (arrays e);
         track := track e; handled_points := handled_points e |}.

(** The [match selected_kind] statement for one cell. *)
Definition edit_cell (selected_color : Z) (selected_kind : string)
    (shift_held : bool) (r c : Z) : stateM editor unit :=
  if String.eqb selected_kind "wall" then
    (if selected_color =? 0 then assign Walls r c 0
     else assign Walls r c 1;; assign Active r c (1 - Z.b2z shift_held));;
    assign Colors r c selected_color;;
    assign Buttons r c 0
  else if String.eqb selected_kind "button" then
    (if selected_color =? 0 then assign Buttons r c 0
     else assign Buttons r c 1);;
    assign Walls r c 0;;
    assign Colors r c selected_color;;
    assign Active r c 1
  else if String.eqb selected_kind "target" then
    update_track (λ t, racetrack.set_target t (r, c));;
    assign Walls r c 0;;
    assign Buttons r c 0;;
    assign Colors r c 0;;
    assign Active r c 1
  else if String.eqb selected_kind "spawn" then
    update_track (λ t, racetrack.set_spawn t (r, c));;
    assign Walls r c 0;;
    assign Buttons r c 0;;
    assign Colors r c 0;;
    assign Active r c 1
  else mret tt.

(** The body of the two nested loops. *)
Definition visit_cell (selected_color : Z) (selected_kind : string)
    (shift_held : bool) (r c : Z) : stateM editor unit :=
  e ← get;
  if negb (in_range r (racetrack.shape (track e)).1)
     || negb (in_range c (racetrack.shape (track e)).2)
     || bool_decide ((r, c) ∈ handled_points e)
  then mret tt
  else
    put {| arrays := arrays e; track := track e;
           handled_points := {[ (r, c) ]} ∪ handled_points e |};;
    edit_cell selected_color selected_kind shift_held r c.

Definition click_track (selected_color : Z) (selected_kind : string)
    (pressed : bool) (mx my : Z) (cursor_size : Z) (shift_held : bool)
  : stateM editor unit :=
  e ← get;
  if negb pressed || negb (collidepoint (racetrack.surface (track e)) mx my)
  then mret tt
  else
    rc ← lift (racetrack.get_grid_coord (arrays e) (track e) mx my);
    for_ (range (rc.1 - cursor_size + 1) (rc.1 + cursor_size)) (λ r,
      for_ (range (rc.2 - cursor_size + 1) (rc.2 + cursor_size)) (λ c,
        visit_cell selected_color selected_kind shift_held r c));;
    e' ← get;
    s ← lift (racetrack.render (arrays e') (track e')
                (get_width (racetrack.surface (track e')))
                (get_height (racetrack.surface (track e'))));
    update_track (λ t, racetrack.set_surface t s).

(** The track of the editor as its methods read it. *)
Definition shown (e : editor) : Track := racetrack.view (arrays e) (track e).

End track_builder.

(** ** random_bot.py *)

Module random_bot.
Import reads.
Import racetrack(store, RaceTrack).

(** [random.choice(seq)], given the draw [k] of the generator: an empty
    sequence raises, otherwise the element at an index below [len(seq)]. *)
Definition choice {A} (k : nat) (seq : list A) : result A :=
  match seq with
  | [] => Raise IndexError
  | _ :: _ =>
      match seq !! (k mod length seq)%nat with
      | Some x => Ok x
      | None => Raise IndexError
      end
  end.

Definition options : list Point := [(-1, 0); (1, 0); (0, -1); (0, 1)].

(** [random_move]; the dict [neighbors] is kept as the list of its items in
    insertion order. *)
Definition random_move (loc : Point) (σ : store) (track : RaceTrack) (k : nat)
  : result Point :=
  safe ← racetrack.find_traversable_cells σ track;
  let neighbors :=
    (λ opt : Point, (opt, (loc.1 + opt.1, loc.2 + opt.2))) <$> options in
  let safe_options :=
    (filter (λ on : Point * Point, on.2 ∈ safe) neighbors).*1 in
  choice k safe_options.

End random_bot.

Import np pygame reads track_builder random_bot.
Import racetrack(ref, store, deref, alloc, RaceTrack, layer_ref, view, fields,
                 f_walls, f_active, f_buttons, f_colors, f_target, f_spawn,
                 f_screen_size, fields_of, file, Empty, NotPickle, WrongArity,
                 NoArrays, Pickled, save, unpickle, load_track, blank_track,
                 place).

(** ** Predicates on tracks used in the statements *)

(** The cell of a layer at a grid point. *)
Definition cell_at (a : ndarray) (p : Point) : option Z :=
  if (0 <=? p.1) && (0 <=? p.2) then cell a (Z.to_nat p.1) (Z.to_nat p.2)
  else None.

(** What the shape test of [__init__] establishes: walls, active and
    buttons are arrays of the shape recorded in [shape]. *)
Definition layers_agree (t : Track) : Prop :=
  (wf (walls t) ∧ wf (active t) ∧ wf (buttons t))
  ∧ np.shape (walls t) = shape t ∧ np.shape (active t) = shape t
  ∧ np.shape (buttons t) = shape t.

(** The four layers are arrays of the shape recorded in [shape]. *)
Definition well_shaped (t : Track) : Prop :=
  (wf (walls t) ∧ wf (active t) ∧ wf (buttons t) ∧ wf (colors t))
  ∧ np.shape (walls t) = shape t ∧ np.shape (active t) = shape t
  ∧ np.shape (buttons t) = shape t ∧ np.shape (colors t) = shape t.

(** A layer of flags: every cell holds 0 or 1. *)
Definition boolean (a : ndarray) : Prop :=
  ∀ i j v, cell a i j = Some v → v = 0 ∨ v = 1.

(** No cell is both a wall and a button. *)
Definition exclusive (t : Track) : Prop :=
  ∀ i j w b, cell (walls t) i j = Some w → cell (buttons t) i j = Some b →
             w = 0 ∨ b = 0.

(** A point of the grid of the recorded shape. *)
Definition in_grid (t : Track) (p : Point) : Prop :=
  0 ≤ p.1 < Z.of_nat (shape t).1 ∧ 0 ≤ p.2 < Z.of_nat (shape t).2.

(** Every colour index stored in the colour layer has a palette entry. *)
Definition palette_ok (t : Track) : Prop :=
  ∀ i j c, cell (colors t) i j = Some c → is_Some (color_scheme t !! c).

(** What [__init__] derives from its arguments and no method changes. *)
Definition derived_attrs (t : Track) : Prop :=
  shape t = np.shape (walls t) ∧ color_scheme t = colors_basic.

(** The four layers of the object are four arrays: no array is held by
    two of the attributes.  [blank_track] builds such tracks; the
    constructor takes whatever arrays it is given. *)
Definition separate (t : RaceTrack) : Prop :=
  NoDup [racetrack.walls t; racetrack.active t; racetrack.buttons t;
         racetrack.colors t].

(** The arrays of the object are live. *)
Definition allocated (σ : store) (t : RaceTrack) : Prop :=
  ∀ l, (layer_ref l t < length σ)%nat.

(** The bit a filter's mask holds where the layer holds [x]. *)
Definition mask_value (filter : option Z) (x : Z) : Z :=
  match filter with Some v => Z.b2z (x =? v) | None => 1 end.

(** The layout of an array: its column count and the length of each row.
    In-place writes never change it. *)
Definition layout (a : ndarray) : nat * list nat :=
  (nd_cols a, length <$> nd_rows a).

(** The array after the write [a[i, j] = v] at an in-range position. *)
Definition written (a : ndarray) (i j : nat) (v : Z) : ndarray :=
  NDArray (nd_cols a) (alter (λ row, <[j := v]> row) i (nd_rows a)).

(** The width of the border of an inactive wall, [int(0.2 * w)] for the
    cell width [w = width / cols], is defined: [w] is a finite float. *)
Definition border_fits (width : Z) (cols : nat) : Prop :=
  ∀ w, f64.int_truediv width (Z.of_nat cols) = Ok w →
       is_ok (f64.to_int (f64.mul (f64.tenths 2) w)).

(** A statement returns from every state in which [J] holds, and [J]
    holds again afterwards. *)
Definition keeps {S} (J : S → Prop) (m : stateM S unit) : Prop :=
  ∀ s, J s → ∃ s', m s = (s', Ok tt) ∧ J s'.

(** ** The effect of a pointer gesture, used to state what [click_track] does *)

(** The value the [match selected_kind] statement writes into a layer at
    the cell it edits, if it writes that layer. *)
Definition edit_value (color : Z) (kind : string) (shift : bool) (l : layer)
  : option Z :=
  if String.eqb kind "wall" then
    match l with
    | Walls => Some (if color =? 0 then 0 else 1)
    | Active => if color =? 0 then None else Some (1 - Z.b2z shift)
    | Colors => Some color
    | Buttons => Some 0
    end
  else if String.eqb kind "button" then
    match l with
    | Buttons => Some (if color =? 0 then 0 else 1)
    | Walls => Some 0
    | Colors => Some color
    | Active => Some 1
    end
  else if String.eqb kind "target" || String.eqb kind "spawn" then
    match l with
    | Walls | Buttons | Colors => Some 0
    | Active => Some 1
    end
  else None.

(** The track of [e] holds the arrays the track of [e0] holds, no array
    was made or dropped, and every array that is no layer of the track is
    as it was. *)
Definition same_arrays (e0 e : editor) : Prop :=
  (∀ l, layer_ref l (track e) = layer_ref l (track e0))
  ∧ length (arrays e) = length (arrays e0)
  ∧ ∀ r : ref, (∀ l, layer_ref l (track e0) ≠ r) →
               arrays e !! r = arrays e0 !! r.

(** The cells handled since the editor state [e0]. *)
Definition newly_handled (e0 e : editor) (p : Point) : Prop :=
  p ∈ handled_points e ∧ p ∉ handled_points e0.

(** How the editor state [e] relates to the state [e0] it came from by
    edits of one colour, kind and modifier: the handled set has grown by
    grid points, exactly the new points carry the values of the edit, the
    layers kept their layout, target and spawn moved only if the kind
    says so, onto a new point, and the track holds the arrays it held,
    every other array of the store being as it was. *)
Definition gesture (color : Z) (kind : string) (shift : bool) (e0 e : editor)
  : Prop :=
  handled_points e0 ⊆ handled_points e
  ∧ (shape (shown e) = shape (shown e0)
     ∧ color_scheme (shown e) = color_scheme (shown e0)
     ∧ screen_size (shown e) = screen_size (shown e0)
     ∧ get_width (surface (shown e)) = get_width (surface (shown e0))
     ∧ get_height (surface (shown e)) = get_height (surface (shown e0)))
  ∧ (∀ l, layout (layer_get l (shown e)) = layout (layer_get l (shown e0)))
  ∧ (∀ p, newly_handled e0 e p → in_grid (shown e0) p)
  ∧ (∀ l p, cell_at (layer_get l (shown e)) p =
            match edit_value color kind shift l with
            | Some v =>
                if decide (newly_handled e0 e p)
                then (λ _, v) <$> cell_at (layer_get l (shown e0)) p
                else cell_at (layer_get l (shown e0)) p
            | None => cell_at (layer_get l (shown e0)) p
            end)
  ∧ (if decide (kind = "target")
     then (target (shown e) = target (shown e0)
           ∧ handled_points e = handled_points e0)
          ∨ newly_handled e0 e (target (shown e))
     else target (shown e) = target (shown e0))
  ∧ (if decide (kind = "spawn")
     then (spawn (shown e) = spawn (shown e0)
           ∧ handled_points e = handled_points e0)
          ∨ newly_handled e0 e (spawn (shown e))
     else spawn (shown e) = spawn (shown e0))
  ∧ same_arrays e0 e.



(** The track as it reads after [toggle(c)], whatever the call returned. *)
Definition toggled (c : Z) (σ : store) (t : RaceTrack) : Track :=
  view (racetrack.toggle c (σ, t)).1.1 (racetrack.toggle c (σ, t)).1.2.

(** The editor holds the arrays of [e0], a well-shaped track of the shape
    [s0]. *)
Definition steady (e0 : editor) (s0 : nat * nat) (e : editor) : Prop :=
  well_shaped (shown e) ∧ shape (shown e) = s0 ∧ same_arrays e0 e.

(** What holds of the store and the memo while [deepcopy] copies arrays of
    the store [σ], starting from an empty memo: the store has only grown,
    and the memo maps arrays of [σ] to new arrays with their contents,
    different arrays to different ones. *)
Definition copying (σ : store) (st : store * gmap ref ref) : Prop :=
  (∃ objs, st.1 = σ ++ objs)
  ∧ (∀ r r' : ref, st.2 !! r = Some r' →
       (r < length σ)%nat ∧ (length σ ≤ r' < length st.1)%nat
       ∧ deref st.1 r' = deref σ r)
  ∧ (∀ r1 r2 r' : ref, st.2 !! r1 = Some r' → st.2 !! r2 = Some r' → r1 = r2).
(** ** Concrete tracks used as examples *)

Definition grid (rows : list (list Z)) : ndarray :=
  NDArray (match rows with [] => 0%nat | r :: _ => length r end) rows.

(** Constructor arguments with four arrays made for the purpose: the
    store holding them and the seven arguments. *)
Definition arguments (walls_ active_ buttons_ colors_ : ndarray)
    (target_ spawn_ screen_size_ : Point) : store * fields :=
  ([walls_; active_; buttons_; colors_],
   {| f_walls := 0%nat; f_active := 1%nat; f_buttons := 2%nat;
      f_colors := 3%nat; f_target := target_; f_spawn := spawn_;
      f_screen_size := screen_size_ |}).

(** Three 1x1 layers and a 2x2 colour layer. *)
Definition mismatched_colors : store * fields :=
  arguments (grid [[1]]) (grid [[1]]) (grid [[0]]) (grid [[1; 0]; [0; 0]])
            (0, 0) (0, 0) (40, 40).

(** A 1x2 grid whose first cell holds the wall value 2. *)
Definition wall_value_two : store * fields :=
  arguments (grid [[2; 1]]) (grid [[1; 1]]) (grid [[0; 0]]) (grid [[3; 3]])
            (0, 1) (0, 0) (40, 20).

(** A 1x1 grid whose only cell is an active wall and a button at once. *)
Definition wall_and_button : store * fields :=
  arguments (grid [[1]]) (grid [[1]]) (grid [[1]]) (grid [[2]])
            (0, 0) (0, 0) (40, 40).

(** A 2x2 grid: an active wall of colour 1, an inactive wall of colour 2, a
    button of colour 1 and an empty cell. *)
Definition sample : store * fields :=
  arguments (grid [[1; 1]; [0; 0]]) (grid [[1; 0]; [1; 1]])
            (grid [[0; 0]; [1; 0]]) (grid [[1; 2]; [1; 0]])
            (1, 1) (1, 1) (40, 40).



(** The object the constructor builds from arguments; the track without
    cells stands in where construction raises. *)
Definition build (args : store * fields) : RaceTrack :=
  match racetrack.__init__ args.1 args.2 with
  | Ok t => t
  | Raise _ =>
      {| racetrack.walls := 0%nat; racetrack.active := 0%nat;
         racetrack.buttons := 0%nat; racetrack.colors := 0%nat;
         racetrack.shape := (0, 0)%nat; racetrack.color_scheme := ∅;
         racetrack.spawn := (0, 0); racetrack.target := (0, 0);
         racetrack.surface := {| get_width := 0; get_height := 0; log := [] |};
         racetrack.screen_size := (0, 0) |}
  end.

(** That object as it reads in the store of its arguments. *)
Definition built (args : store * fields) : Track := view args.1 (build args).


(** The editor on [sample] at the start of a gesture, and after a click
    that places a button of colour 3 on the wall cell (0, 0). *)
Definition sample_editor : editor :=
  {| arrays := sample.1; track := build sample; handled_points := ∅ |}.


(** The editor on [sample] after a click with the colour 9, which has no
    palette entry: the call raises at the redraw, with the cell painted. *)
Definition miscoloured_sample : editor :=
  (click_track 9 "wall" true 5 5 1 false sample_editor).1.





(** * Properties *)

(** Goals about every cell of a small literal array: run through the
    indices until the lookup falls off the array. *)
Ltac each_cell :=
  let i := fresh "i" in
  let j := fresh "j" in
  intros i j;
  do 3 (try (destruct i as [|i]));
  do 3 (try (destruct j as [|j]));
  vm_compute; intros; simplify_eq; auto.


(** ** The error monads *)

Lemma result_bind_ok {A B} (m : result A) (k : A → result B) (b : B) :
  m ≫= k = Ok b ↔ ∃ a, m = Ok a ∧ k a = Ok b.
Proof.
  destruct m as [a|e]; simpl; split.
  - eauto.
  - by intros (? & [= <-] & ?).
  - done.
  - by intros (? & ? & ?).
Qed.

Lemma stateM_bind_run {S A B} (m : stateM S A) (k : A → stateM S B) (s : S) :
  (m ≫= k) s =
  match m s with (s', Ok a) => k a s' | (s', Raise e) => (s', Raise e) end.
Proof. reflexivity. Qed.

Lemma stateM_bind_ok {S A B} (m : stateM S A) (k : A → stateM S B) s s' b :
  (m ≫= k) s = (s', Ok b) ↔ ∃ s1 a, m s = (s1, Ok a) ∧ k a s1 = (s', Ok b).
Proof.
  rewrite stateM_bind_run. destruct (m s) as [s1 [a|e]]; split.
  - eauto.
  - by intros (? & ? & [= <- <-] & ?).
  - done.
  - by intros (? & ? & ? & ?).
Qed.

Lemma traverse_ok {A B} (f : A → result B) (g : A → B) (l : list A) :
  (∀ x, x ∈ l → f x = Ok (g x)) → traverse f l = Ok (g <$> l).
Proof.
  induction l as [|x l IH]; intros Hf; [done|].
  simpl. rewrite (Hf x) by left. simpl.
  rewrite IH; [done|]. intros y Hy. apply Hf. by right.
Qed.

Lemma traverse_ok_inv {A B} (f : A → result B) (l : list A) (ys : list B) :
  traverse f l = Ok ys → Forall2 (λ x y, f x = Ok y) l ys.
Proof.
  revert ys. induction l as [|x l IH]; intros ys; simpl.
  - intros [= <-]. constructor.
  - intros (y & Hy & (ys' & Hys & [= <-])%result_bind_ok)%result_bind_ok.
    constructor; auto.
Qed.

(** ** numpy arrays *)

Section arrays.
Implicit Types (a b : ndarray) (i j : nat) (v : Z).

Lemma cell_Some_lt a i j v :
  wf a → cell a i j = Some v → (i < length (nd_rows a))%nat ∧ (j < nd_cols a)%nat.
Proof.
  unfold cell, wf. intros Hwf H.
  destruct (nd_rows a !! i) as [row|] eqn:Hrow; simplify_eq/=.
  split; [by eapply lookup_lt_Some|].
  rewrite Forall_lookup in Hwf. rewrite <- (Hwf _ _ Hrow).
  by eapply lookup_lt_Some.
Qed.

Lemma cell_is_Some a i j :
  wf a → (i < length (nd_rows a))%nat → (j < nd_cols a)%nat →
  is_Some (cell a i j).
Proof.
  unfold cell, wf. intros Hwf Hi Hj.
  destruct (lookup_lt_is_Some_2 _ _ Hi) as [row Hrow]. rewrite Hrow. simpl.
  apply lookup_lt_is_Some_2. rewrite Forall_lookup in Hwf.
  by rewrite (Hwf _ _ Hrow).
Qed.

Lemma cell_map_cells f a i j : cell (map_cells f a) i j = f <$> cell a i j.
Proof.
  unfold cell, map_cells. simpl. rewrite list_lookup_fmap.
  destruct (nd_rows a !! i) as [row|]; simpl; [|done].
  by rewrite list_lookup_fmap.
Qed.

Lemma cell_tabulate R C f i j :
  cell (tabulate R C f) i j =
  if decide (i < R ∧ j < C)%nat then Some (f i j) else None.
Proof.
  unfold cell, tabulate. simpl. rewrite list_lookup_fmap.
  destruct (decide (i < R)%nat) as [Hi|Hi].
  - rewrite lookup_seq_lt by done. simpl. rewrite list_lookup_fmap.
    destruct (decide (j < C)%nat) as [Hj|Hj].
    + rewrite lookup_seq_lt by done. simpl. by rewrite decide_True.
    + rewrite lookup_seq_ge by lia. simpl. rewrite decide_False; [done|lia].
  - rewrite lookup_seq_ge by lia. simpl. rewrite decide_False; [done|lia].
Qed.

Lemma cell_full R C v i j :
  cell (full (R, C) v) i j =
  if decide (i < R ∧ j < C)%nat then Some v else None.
Proof.
  unfold cell, full. simpl.
  destruct (decide (i < R)%nat) as [Hi|Hi].
  - rewrite lookup_replicate_2 by done. simpl.
    destruct (decide (j < C)%nat) as [Hj|Hj].
    + rewrite lookup_replicate_2 by done. by rewrite decide_True.
    + rewrite (proj1 (lookup_replicate_None _ _ _)) by lia.
      rewrite decide_False; [done|lia].
  - rewrite (proj1 (lookup_replicate_None _ _ _)) by lia. simpl.
    rewrite decide_False; [done|lia].
Qed.

Lemma wf_map_cells f a : wf a → wf (map_cells f a).
Proof.
  unfold wf, map_cells. simpl. intros H. apply Forall_fmap.
  eapply Forall_impl; [exact H|]. intros row Hrow. simpl. by rewrite length_fmap.
Qed.

Lemma wf_tabulate R C f : wf (tabulate R C f).
Proof.
  unfold wf, tabulate. simpl. apply Forall_fmap, Forall_forall.
  intros i _. simpl. by rewrite length_fmap, length_seq.
Qed.

Lemma wf_full s v : wf (full s v).
Proof.
  unfold wf, full. simpl. apply Forall_replicate. by rewrite length_replicate.
Qed.

Lemma shape_map_cells f a : np.shape (map_cells f a) = np.shape a.
Proof. unfold np.shape, map_cells. simpl. by rewrite length_map. Qed.

Lemma shape_full s v : np.shape (full s v) = s.
Proof. destruct s. unfold np.shape, full. simpl. by rewrite length_replicate. Qed.

Lemma shape_tabulate R C f : np.shape (tabulate R C f) = (R, C).
Proof. unfold np.shape, tabulate. simpl. by rewrite length_fmap, length_seq. Qed.

Lemma bcell_cell a i j v : wf a → cell a i j = Some v → bcell a i j = v.
Proof.
  intros Hwf H. destruct (cell_Some_lt _ _ _ _ Hwf H) as [Hi Hj].
  unfold bcell.
  assert ((if decide (length (nd_rows a) = 1%nat) then 0%nat else i) = i) as ->
    by (case_decide; lia).
  assert ((if decide (nd_cols a = 1%nat) then 0%nat else j) = j) as ->
    by (case_decide; lia).
  by rewrite H.
Qed.

(** On two arrays of one shape an elementwise operator acts cell by cell. *)
Lemma binop_same_shape f a b :
  wf a → wf b → np.shape a = np.shape b →
  ∃ m, binop f a b = Ok m ∧ wf m ∧ np.shape m = np.shape a ∧
       ∀ i j, cell m i j = x ← cell a i j; y ← cell b i j; Some (f x y).
Proof.
  intros Ha Hb [= Hr Hc]. unfold binop, bdim.
  rewrite <- Hr, <- Hc, !decide_True by done. simpl.
  eexists; split; [done|]. split; [apply wf_tabulate|].
  split; [apply shape_tabulate|].
  intros i j. rewrite cell_tabulate. case_decide as Hij.
  - destruct Hij as [Hi Hj].
    destruct (cell_is_Some a i j) as [x Hx]; [done..|].
    destruct (cell_is_Some b i j) as [y Hy]; [done|lia|lia|].
    rewrite Hx, Hy. simpl.
    by rewrite (bcell_cell _ _ _ _ Ha Hx), (bcell_cell _ _ _ _ Hb Hy).
  - destruct (cell a i j) as [x|] eqn:Hx; [|done].
    apply cell_Some_lt in Hx as [? ?]; [|done]. lia.
Qed.

Lemma elem_of_nonzero_row row j :
  j ∈ nonzero_row row ↔ ∃ v, row !! j = Some v ∧ v ≠ 0.
Proof.
  unfold nonzero_row. rewrite list_elem_of_fmap. split.
  - intros ([j' v] & -> & [Hv Hin]%list_elem_of_filter).
    apply elem_of_lookup_imap in Hin as (k & x & [= -> ->] & Hk). eauto.
  - intros (v & Hj & Hv). exists (j, v). split; [done|].
    apply list_elem_of_filter. split; [done|].
    apply elem_of_lookup_imap. eauto.
Qed.

Lemma elem_of_nonzero a (p : Z * Z) :
  p ∈ nonzero a ↔
  ∃ i j v, p = (Z.of_nat i, Z.of_nat j) ∧ cell a i j = Some v ∧ v ≠ 0.
Proof.
  unfold nonzero, cell. rewrite list_elem_of_join. split.
  - intros (l & Hp & Hl).
    apply elem_of_lookup_imap in Hl as (i & row & -> & Hrow).
    apply list_elem_of_fmap in Hp as (j & -> & Hj).
    apply elem_of_nonzero_row in Hj as (v & Hj & Hv).
    exists i, j, v. rewrite Hrow. simpl. eauto.
  - intros (i & j & v & -> & Hc & Hv).
    destruct (nd_rows a !! i) as [row|] eqn:Hrow; simplify_eq/=.
    eexists. split; [|apply elem_of_lookup_imap; eauto].
    apply list_elem_of_fmap. exists j. split; [done|].
    apply elem_of_nonzero_row. eauto.
Qed.

Lemma zip_where a : zip (where_ a).1 (where_ a).2 = nonzero a.
Proof. unfold where_. simpl. apply zip_fst_snd. Qed.

Lemma where_lengths a : length (where_ a).1 = length (where_ a).2.
Proof. unfold where_. simpl. by rewrite !length_fmap. Qed.

End arrays.

(** ** The masked queries *)

Section queries.
Implicit Types (t : Track) (p : Point).

Lemma cell_at_of_nat (a : ndarray) (i j : nat) :
  cell_at a (Z.of_nat i, Z.of_nat j) = cell a i j.
Proof.
  unfold cell_at. simpl.
  rewrite !(proj2 (Z.leb_le _ _)) by lia. simpl. by rewrite !Nat2Z.id.
Qed.

Lemma cell_at_Some (a : ndarray) p v :
  cell_at a p = Some v ↔
  ∃ i j, p = (Z.of_nat i, Z.of_nat j) ∧ cell a i j = Some v.
Proof.
  split.
  - unfold cell_at. destruct p as [r c]. simpl.
    destruct (0 <=? r) eqn:Hr; [|done]. destruct (0 <=? c) eqn:Hc; [|done].
    simpl. intros H. exists (Z.to_nat r), (Z.to_nat c).
    apply Z.leb_le in Hr, Hc. by rewrite !Z2Nat.id.
  - intros (i & j & -> & H). by rewrite cell_at_of_nat.
Qed.

(** The set built from [np.where(m)] holds the points of the non-zero
    cells of [m]. *)
Lemma elem_of_where_set (m : ndarray) p :
  p ∈ (list_to_set (zip (where_ m).1 (where_ m).2) : gset Point) ↔
  ∃ v, cell_at m p = Some v ∧ v ≠ 0.
Proof.
  rewrite elem_of_list_to_set, zip_where, elem_of_nonzero. split.
  - intros (i & j & v & -> & H & Hv). exists v. by rewrite cell_at_of_nat.
  - intros (v & (i & j & -> & H)%cell_at_Some & Hv). eauto 6.
Qed.

Lemma mask_spec t (layer : ndarray) filter :
  wf layer → np.shape layer = shape t →
  wf (mask t layer filter) ∧ np.shape (mask t layer filter) = shape t ∧
  ∀ i j, cell (mask t layer filter) i j = mask_value filter <$> cell layer i j.
Proof.
  intros Hwf Hsh. unfold mask, astype_int. destruct filter as [v|]; simpl.
  - split; [by apply wf_map_cells|]. split.
    + unfold eq_scalar. by rewrite shape_map_cells.
    + intros i j. apply cell_map_cells.
  - split; [apply wf_full|]. split; [apply shape_full|].
    intros i j. destruct (shape t) as [R C] eqn:Ht.
    rewrite cell_full. injection Hsh as HR HC. case_decide as Hij.
    + destruct (cell_is_Some layer i j) as [x ->]; [done|lia|lia|done].
    + destruct (cell layer i j) as [x|] eqn:Hx; [|done].
      apply cell_Some_lt in Hx; [|done]. lia.
Qed.

Lemma mask_value_bit filter x : mask_value filter x = 0 ∨ mask_value filter x = 1.
Proof. destruct filter as [v|]; simpl; [destruct (x =? v)|]; auto. Qed.

Lemma land_bit_nonzero (w x : Z) :
  x = 0 ∨ x = 1 → (Z.land w x ≠ 0 ↔ Z.odd w = true ∧ x = 1).
Proof.
  intros [-> | ->].
  - rewrite Z.land_0_r. split; [done|]. by intros [_ ?].
  - change (Z.land w 1) with (Z.land w (Z.ones 1)). rewrite Z.land_ones by lia.
    change (2 ^ 1) with 2. rewrite Zmod_odd. destruct (Z.odd w).
    + done.
    + split; [done|]. by intros [? _].
Qed.

Lemma land_bit_bit (w x : Z) :
  x = 0 ∨ x = 1 → Z.land w x = 0 ∨ Z.land w x = 1.
Proof.
  intros [-> | ->].
  - rewrite Z.land_0_r. auto.
  - change (Z.land w 1) with (Z.land w (Z.ones 1)). rewrite Z.land_ones by lia.
    change (2 ^ 1) with 2. rewrite Zmod_odd. destruct (Z.odd w); auto.
Qed.

(** [find_wall_locations_np] on a well-shaped track: it never raises, and
    the mask it scans is the bitwise AND of the wall value with the two
    filter bits. *)
Lemma find_wall_locations_np_spec t cf af :
  well_shaped t →
  ∃ m, find_wall_locations_np t cf af = Ok (where_ m) ∧
       ∀ i j, cell m i j =
              w ← cell (walls t) i j; c ← cell (colors t) i j;
              a ← cell (active t) i j;
              Some (Z.land (Z.land w (mask_value cf c))
                           (mask_value (Z.b2z <$> af) a)).
Proof.
  intros ((Hw & Ha & Hb & Hc) & Sw & Sa & Sb & Sc).
  unfold find_wall_locations_np, band, astype_int.
  destruct (mask_spec t (colors t) cf Hc Sc) as (Wcm & Scm & Ccm).
  destruct (mask_spec t (active t) (Z.b2z <$> af) Ha Sa) as (Wam & Sam & Cam).
  destruct (binop_same_shape Z.land (walls t) (mask t (colors t) cf))
    as (m1 & -> & W1 & S1 & C1); [done|done|congruence|].
  simpl.
  destruct (binop_same_shape Z.land m1 (mask t (active t) (Z.b2z <$> af)))
    as (m2 & -> & W2 & S2 & C2); [done|done|congruence|].
  simpl. exists m2. split; [done|].
  intros i j. rewrite C2, C1, Ccm, Cam.
  destruct (cell (walls t) i j) as [w|] eqn:Ew; simpl; [|done].
  destruct (cell (colors t) i j) as [c|] eqn:Ec; simpl; [|done].
  by destruct (cell (active t) i j) as [a|] eqn:Ea.
Qed.

(** What [find_wall_locations] returns on a well-shaped track: the points
    whose wall value is odd and which pass both filters. *)
Lemma find_wall_locations_spec t cf af :
  well_shaped t →
  ∃ S : gset Point,
    find_wall_locations t cf af = Ok S ∧
    ∀ p, p ∈ S ↔
         ∃ w c a, cell_at (walls t) p = Some w ∧ cell_at (colors t) p = Some c
                  ∧ cell_at (active t) p = Some a
                  ∧ Z.odd w = true ∧ mask_value cf c = 1
                  ∧ mask_value (Z.b2z <$> af) a = 1.
Proof.
  intros Hs. destruct (find_wall_locations_np_spec t cf af Hs) as (m & Hm & Cm).
  unfold find_wall_locations. rewrite Hm. simpl.
  pose proof (elem_of_where_set m) as HS. unfold where_ in HS. simpl in HS.
  eexists. split; [done|]. intros p. rewrite HS. split.
  - intros (v & (i & j & -> & Hv)%cell_at_Some & Hnz).
    rewrite Cm in Hv.
    destruct (cell (walls t) i j) as [w|] eqn:Ew; simplify_eq/=.
    destruct (cell (colors t) i j) as [c|] eqn:Ec; simplify_eq/=.
    destruct (cell (active t) i j) as [a|] eqn:Ea; simplify_eq/=.
    exists w, c, a. rewrite !cell_at_of_nat.
    apply land_bit_nonzero in Hnz as [Hnz Hma]; [|apply mask_value_bit].
    assert (Z.land w (mask_value cf c) ≠ 0) as Hnz'.
    { intros E. rewrite E in Hnz. done. }
    apply land_bit_nonzero in Hnz' as [? ?]; [|apply mask_value_bit].
    done.
  - intros (w & c & a & (i & j & -> & Ew)%cell_at_Some & Ec & Ea & Hw & Hc & Ha).
    rewrite cell_at_of_nat in Ec, Ea.
    exists (Z.land (Z.land w (mask_value cf c)) (mask_value (Z.b2z <$> af) a)).
    rewrite cell_at_of_nat, Cm, Ew, Ec, Ea. simpl. split; [done|].
    rewrite Hc, Ha.
    assert (Z.land w 1 = 1) as ->.
    { change (Z.land w 1) with (Z.land w (Z.ones 1)). rewrite Z.land_ones by lia.
      change (2 ^ 1) with 2. by rewrite Zmod_odd, Hw. }
    done.
Qed.

End queries.

Section more_queries.
Implicit Types (t : Track) (p : Point).

Lemma cell_same_shape (a b : ndarray) i j :
  wf a → wf b → np.shape a = np.shape b →
  is_Some (cell a i j) → is_Some (cell b i j).
Proof.
  intros Ha Hb [= Hr Hc] [v Hv].
  apply cell_Some_lt in Hv as [? ?]; [|done].
  apply cell_is_Some; [done|lia|lia].
Qed.

Lemma cell_at_same_shape (a b : ndarray) p :
  wf a → wf b → np.shape a = np.shape b →
  is_Some (cell_at a p) → is_Some (cell_at b p).
Proof.
  intros Ha Hb Hsh [v (i & j & -> & Hv)%cell_at_Some].
  rewrite cell_at_of_nat. by apply (cell_same_shape a b).
Qed.

(** [find_traversable_cells] on a well-shaped track: the points where the
    wall value is 0 or the active value is not 1. *)
Lemma find_traversable_cells_spec t :
  layers_agree t →
  ∃ T : gset Point,
    find_traversable_cells t = Ok T ∧
    ∀ p, p ∈ T ↔
         ∃ w a, cell_at (walls t) p = Some w ∧ cell_at (active t) p = Some a
                ∧ (w = 0 ∨ a ≠ 1).
Proof.
  intros ((Hw & Ha & Hb) & Sw & Sa & Sb).
  unfold find_traversable_cells, bor, astype_int, eq_scalar, rsub.
  destruct (binop_same_shape Z.lor
              (map_cells (λ x, Z.b2z (x =? 0)) (walls t))
              (map_cells (λ x, 1 - x) (active t)))
    as (m & -> & Wm & Sm & Cm).
  { by apply wf_map_cells. }
  { by apply wf_map_cells. }
  { rewrite !shape_map_cells. congruence. }
  simpl. pose proof (elem_of_where_set m) as HS.
  unfold where_ in *. simpl in *.
  eexists. split; [done|]. intros p. rewrite HS. split.
  - intros (v & (i & j & -> & Hv)%cell_at_Some & Hnz).
    rewrite Cm, !cell_map_cells in Hv.
    destruct (cell (walls t) i j) as [w|] eqn:Ew; simplify_eq/=.
    destruct (cell (active t) i j) as [a|] eqn:Ea; simplify_eq/=.
    exists w, a. rewrite !cell_at_of_nat. split; [done|]. split; [done|].
    destruct (Z.eqb_spec w 0) as [?|?]; [by left|]. right. intros ->.
    apply Hnz. reflexivity.
  - intros (w & a & (i & j & -> & Ew)%cell_at_Some & Ea & Hwa).
    rewrite cell_at_of_nat in Ea.
    exists (Z.lor (Z.b2z (w =? 0)) (1 - a)).
    rewrite cell_at_of_nat, Cm, !cell_map_cells, Ew, Ea. simpl.
    split; [done|]. rewrite Z.lor_eq_0_iff. intros [H1 H2].
    destruct Hwa as [-> | Hne]; [done|lia].
Qed.

(** [find_buttons] on a well-shaped track: the points whose button value
    is odd and whose colour passes the filter. *)
Lemma find_buttons_spec t cf :
  well_shaped t →
  ∃ B : gset Point,
    find_buttons t cf = Ok B ∧
    ∀ p, p ∈ B ↔
         ∃ b c, cell_at (buttons t) p = Some b ∧ cell_at (colors t) p = Some c
                ∧ Z.odd b = true ∧ mask_value cf c = 1.
Proof.
  intros ((Hw & Ha & Hb & Hc) & Sw & Sa & Sb & Sc).
  unfold find_buttons, band, astype_int.
  destruct (mask_spec t (colors t) cf Hc Sc) as (Wcm & Scm & Ccm).
  destruct (binop_same_shape Z.land (buttons t) (mask t (colors t) cf))
    as (m & -> & Wm & Sm & Cm); [done|done|congruence|].
  simpl. pose proof (elem_of_where_set m) as HS.
  unfold where_ in *. simpl in *.
  eexists. split; [done|]. intros p. rewrite HS. split.
  - intros (v & (i & j & -> & Hv)%cell_at_Some & Hnz).
    rewrite Cm, Ccm in Hv.
    destruct (cell (buttons t) i j) as [b|] eqn:Eb; simplify_eq/=.
    destruct (cell (colors t) i j) as [c|] eqn:Ec; simplify_eq/=.
    exists b, c. rewrite !cell_at_of_nat.
    apply land_bit_nonzero in Hnz as [? ?]; [done|apply mask_value_bit].
  - intros (b & c & (i & j & -> & Eb)%cell_at_Some & Ec & Hodd & Hm).
    rewrite cell_at_of_nat in Ec.
    exists (Z.land b (mask_value cf c)).
    rewrite cell_at_of_nat, Cm, Ccm, Eb, Ec. simpl. split; [done|].
    apply land_bit_nonzero; [apply mask_value_bit|done].
Qed.

(** [find_buttons] without a colour filter needs no colour layer: it
    returns the points whose button value is odd. *)
Lemma find_buttons_unfiltered_spec t :
  layers_agree t →
  ∃ B : gset Point,
    find_buttons t None = Ok B ∧
    ∀ p, p ∈ B ↔ ∃ b, cell_at (buttons t) p = Some b ∧ Z.odd b = true.
Proof.
  intros ((Hw & Ha & Hb) & Sw & Sa & Sb).
  unfold find_buttons, band, mask, astype_int.
  destruct (binop_same_shape Z.land (buttons t) (full (shape t) 1))
    as (m & -> & Wm & Sm & Cm); [done|apply wf_full|by rewrite shape_full|].
  simpl. pose proof (elem_of_where_set m) as HS.
  unfold where_ in *. simpl in *.
  eexists. split; [done|]. intros p. rewrite HS.
  assert (∀ i j b, cell (buttons t) i j = Some b →
                   cell m i j = Some (Z.land b 1)) as Hm.
  { intros i j b Eb. rewrite Cm, Eb. simpl.
    destruct (shape t) as [R C] eqn:Ht. rewrite cell_full.
    apply cell_Some_lt in Eb as [? ?]; [|done]. injection Sb as ? ?.
    by rewrite decide_True by lia. }
  split.
  - intros (v & (i & j & -> & Hv)%cell_at_Some & Hnz).
    destruct (cell (buttons t) i j) as [b|] eqn:Eb.
    + rewrite (Hm _ _ _ Eb) in Hv. injection Hv as <-.
      exists b. rewrite cell_at_of_nat. split; [done|].
      apply land_bit_nonzero in Hnz as [? _]; auto.
    + rewrite Cm, Eb in Hv. done.
  - intros (b & (i & j & -> & Eb)%cell_at_Some & Hodd).
    exists (Z.land b 1). rewrite cell_at_of_nat. split; [by apply Hm|].
    apply land_bit_nonzero; auto.
Qed.

Lemma well_shaped_layers_agree t : well_shaped t → layers_agree t.
Proof. by intros ((? & ? & ? & ?) & ? & ? & ? & ?). Qed.

End more_queries.

(** ** In-place writes *)

Section writes.
Implicit Types (a : ndarray) (i j : nat) (v : Z).

Lemma norm_index_of_nat n i :
  norm_index n (Z.of_nat i) = if decide (i < n)%nat then Ok i else Raise IndexError.
Proof.
  unfold norm_index. case_decide as Hi.
  - rewrite (proj2 (Z.leb_le _ _)), (proj2 (Z.ltb_lt _ _)) by lia. simpl.
    by rewrite Nat2Z.id.
  - rewrite (proj2 (Z.leb_le 0 _)), (proj2 (Z.ltb_ge _ _)) by lia. simpl.
    rewrite (proj2 (Z.ltb_ge _ 0)) by lia. by rewrite andb_false_r.
Qed.

Lemma getitem_of_nat_ok a i j v :
  getitem a (Z.of_nat i) (Z.of_nat j) = Ok v ↔
  (i < length (nd_rows a))%nat ∧ (j < nd_cols a)%nat ∧ cell a i j = Some v.
Proof.
  unfold getitem. rewrite !norm_index_of_nat.
  destruct (decide (i < length (nd_rows a))%nat) as [Hi|Hi]; simpl.
  - destruct (decide (j < nd_cols a)%nat) as [Hj|Hj]; simpl.
    + destruct (cell a i j) as [x|]; split.
      * by intros [= ->].
      * by intros (_ & _ & [= ->]).
      * done.
      * by intros (_ & _ & ?).
    + split; [done|]. by intros (_ & ? & _).
  - split; [done|]. by intros (? & _).
Qed.

Lemma setitem_of_nat a i j v :
  (i < length (nd_rows a))%nat → (j < nd_cols a)%nat →
  setitem a (Z.of_nat i) (Z.of_nat j) v = Ok (written a i j v).
Proof.
  intros Hi Hj. unfold setitem. rewrite !norm_index_of_nat.
  by rewrite !decide_True.
Qed.

Lemma setitem_of_nat_ok a i j v a' :
  setitem a (Z.of_nat i) (Z.of_nat j) v = Ok a' → a' = written a i j v.
Proof.
  unfold setitem. rewrite !norm_index_of_nat.
  destruct (decide (i < length (nd_rows a))%nat); simpl; [|done].
  destruct (decide (j < nd_cols a)%nat); simpl; [|done].
  by intros [= <-].
Qed.

Lemma layout_written a i j v : layout (written a i j v) = layout a.
Proof.
  unfold layout, written. simpl. f_equal.
  rewrite (list_fmap_alter _ _ id).
  - by apply list_alter_id.
  - apply Forall_forall. intros row _. simpl. apply length_insert.
Qed.

Lemma cell_written a i j v i' j' :
  cell (written a i j v) i' j' =
  if decide (i' = i ∧ j' = j) then (λ _, v) <$> cell a i j else cell a i' j'.
Proof.
  unfold cell, written. simpl. rewrite list_lookup_alter.
  destruct (decide (i = i')) as [<-|Hi].
  - destruct (nd_rows a !! i) as [row|]; simpl.
    + rewrite list_lookup_insert.
      destruct (decide (j' = j)) as [->|Hj].
      * rewrite (decide_True (P := i = i ∧ j = j)) by done.
        destruct (decide (j < length row)%nat) as [Hlt|Hge].
        -- rewrite decide_True by done.
           by destruct (lookup_lt_is_Some_2 row j Hlt) as [x ->].
        -- rewrite decide_False by (intros [_ ?]; done).
           by rewrite (lookup_ge_None_2 row j) by lia.
      * rewrite decide_False by (intros [? _]; done).
        by rewrite decide_False by (intros [_ ?]; done).
    + by case_decide.
  - by rewrite decide_False by (intros [? _]; done).
Qed.

Lemma layout_lengths a a' :
  layout a' = layout a →
  length (nd_rows a') = length (nd_rows a) ∧ nd_cols a' = nd_cols a.
Proof.
  intros [= Hc Hr]. split; [|done].
  by rewrite <- (length_fmap length (nd_rows a')), Hr, length_fmap.
Qed.

Lemma layout_cell_is_Some a a' i j :
  layout a' = layout a → is_Some (cell a i j) → is_Some (cell a' i j).
Proof.
  intros [= Hc Hr] [v Hv]. unfold cell in *.
  destruct (nd_rows a !! i) as [row|] eqn:Hrow; simplify_eq/=.
  assert ((length <$> nd_rows a') !! i = Some (length row)) as Hl.
  { by rewrite Hr, list_lookup_fmap, Hrow. }
  rewrite list_lookup_fmap in Hl.
  destruct (nd_rows a' !! i) as [row'|]; simplify_eq/=.
  apply lookup_lt_is_Some_2. rewrite Hl. by eapply lookup_lt_Some.
Qed.

(** Two arrays of one layout that agree on every cell are equal. *)
Lemma layout_cell_ext a a' :
  layout a' = layout a → (∀ i j, cell a' i j = cell a i j) → a' = a.
Proof.
  destruct a as [c rows], a' as [c' rows']. unfold layout, cell. simpl.
  intros [= -> Hr] Hcell. f_equal. apply list_eq. intros i.
  pose proof (f_equal (λ l, l !! i) Hr) as Hi. simpl in Hi.
  rewrite !list_lookup_fmap in Hi. specialize (Hcell i).
  destruct (rows' !! i) as [row'|], (rows !! i) as [row|]; simplify_eq/=;
    [|done]. f_equal. apply list_eq, Hcell.
Qed.

(** Writing [f] of the values read from [a] back through the same index
    list: the listed cells hold [f] of their old value, the others are
    untouched, whatever the order and the repetitions in the list. *)
Lemma setitems_seq_spec (f : Z → Z) a (ps : list (Z * Z)) (vals : list Z) :
  Forall (λ p, 0 ≤ p.1 ∧ 0 ≤ p.2) ps →
  Forall2 (λ p v, getitem a p.1 p.2 = Ok v) ps vals →
  ∀ a0, layout a0 = layout a →
  ∃ a', setitems_seq a0 ps (f <$> vals) = Ok a' ∧ layout a' = layout a ∧
        ∀ i j, cell a' i j =
               if decide ((Z.of_nat i, Z.of_nat j) ∈ ps)
               then f <$> cell a i j else cell a0 i j.
Proof.
  intros Hnn Hget. induction Hget as [|p v ps vals Hp Hget IH]; intros a0 Hl.
  - exists a0. split; [done|]. split; [done|]. intros i j.
    rewrite decide_False; [done|]. apply not_elem_of_nil.
  - apply Forall_cons in Hnn as [[Hp1 Hp2] Hnn].
    destruct p as [r c]. simpl in *.
    rewrite <- (Z2Nat.id r), <- (Z2Nat.id c) in Hp by done.
    apply getitem_of_nat_ok in Hp as (Hi & Hj & Hv).
    destruct (layout_lengths _ _ Hl) as [Hlr Hlc].
    pose proof (setitem_of_nat a0 (Z.to_nat r) (Z.to_nat c) (f v)) as Hset.
    rewrite !Z2Nat.id in Hset by done. rewrite Hset by lia. simpl.
    destruct (IH Hnn (written a0 (Z.to_nat r) (Z.to_nat c) (f v)))
      as (a' & Ha' & Hl' & Hc').
    { by rewrite layout_written. }
    exists a'. split; [done|]. split; [done|]. intros i j.
    rewrite Hc', cell_written.
    destruct (decide ((Z.of_nat i, Z.of_nat j) ∈ ps)) as [Hin|Hnin].
    + rewrite decide_True; [done|]. by right.
    + destruct (decide (i = Z.to_nat r ∧ j = Z.to_nat c)) as [[-> ->]|Hne].
      * rewrite decide_True by (rewrite !Z2Nat.id by done; left).
        destruct (layout_cell_is_Some a a0 (Z.to_nat r) (Z.to_nat c)) as [x ->];
          [done|by eexists|]. by rewrite Hv.
      * rewrite decide_False; [done|].
        intros [[= Hr Hc]|?]%elem_of_cons; [|done].
        apply Hne. rewrite <- Hr, <- Hc, !Nat2Z.id. done.
Qed.

Lemma nonzero_nonneg a : Forall (λ p : Z * Z, 0 ≤ p.1 ∧ 0 ≤ p.2) (nonzero a).
Proof.
  apply Forall_forall. intros p (i & j & v & -> & _)%elem_of_nonzero.
  simpl. lia.
Qed.

End writes.

(** ** The store *)

Section store_lemmas.
Implicit Types (σ : store) (t : RaceTrack) (l : layer) (a : ndarray).

Lemma deref_insert_eq σ (r : ref) a :
  (r < length σ)%nat → deref (<[r := a]> σ) r = a.
Proof. intros Hr. unfold deref. by rewrite (list_lookup_insert_eq σ r a Hr). Qed.

Lemma deref_insert_ne σ (r r' : ref) a :
  r ≠ r' → deref (<[r := a]> σ) r' = deref σ r'.
Proof. intros Hr. unfold deref. by rewrite (list_lookup_insert_ne σ r r' a Hr). Qed.

Lemma deref_app_l σ (objs : list ndarray) (r : ref) :
  (r < length σ)%nat → deref (σ ++ objs) r = deref σ r.
Proof. intros Hr. unfold deref. by rewrite (lookup_app_l σ objs r Hr). Qed.

Lemma view_layer σ t l : layer_get l (view σ t) = deref σ (layer_ref l t).
Proof. by destruct l. Qed.

Lemma view_ext σ σ' t t' :
  (∀ l, deref σ' (layer_ref l t') = deref σ (layer_ref l t)) →
  racetrack.shape t' = racetrack.shape t →
  racetrack.color_scheme t' = racetrack.color_scheme t →
  racetrack.spawn t' = racetrack.spawn t →
  racetrack.target t' = racetrack.target t →
  racetrack.surface t' = racetrack.surface t →
  racetrack.screen_size t' = racetrack.screen_size t →
  view σ' t' = view σ t.
Proof.
  intros Hl Hs Hc Hsp Hta Hsu Hss. unfold view.
  pose proof (Hl Walls) as Hw. pose proof (Hl Active) as Ha.
  pose proof (Hl Buttons) as Hb. pose proof (Hl Colors) as Hco.
  simpl in *. by rewrite Hw, Ha, Hb, Hco, Hs, Hc, Hsp, Hta, Hsu, Hss.
Qed.

Lemma separate_layer_ref t l l' :
  separate t → layer_ref l t = layer_ref l' t → l = l'.
Proof.
  unfold separate. rewrite !NoDup_cons, !elem_of_cons, !elem_of_nil.
  intros (H1 & H2 & H3 & _) Heq.
  destruct l, l'; simpl in *; try done; exfalso; intuition congruence.
Qed.

(** On a track with four arrays of its own, a write into one of them
    changes the layer it is and no other. *)
Lemma view_write σ t l a :
  allocated σ t → separate t →
  view (<[layer_ref l t := a]> σ) t = layer_set l (view σ t) a.
Proof.
  intros Hal Hsep.
  assert (∀ l', l' ≠ l →
            deref (<[layer_ref l t := a]> σ) (layer_ref l' t) =
            deref σ (layer_ref l' t)) as Hne.
  { intros l' Hl. apply deref_insert_ne. intros Heq. apply Hl. symmetry.
    by apply (separate_layer_ref t). }
  pose proof (deref_insert_eq σ (layer_ref l t) a (Hal l)) as Heq.
  unfold view.
  pose proof (Hne Walls) as H1. pose proof (Hne Active) as H2.
  pose proof (Hne Buttons) as H3. pose proof (Hne Colors) as H4.
  destruct l; simpl in *; rewrite Heq;
    try rewrite H1 by done; try rewrite H2 by done;
    try rewrite H3 by done; try rewrite H4 by done; done.
Qed.

Lemma view_set_surface σ t (s : Surface) :
  view σ (racetrack.set_surface t s) = set_surface (view σ t) s.
Proof. reflexivity. Qed.

Lemma allocated_insert σ t (r : ref) a :
  allocated σ t → allocated (<[r := a]> σ) t.
Proof. intros H l. rewrite length_insert. apply H. Qed.

Lemma allocated_app σ t (objs : list ndarray) :
  allocated σ t → allocated (σ ++ objs) t.
Proof. intros H l. rewrite length_app. specialize (H l). lia. Qed.

(** A store that grew by new arrays reads the same through every live
    object. *)
Lemma view_app σ t (objs : list ndarray) :
  allocated σ t → view (σ ++ objs) t = view σ t.
Proof.
  intros Hal. apply view_ext; try done.
  intros l. apply deref_app_l, Hal.
Qed.

End store_lemmas.

(** ** The sample track *)

Lemma sample_constructed : is_ok (racetrack.__init__ sample.1 sample.2).
Proof. eexists. vm_compute. reflexivity. Qed.

Lemma sample_allocated : allocated sample.1 (build sample).
Proof. intros []; vm_compute; lia. Qed.

Lemma sample_separate : separate (build sample).
Proof. apply (bool_decide_unpack _). vm_compute. exact I. Qed.

Lemma sample_well_shaped : well_shaped (built sample).
Proof. vm_compute. repeat split; repeat constructor. Qed.

Lemma sample_boolean : boolean (active (built sample)).
Proof. unfold boolean. each_cell. Qed.

Lemma sample_exclusive : exclusive (built sample).
Proof. unfold exclusive. each_cell. Qed.

(** ** toggle *)

Section toggle_lemmas.
Implicit Types (σ : store) (t : RaceTrack) (a : ndarray) (m : ndarray).

Lemma traverse_Forall2 {A B} (f : A → result B) (l : list A) (ys : list B) :
  Forall2 (λ x y, f x = Ok y) l ys → traverse f l = Ok ys.
Proof. induction 1 as [|x y l ys Hx _ IH]; simpl; [done|]. by rewrite Hx, IH. Qed.

Lemma getitems_where a m vals :
  getitems a (where_ m) = Ok vals ↔
  Forall2 (λ p v, getitem a p.1 p.2 = Ok v) (nonzero m) vals.
Proof.
  unfold getitems. rewrite decide_True by apply where_lengths.
  rewrite zip_where. split; [apply traverse_ok_inv|apply traverse_Forall2].
Qed.

Lemma setitems_where a m vs :
  setitems a (where_ m) vs = setitems_seq a (nonzero m) vs.
Proof.
  unfold setitems. rewrite decide_True by apply where_lengths.
  by rewrite zip_where.
Qed.

(** Reading a layer through [np.where(m)], mapping [f] over the values
    and writing them back through the same indices. *)
Lemma rewrite_through_where (f : Z → Z) a m vals :
  getitems a (where_ m) = Ok vals →
  ∃ a', setitems a (where_ m) (f <$> vals) = Ok a' ∧ layout a' = layout a
        ∧ (∀ i j, cell a' i j =
                  if decide ((Z.of_nat i, Z.of_nat j) ∈ nonzero m)
                  then f <$> cell a i j else cell a i j)
        ∧ getitems a' (where_ m) = Ok (f <$> vals).
Proof.
  rewrite getitems_where. intros Hget.
  destruct (setitems_seq_spec f a (nonzero m) vals (nonzero_nonneg m) Hget a)
    as (a' & Hset & Hl & Hc); [done|].
  exists a'. rewrite setitems_where. split; [done|]. split; [done|].
  split; [done|]. apply getitems_where.
  destruct (layout_lengths _ _ Hl) as [Hlr Hlc].
  apply Forall2_same_length_lookup in Hget as [Hlen Hget].
  apply Forall2_same_length_lookup. split; [by rewrite length_fmap|].
  intros k p y Hp Hy. rewrite list_lookup_fmap in Hy.
  destruct (vals !! k) as [v|] eqn:Hv; simplify_eq/=.
  specialize (Hget k p v Hp Hv).
  assert (p ∈ nonzero m) as Hin by by eapply list_elem_of_lookup_2.
  pose proof Hin as (i & j & x & -> & _)%elem_of_nonzero. simpl in *.
  apply getitem_of_nat_ok in Hget as (Hi & Hj & Hcell).
  apply getitem_of_nat_ok. split; [lia|]. split; [lia|].
  by rewrite Hc, decide_True, Hcell.
Qed.

Lemma find_wall_locations_np_where (v : Track) cf af idx :
  find_wall_locations_np v cf af = Ok idx → ∃ m, idx = where_ m.
Proof.
  unfold find_wall_locations_np.
  intros (m1 & _ & (m2 & _ & [= <-])%result_bind_ok)%result_bind_ok. eauto.
Qed.


Lemma find_wall_locations_of_np (v : Track) cf af m :
  find_wall_locations_np v cf af = Ok (where_ m) →
  find_wall_locations v cf af = Ok (list_to_set (nonzero m)).
Proof.
  intros H. unfold find_wall_locations. rewrite H. simpl.
  by rewrite zip_fst_snd.
Qed.

(** The two ways a call of [toggle] can go. *)
Lemma toggle_not_written c σ t e :
  find_wall_locations_np (view σ t) (Some c) None = Raise e
  ∨ (∃ idx, find_wall_locations_np (view σ t) (Some c) None = Ok idx
            ∧ getitems (active (view σ t)) idx = Raise e) →
  racetrack.toggle c (σ, t) = ((σ, t), Raise e).
Proof.
  cbv [racetrack.toggle mbind stateM_bind get lift put
       racetrack.find_wall_locations_np]. simpl.
  intros [H | (idx & H & Hg)].
  - by rewrite H.
  - rewrite H. cbv beta iota. by rewrite Hg.
Qed.

Lemma toggle_written c σ t idx vals a' :
  find_wall_locations_np (view σ t) (Some c) None = Ok idx →
  getitems (active (view σ t)) idx = Ok vals →
  setitems (active (view σ t)) idx ((λ v, 1 - v) <$> vals) = Ok a' →
  racetrack.toggle c (σ, t) =
  let σ' := <[racetrack.active t := a']> σ in
  match render (view σ' t) (get_width (racetrack.surface t))
               (get_height (racetrack.surface t)) with
  | Ok s => ((σ', racetrack.set_surface t s), Ok tt)
  | Raise e => ((σ', t), Raise e)
  end.
Proof.
  intros H Hg Hs.
  cbv [racetrack.toggle mbind stateM_bind get lift put
       racetrack.find_wall_locations_np racetrack.render]. simpl in *.
  rewrite H. cbv beta iota. rewrite Hg. cbv beta iota.
  rewrite Hs. cbv beta iota.
  by destruct (render _ _ _).
Qed.

End toggle_lemmas.

Section toggle_state.
Implicit Types (σ : store) (t : RaceTrack) (a : ndarray) (m : ndarray).


(** The state a call of [toggle] leaves on a track with four arrays of its
    own, whether or not it raises: only [active] (and, on a normal return,
    [surface]) can differ, and [active] is either untouched because the
    search or the read raised, or rewritten through the index arrays of
    the search. *)
Lemma toggle_state c σ t :
  allocated σ t → separate t →
  let v := view σ t in
  let v' := view (racetrack.toggle c (σ, t)).1.1 (racetrack.toggle c (σ, t)).1.2 in
  (walls v' = walls v ∧ buttons v' = buttons v
   ∧ colors v' = colors v ∧ shape v' = shape v
   ∧ color_scheme v' = color_scheme v
   ∧ spawn v' = spawn v ∧ target v' = target v
   ∧ screen_size v' = screen_size v)
  ∧ ((active v' = active v
      ∧ ∃ e, (racetrack.toggle c (σ, t)).2 = Raise e
             ∧ (find_wall_locations_np v (Some c) None = Raise e
                ∨ ∃ idx, find_wall_locations_np v (Some c) None = Ok idx
                         ∧ getitems (active v) idx = Raise e))
     ∨ (∃ m vals,
          find_wall_locations_np v (Some c) None = Ok (where_ m)
          ∧ getitems (active v) (where_ m) = Ok vals
          ∧ layout (active v') = layout (active v)
          ∧ (∀ i j, cell (active v') i j =
                    if decide ((Z.of_nat i, Z.of_nat j) ∈ nonzero m)
                    then (λ x, 1 - x) <$> cell (active v) i j
                    else cell (active v) i j)
          ∧ getitems (active v') (where_ m)
            = Ok ((λ x, 1 - x) <$> vals))).
Proof.
  intros Hal Hsep v v'. subst v v'.
  destruct (find_wall_locations_np (view σ t) (Some c) None) as [idx|e] eqn:Hfind.
  - destruct (find_wall_locations_np_where _ _ _ _ Hfind) as [m ->].
    destruct (getitems (active (view σ t)) (where_ m)) as [vals|e] eqn:Hget.
    + destruct (rewrite_through_where (λ x, 1 - x) _ _ _ Hget)
        as (a' & Hset & Hl & Hc & Hget').
      rewrite (toggle_written c σ t _ _ _ Hfind Hget Hset). cbv zeta.
      pose proof (view_write σ t Active a' Hal Hsep) as Hview.
      simpl in Hview.
      destruct (render _ _ _) as [s|e]; cbn [fst snd];
        rewrite ?view_set_surface, Hview; simpl;
        (split; [done|]); right; exists m, vals; done.
    + rewrite (toggle_not_written c σ t e) by eauto. simpl.
      split; [done|]. left. split; [done|]. exists e. eauto.
  - rewrite (toggle_not_written c σ t e) by eauto. simpl.
    split; [done|]. left. split; [done|]. exists e. eauto.
Qed.


Lemma cell_at_rewritten (f : Z → Z) a a' (ps : list (Z * Z)) :
  (∀ i j, cell a' i j =
          if decide ((Z.of_nat i, Z.of_nat j) ∈ ps)
          then f <$> cell a i j else cell a i j) →
  ∀ p : Point, cell_at a' p =
               if decide (p ∈ ps) then f <$> cell_at a p else cell_at a p.
Proof.
  intros Hc [r c]. unfold cell_at. simpl.
  destruct (0 <=? r) eqn:Hr; simpl; [|by case_decide].
  destruct (0 <=? c) eqn:Hcc; simpl; [|by case_decide].
  apply Z.leb_le in Hr, Hcc. rewrite Hc. by rewrite !Z2Nat.id.
Qed.

End toggle_state.

(** ** The hypotheses of the statements hold on the tracks the code builds *)

Lemma layout_wf (a a' : ndarray) : layout a' = layout a → wf a → wf a'.
Proof.
  unfold layout, wf. intros [= -> Hr] Hwf.
  apply (Forall_fmap length (λ n, n = nd_cols a)). rewrite Hr.
  by apply Forall_fmap.
Qed.

Lemma layout_shape (a a' : ndarray) : layout a' = layout a → np.shape a' = np.shape a.
Proof. intros [Hr Hc]%layout_lengths. unfold np.shape. by rewrite Hr, Hc. Qed.

(** ** Drawing *)

Lemma in_grid_cell_at (t : Track) (a : ndarray) (p : Point) :
  wf a → np.shape a = shape t → in_grid t p → is_Some (cell_at a p).
Proof.
  intros Hwf Hsh [[Hr1 Hr2] [Hc1 Hc2]]. destruct p as [r c]. simpl in *.
  rewrite <- Hsh in Hr2, Hc2. simpl in *.
  rewrite <- (Z2Nat.id r), <- (Z2Nat.id c), cell_at_of_nat by done.
  apply cell_is_Some; [done|lia|lia].
Qed.

Lemma render_size (t : Track) (width height : Z) (s : Surface) :
  render t width height = Ok s → get_width s = width ∧ get_height s = height.
Proof.
  unfold render, new_surface.
  destruct ((width <? 0) || (height <? 0)); simpl; [done|].
  intros (w & _ & (h & _ & (ops & _ & [= <-])%result_bind_ok)%result_bind_ok)%result_bind_ok.
  done.
Qed.

Lemma traverse_ext {A B} (f g : A → result B) (l : list A) :
  (∀ x, f x = g x) → traverse f l = traverse g l.
Proof. intros H. induction l as [|x l IH]; simpl; [done|]. by rewrite H, IH. Qed.

(** [render] reads the four layers, the shape, the palette, the spawn and
    the target, and nothing else. *)
Lemma render_ext (t t' : Track) (width height : Z) :
  walls t' = walls t → active t' = active t → buttons t' = buttons t →
  colors t' = colors t → shape t' = shape t →
  color_scheme t' = color_scheme t → spawn t' = spawn t → target t' = target t →
  render t' width height = render t width height.
Proof.
  intros Hw Ha Hb Hc Hs Hp Hsp Hta. unfold render. rewrite Hs.
  destruct (new_surface width height) as [s|]; simpl; [|done].
  destruct (f64.int_truediv width _) as [w|]; simpl; [|done].
  destruct (f64.int_truediv height _) as [h|]; simpl; [|done].
  rewrite (traverse_ext (render_cell t' w h) (render_cell t w h)); [done|].
  intros [row col]. unfold render_cell. by rewrite Hw, Ha, Hb, Hc, Hp, Hsp, Hta.
Qed.

Lemma traverse_is_ok {A B} (f : A → result B) (l : list A) :
  (∀ x, x ∈ l → is_ok (f x)) → is_ok (traverse f l).
Proof.
  induction l as [|x l IH]; intros H; simpl; [by eexists|].
  destruct (H x) as [y ->]; [by left|]. simpl.
  destruct IH as [ys ->]; [intros z Hz; apply H; by right|]. simpl. by eexists.
Qed.

Lemma elem_of_range (x a b : Z) :
  x ∈ range a b ↔ ∃ i : nat, x = a + Z.of_nat i ∧ (i < Z.to_nat (b - a))%nat.
Proof.
  unfold range. rewrite list_elem_of_fmap. split.
  - intros (i & -> & Hi%elem_of_seq). exists i. split; [done|lia].
  - intros (i & -> & Hi). exists i. split; [done|]. apply elem_of_seq. lia.
Qed.

Lemma elem_of_cells_of (R C : nat) (rc : Z * Z) :
  rc ∈ cells_of (R, C) →
  ∃ i j, rc = (Z.of_nat i, Z.of_nat j) ∧ (i < R)%nat ∧ (j < C)%nat.
Proof.
  unfold cells_of. simpl.
  intros (r & Hrc & Hr)%list_elem_of_bind.
  apply list_elem_of_fmap in Hrc as (c & -> & Hc).
  apply elem_of_range in Hr as (i & -> & Hi), Hc as (j & -> & Hj).
  exists i, j. split; [done|lia].
Qed.

Lemma getitem_full (R C i j : nat) (v : Z) :
  (i < R)%nat → (j < C)%nat →
  getitem (full (R, C) v) (Z.of_nat i) (Z.of_nat j) = Ok v.
Proof.
  intros Hi Hj. apply getitem_of_nat_ok.
  rewrite cell_full, decide_True by done. unfold full. simpl.
  by rewrite length_replicate.
Qed.

(** A track without walls, buttons or colours renders at every size that
    pygame accepts, provided the grid is not empty. *)
Lemma render_blank (t : Track) (R C : nat) (width height : Z) :
  walls t = full (R, C) 0 → buttons t = full (R, C) 0 →
  colors t = full (R, C) 0 → active t = full (R, C) 1 →
  shape t = (R, C) → color_scheme t = colors_basic →
  (0 < R)%nat → (0 < C)%nat → 0 ≤ width → 0 ≤ height →
  is_ok (render t width height).
Proof.
  intros Hw Hb Hc Ha Hs Hp HR HC Hwd Hht. unfold render, new_surface.
  rewrite (proj2 (Z.ltb_ge _ _) Hwd), (proj2 (Z.ltb_ge _ _) Hht). simpl.
  unfold f64.int_truediv. rewrite Hs. simpl.
  rewrite !(proj2 (Z.eqb_neq _ 0)) by lia. simpl.
  destruct (traverse_is_ok
              (render_cell t (SFdiv f64.prec f64.emax (f64.of_int width)
                                    (f64.of_int (Z.of_nat C)))
                             (SFdiv f64.prec f64.emax (f64.of_int height)
                                    (f64.of_int (Z.of_nat R))))
              (cells_of (R, C))) as [ops ->]; [|by eexists].
  intros rc (i & j & -> & Hi & Hj)%elem_of_cells_of.
  unfold render_cell. rewrite Hw, Hb, Hc, Ha, Hp, !getitem_full by done.
  cbn [mbind result_bind]. change (dict_get colors_basic 0) with (Ok (A := Color) "#ffffff").
  cbn [mbind result_bind Z.eqb negb].
  repeat case_bool_decide; cbn [mbind result_bind]; by eexists.
Qed.

Lemma getitem_in_shape (a : ndarray) (R C i j : nat) :
  wf a → np.shape a = (R, C) → (i < R)%nat → (j < C)%nat →
  ∃ v, getitem a (Z.of_nat i) (Z.of_nat j) = Ok v ∧ cell a i j = Some v.
Proof.
  intros Hwf [= HR HC] Hi Hj.
  destruct (cell_is_Some a i j) as [v Hv]; [done|lia|lia|].
  exists v. split; [|done]. apply getitem_of_nat_ok. split; [lia|]. split; [lia|done].
Qed.

Lemma two_is_not_zero : f64.is_zero (f64.of_int 2) = false.
Proof. vm_compute. reflexivity. Qed.

Lemma render_cell_is_ok (t : Track) (w h : spec_float) (i j : nat) :
  well_shaped t → palette_ok t →
  (i < (shape t).1)%nat → (j < (shape t).2)%nat →
  is_ok (f64.to_int (f64.mul (f64.tenths 2) w)) →
  is_ok (render_cell t w h (Z.of_nat i, Z.of_nat j)).
Proof.
  intros ((Ww & Wa & Wb & Wc) & Sw & Sa & Sb & Sc) Hpal Hi Hj [bw Hbw].
  destruct (shape t) as [R C] eqn:Hs. simpl in Hi, Hj.
  destruct (getitem_in_shape _ R C i j Wa Sa Hi Hj) as (a & Ha & _).
  destruct (getitem_in_shape _ R C i j Ww Sw Hi Hj) as (wv & Hwv & _).
  destruct (getitem_in_shape _ R C i j Wc Sc Hi Hj) as (c & Hc & Hcc).
  destruct (getitem_in_shape _ R C i j Wb Sb Hi Hj) as (b & Hb & _).
  destruct (Hpal i j c Hcc) as [col Hcol].
  unfold render_cell. rewrite Ha, Hwv, Hc, Hb. cbn [mbind result_bind].
  unfold dict_get. rewrite Hcol. cbn [mbind result_bind].
  destruct (negb (wv =? 0)).
  - destruct (negb (a =? 0)); [|rewrite Hbw]; cbn [mbind result_bind]; by eexists.
  - destruct (negb (b =? 0)).
    + unfold f64.div. rewrite two_is_not_zero. cbn [mbind result_bind]. by eexists.
    + repeat case_bool_decide; cbn [mbind result_bind]; by eexists.
Qed.

Lemma render_is_ok (t : Track) (width height : Z) :
  well_shaped t → palette_ok t →
  (shape t).1 ≠ 0%nat → (shape t).2 ≠ 0%nat →
  0 ≤ width → 0 ≤ height → border_fits width (shape t).2 →
  is_ok (render t width height).
Proof.
  intros Hs Hpal HR HC Hwd Hht Hbf. unfold render, new_surface.
  rewrite (proj2 (Z.ltb_ge _ _) Hwd), (proj2 (Z.ltb_ge _ _) Hht). simpl.
  destruct (f64.int_truediv width (Z.of_nat (shape t).2)) as [w|] eqn:Hw.
  2:{ unfold f64.int_truediv in Hw.
      rewrite (proj2 (Z.eqb_neq _ 0)) in Hw by lia. done. }
  destruct (f64.int_truediv height (Z.of_nat (shape t).1)) as [h|] eqn:Hh.
  2:{ unfold f64.int_truediv in Hh.
      rewrite (proj2 (Z.eqb_neq _ 0)) in Hh by lia. done. }
  cbn [mbind result_bind].
  destruct (traverse_is_ok (render_cell t w h) (cells_of (shape t)))
    as [ops ->]; [|by eexists].
  intros rc Hrc. destruct (shape t) as [R C] eqn:Hsh.
  apply elem_of_cells_of in Hrc as (i & j & -> & Hi & Hj).
  apply render_cell_is_ok; try done; rewrite ?Hsh; try done.
  by apply Hbf.
Qed.

Lemma sample_palette_ok : palette_ok (built sample).
Proof.
  assert (color_scheme (built sample) = colors_basic) as Hcs
    by (vm_compute; reflexivity).
  assert (colors (built sample) = grid [[1; 2]; [1; 0]]) as Hco
    by (vm_compute; reflexivity).
  unfold palette_ok. rewrite Hcs, Hco. clear Hcs Hco.
  intros i j c.
  do 3 (try (destruct i as [|i])); do 3 (try (destruct j as [|j]));
    cbn; intros [= <-]; by eexists.
Qed.

Lemma sample_border_fits : border_fits 40 2.
Proof.
  intros w Hw. vm_compute in Hw. injection Hw as <-.
  eexists. vm_compute. reflexivity.
Qed.

(** ** The editor *)

Section editor_lemmas.
Implicit Types (e : editor) (t : RaceTrack) (l : layer).

Lemma for_ok_invariant {S A} (I : S → Prop) (body : A → stateM S unit) (l : list A) :
  (∀ x s s', body x s = (s', Ok tt) → I s → I s') →
  ∀ s s', for_ l body s = (s', Ok tt) → I s → I s'.
Proof.
  intros Hb. induction l as [|x l IH]; simpl; intros s s' H HI.
  - by injection H as <-.
  - apply stateM_bind_ok in H as (s1 & [] & H1 & H2). eauto.
Qed.

Lemma in_range_nonneg (i : Z) (n : nat) : in_range i n = true → 0 ≤ i.
Proof. unfold in_range. intros [H _]%andb_true_iff. by apply Z.leb_le. Qed.

Lemma same_arrays_refl e : same_arrays e e.
Proof. done. Qed.

(** An editor that holds the arrays it held has them apart and allocated
    as before. *)
Lemma same_arrays_apart e0 e :
  same_arrays e0 e → separate (track e0) → allocated (arrays e0) (track e0) →
  separate (track e) ∧ allocated (arrays e) (track e).
Proof.
  intros (K1 & K2 & _) Hsep Hal. split.
  - unfold separate in *.
    pose proof (K1 Walls) as Hw. pose proof (K1 Active) as Ha.
    pose proof (K1 Buttons) as Hb. pose proof (K1 Colors) as Hc.
    simpl in *. by rewrite Hw, Ha, Hb, Hc.
  - intros l. rewrite K1, K2. apply Hal.
Qed.

Lemma assign_ok l r c v e e' :
  assign l r c v e = (e', Ok tt) → 0 ≤ r → 0 ≤ c →
  e' = {| arrays := <[layer_ref l (track e) :=
                        written (deref (arrays e) (layer_ref l (track e)))
                                (Z.to_nat r) (Z.to_nat c) v]> (arrays e);
          track := track e; handled_points := handled_points e |}.
Proof.
  cbv [assign mbind stateM_bind get lift put].
  destruct (setitem _ r c v) as [a|] eqn:H; [|done].
  intros [= <-] Hr Hc.
  rewrite <- (Z2Nat.id r), <- (Z2Nat.id c) in H by done.
  by apply setitem_of_nat_ok in H as ->.
Qed.

(** On a track whose layers are four arrays, a completed write
    [track.<layer>[r, c] = v] changes the cell of that layer and nothing
    else. *)
Lemma assign_shown e0 l r c v e e' :
  separate (track e0) → allocated (arrays e0) (track e0) → same_arrays e0 e →
  assign l r c v e = (e', Ok tt) → 0 ≤ r → 0 ≤ c →
  same_arrays e0 e'
  ∧ handled_points e' = handled_points e
  ∧ shown e' = layer_set l (shown e)
                 (written (layer_get l (shown e)) (Z.to_nat r) (Z.to_nat c) v).
Proof.
  intros Hsep Hal K H Hr Hc. apply assign_ok in H; [|done..]. subst e'.
  destruct (same_arrays_apart _ _ K Hsep Hal) as [Hsep' Hal'].
  split.
  - destruct K as (K1 & K2 & K3). split; [done|]. simpl.
    split; [by rewrite length_insert|].
    intros r0 Hr0. rewrite list_lookup_insert_ne; [by apply K3|].
    rewrite K1. apply Hr0.
  - split; [done|]. unfold shown. simpl.
    rewrite view_write by done. by rewrite view_layer.
Qed.

Lemma update_track_ok f e e' :
  update_track f e = (e', Ok tt) →
  e' = {| arrays := arrays e; track := f (track e);
          handled_points := handled_points e |}.
Proof. by intros [= <-]. Qed.

Lemma same_arrays_update e0 e (f : RaceTrack → RaceTrack) :
  (∀ l, layer_ref l (f (track e)) = layer_ref l (track e)) →
  same_arrays e0 e →
  same_arrays e0 {| arrays := arrays e; track := f (track e);
                    handled_points := handled_points e |}.
Proof.
  intros Hf (K1 & K2 & K3). split; [|done]. intros l. simpl. by rewrite Hf.
Qed.

Lemma same_arrays_handled e0 e (P : gset Point) :
  same_arrays e0 e →
  same_arrays e0 {| arrays := arrays e; track := track e; handled_points := P |}.
Proof. done. Qed.

(** Take a completed sequence of writes apart, one statement at a time;
    [K] relates the state the sequence starts in to the state [e0] the
    layers are known to be apart in. *)
Ltac inv_writes H K Hsep Hal :=
  lazymatch type of H with
  | (_ ≫= _) _ = (_, Ok _) =>
      let H1 := fresh "Hstep" in
      apply stateM_bind_ok in H as (? & [] & H1 & H);
      inv_writes H1 K Hsep Hal; inv_writes H K Hsep Hal
  | assign _ _ _ _ _ = (_, Ok _) =>
      let K' := fresh "K" in
      let P := fresh "Hpts" in
      let S := fresh "Hshown" in
      destruct (assign_shown _ _ _ _ _ _ _ Hsep Hal K H) as (K' & P & S);
      [done|done|]; clear K H; rename K' into K
  | update_track ?f _ = (?x, Ok _) =>
      apply update_track_ok in H; subst x;
      apply (same_arrays_update _ _ f) in K; [|by intros []]
  | _ => idtac
  end.

Ltac shown_all :=
  repeat match goal with
         | S : shown ?x = _ |- _ => rewrite !S; clear S
         end.

(** The state a completed [match selected_kind] statement leaves. *)
Lemma edit_cell_result e0 color kind shift r c e e' :
  separate (track e0) → allocated (arrays e0) (track e0) → same_arrays e0 e →
  edit_cell color kind shift r c e = (e', Ok tt) → 0 ≤ r → 0 ≤ c →
  same_arrays e0 e'
  ∧ handled_points e' = handled_points e
  ∧ (shape (shown e') = shape (shown e)
     ∧ color_scheme (shown e') = color_scheme (shown e)
     ∧ screen_size (shown e') = screen_size (shown e)
     ∧ surface (shown e') = surface (shown e))
  ∧ (∀ l, layer_get l (shown e') =
          match edit_value color kind shift l with
          | Some v => written (layer_get l (shown e)) (Z.to_nat r) (Z.to_nat c) v
          | None => layer_get l (shown e)
          end)
  ∧ target (shown e') = (if decide (kind = "target") then (r, c) else target (shown e))
  ∧ spawn (shown e') = (if decide (kind = "spawn") then (r, c) else spawn (shown e)).
Proof.
  intros Hsep Hal K H Hr Hc. unfold edit_cell in H.
  destruct (String.eqb_spec kind "wall") as [->|Hk1].
  { destruct (color =? 0) eqn:Hcol; cbv iota in H; inv_writes H K Hsep Hal;
      (split; [exact K|]); (split; [congruence|]); shown_all;
      (repeat split; try done); intros []; unfold edit_value; simpl;
      rewrite ?Hcol; reflexivity. }
  destruct (String.eqb_spec kind "button") as [->|Hk2].
  { destruct (color =? 0) eqn:Hcol; cbv iota in H; inv_writes H K Hsep Hal;
      (split; [exact K|]); (split; [congruence|]); shown_all;
      (repeat split; try done); intros []; unfold edit_value; simpl;
      rewrite ?Hcol; reflexivity. }
  destruct (String.eqb_spec kind "target") as [->|Hk3].
  { inv_writes H K Hsep Hal. subst.
    (split; [exact K|]); (split; [simpl in *; congruence|]); shown_all;
      (repeat split; try done); intros []; reflexivity. }
  destruct (String.eqb_spec kind "spawn") as [->|Hk4].
  { inv_writes H K Hsep Hal. subst.
    (split; [exact K|]); (split; [simpl in *; congruence|]); shown_all;
      (repeat split; try done); intros []; reflexivity. }
  injection H as <-.
  rewrite !decide_False by done. repeat split; try done; try apply K.
  intros l. unfold edit_value.
  by rewrite !(proj2 (String.eqb_neq _ _)) by done.
Qed.

Lemma cell_at_nonneg (a : ndarray) (r c : Z) :
  0 ≤ r → 0 ≤ c → cell_at a (r, c) = cell a (Z.to_nat r) (Z.to_nat c).
Proof.
  intros Hr Hc. unfold cell_at. simpl.
  by rewrite !(proj2 (Z.leb_le _ _)) by done.
Qed.

Lemma cell_at_written (a : ndarray) (i j : nat) (v : Z) (p : Point) :
  cell_at (written a i j v) p =
  if decide (p = (Z.of_nat i, Z.of_nat j)) then (λ _, v) <$> cell_at a p
  else cell_at a p.
Proof.
  destruct (decide (p = (Z.of_nat i, Z.of_nat j))) as [->|Hne].
  - rewrite !cell_at_of_nat, cell_written. by rewrite decide_True.
  - destruct p as [r c]. unfold cell_at. simpl.
    destruct ((0 <=? r) && (0 <=? c)) eqn:Hnn; [|done].
    apply andb_true_iff in Hnn as [Hr%Z.leb_le Hc%Z.leb_le].
    rewrite cell_written, decide_False; [done|].
    intros [<- <-]. apply Hne. by rewrite !Z2Nat.id.
Qed.

Lemma layer_get_set_surface l (t : Track) s :
  layer_get l (set_surface t s) = layer_get l t.
Proof. by destruct l. Qed.

Lemma gesture_refl color kind shift e : gesture color kind shift e e.
Proof.
  unfold gesture, newly_handled. split; [done|]. split; [done|].
  split; [done|]. split; [by intros p [? ?]|]. split.
  - intros l p. destruct (edit_value _ _ _ _); [|done].
    rewrite decide_False; [done|]. by intros [? ?].
  - split; [|split]; [case_decide; auto..|apply same_arrays_refl].
Qed.

Lemma gesture_visit color kind shift r c e0 e e' :
  separate (track e0) → allocated (arrays e0) (track e0) →
  gesture color kind shift e0 e →
  visit_cell color kind shift r c e = (e', Ok tt) →
  gesture color kind shift e0 e'.
Proof.
  intros Hsep Hal G. cbv [visit_cell mbind stateM_bind get put].
  destruct (in_range r _) eqn:Hr; simpl; [|by intros [= <-]].
  destruct (in_range c _) eqn:Hc; simpl; [|by intros [= <-]].
  case_bool_decide as Hnew; simpl; [by intros [= <-]|].
  intros Hedit.
  pose proof (in_range_nonneg _ _ Hr) as Hr0.
  pose proof (in_range_nonneg _ _ Hc) as Hc0.
  destruct G as (G1 & (G2 & G3 & G4 & G5 & G6) & G7 & G8 & G9 & G10 & G11 & G12).
  eapply (edit_cell_result e0) in Hedit
    as (K & Hhp & (Hs & Hpal & Hss & Hsf) & Hl & Hta & Hsp);
    [|done|done|by apply same_arrays_handled|done|done].
  unfold shown in Hs, Hpal, Hss, Hsf, Hl, Hta, Hsp.
  cbn [arrays track handled_points] in Hhp, Hs, Hpal, Hss, Hsf, Hl, Hta, Hsp.
  fold (shown e) in Hs, Hpal, Hss, Hsf, Hl, Hta, Hsp.
  fold (shown e') in Hs, Hpal, Hss, Hsf, Hl, Hta, Hsp.
  assert ((r, c) ∉ handled_points e0) as Hnew0 by (intros ?; apply Hnew; by apply G1).
  assert (in_grid (shown e0) (r, c)) as Hgrid.
  { unfold in_grid, in_range in *. rewrite <- G2. simpl. lia. }
  assert ((Z.of_nat (Z.to_nat r), Z.of_nat (Z.to_nat c)) = (r, c)) as Hrc
    by (by rewrite !Z2Nat.id).
  assert (∀ p, newly_handled e0 e' p ↔ p = (r, c) ∨ newly_handled e0 e p) as Hnh.
  { intros p. unfold newly_handled. rewrite Hhp, elem_of_union, elem_of_singleton.
    split; [intros [[-> | ?] ?]; auto|intros [-> | [? ?]]; auto]. }
  unfold gesture.
  split; [|split; [|split; [|split; [|split; [|split; [|split]]]]]].
  - rewrite Hhp. intros p Hp. apply elem_of_union. right. by apply G1.
  - rewrite Hs, Hpal, Hss, Hsf. done.
  - intros l. rewrite Hl. destruct (edit_value _ _ _ l); [|done].
    by rewrite layout_written.
  - intros p [-> | Hp]%Hnh; [done|by apply G8].
  - intros l p. rewrite Hl. specialize (G9 l).
    destruct (edit_value color kind shift l) as [v|]; [|done].
    rewrite cell_at_written, Hrc.
    destruct (decide (p = (r, c))) as [->|Hne].
    + rewrite decide_True by (apply Hnh; by left).
      rewrite G9, decide_False; [done|]. by intros [? _].
    + rewrite G9. destruct (decide (newly_handled e0 e p)) as [Hp|Hp].
      * rewrite decide_True; [done|]. apply Hnh. by right.
      * rewrite decide_False; [done|]. intros [? | ?]%Hnh; done.
  - rewrite Hta. destruct (decide (kind = "target")); [|done].
    right. apply Hnh. by left.
  - rewrite Hsp. destruct (decide (kind = "spawn")); [|done].
    right. apply Hnh. by left.
  - exact K.
Qed.

(** On a track whose layers are four arrays, a completed [click_track] is
    a gesture step; it changes nothing when the pointer is up or off the
    canvas. *)
Lemma click_track_gesture color kind pressed mx my cursor shift e e' :
  separate (track e) → allocated (arrays e) (track e) →
  click_track color kind pressed mx my cursor shift e = (e', Ok tt) →
  gesture color kind shift e e'
  ∧ (pressed = false ∨ collidepoint (surface (shown e)) mx my = false → e' = e).
Proof.
  intros Hsep Hal Hclick. unfold click_track in Hclick.
  apply stateM_bind_ok in Hclick as (? & e0 & [= <- <-] & Hclick).
  destruct (negb pressed || negb (collidepoint _ mx my)) eqn:Hguard.
  { injection Hclick as <-. split; [apply gesture_refl|done]. }
  apply orb_false_iff in Hguard as [Hp%negb_false_iff Hcl%negb_false_iff].
  split; [|intros [? | ?]; simpl in *; congruence].
  apply stateM_bind_ok in Hclick as (? & rc & [= <- _] & Hclick).
  apply stateM_bind_ok in Hclick as (e1 & [] & Hloops & Hclick).
  apply stateM_bind_ok in Hclick as (? & ? & [= <- <-] & Hclick).
  apply stateM_bind_ok in Hclick as (? & s & [= <- Hrender] & Hclick).
  apply update_track_ok in Hclick as ->.
  assert (gesture color kind shift e e1) as G.
  { refine (for_ok_invariant (gesture color kind shift e) _ _ _ e e1 Hloops
              (gesture_refl _ _ _ e)).
    intros r s1 s2 Hinner G1.
    refine (for_ok_invariant (gesture color kind shift e) _ _ _ s1 s2 Hinner G1).
    intros c s3 s4 Hv G2. by eapply gesture_visit. }
  apply render_size in Hrender as [Hsw Hsh].
  destruct G as (G1 & (G2 & G3 & G4 & G5 & G6) & G7 & G8 & G9 & G10 & G11 & G12).
  match goal with |- gesture _ _ _ _ ?x => set (e2 := x) end.
  assert (shown e2 = set_surface (shown e1) s) as Hshown by reflexivity.
  assert (handled_points e2 = handled_points e1) as Hpts by reflexivity.
  assert (same_arrays e e2) as K.
  { apply (same_arrays_update e e1 (λ t, racetrack.set_surface t s));
      [by intros []|done]. }
  clearbody e2.
  unfold gesture, newly_handled in *. rewrite Hshown, Hpts.
  split; [done|]. split; [simpl in *; by rewrite Hsw, Hsh|].
  split; [by intros l; rewrite layer_get_set_surface|].
  split; [done|]. split; [by intros l p; rewrite layer_get_set_surface|].
  split; [done|]. split; [done|]. exact K.
Qed.

End editor_lemmas.

Lemma gesture_well_shaped color kind shift (e e' : editor) :
  well_shaped (shown e) → gesture color kind shift e e' → well_shaped (shown e').
Proof.
  intros ((Ww & Wa & Wb & Wc) & Sw & Sa & Sb & Sc) (_ & (Hs & _) & Hl & _).
  pose proof (Hl Walls) as Lw. pose proof (Hl Active) as La.
  pose proof (Hl Buttons) as Lb. pose proof (Hl Colors) as Lc.
  cbn [layer_get] in Lw, La, Lb, Lc.
  unfold well_shaped.
  rewrite (layout_shape _ _ Lw), (layout_shape _ _ La), (layout_shape _ _ Lb),
    (layout_shape _ _ Lc), Hs.
  pose proof (layout_wf _ _ Lw Ww). pose proof (layout_wf _ _ La Wa).
  pose proof (layout_wf _ _ Lb Wb). pose proof (layout_wf _ _ Lc Wc). done.
Qed.

Lemma well_shaped_layer (t : Track) (l : layer) :
  well_shaped t → wf (layer_get l t) ∧ np.shape (layer_get l t) = shape t.
Proof. intros ((? & ? & ? & ?) & ? & ? & ? & ?). by destruct l. Qed.




(** ** The cells a click reaches *)

Section coverage.
Implicit Types (e : editor) (l : layer).











End coverage.









(** ** Construction *)


(** What a successful construction stores: the references it was given,
    and what it derived from them. *)
Lemma init_fields (σ : store) (d : fields) (t : RaceTrack) :
  racetrack.__init__ σ d = Ok t →
  fields_of t = d
  ∧ racetrack.shape t = np.shape (deref σ (f_walls d))
  ∧ racetrack.color_scheme t = colors_basic
  ∧ np.shape (deref σ (f_walls d)) = np.shape (deref σ (f_active d))
  ∧ np.shape (deref σ (f_active d)) = np.shape (deref σ (f_buttons d))
  ∧ racetrack.render σ t (f_screen_size d).1 (f_screen_size d).2
    = Ok (racetrack.surface t).
Proof.
  unfold racetrack.__init__. case_bool_decide as Hsh; simpl; [|done].
  intros (s & Hs & [= <-])%result_bind_ok. destruct d. simpl in *.
  destruct Hsh. done.
Qed.

(** A constructed track has walls, active and buttons of the recorded
    shape. *)
Lemma init_layers_agree (σ : store) (d : fields) (t : RaceTrack) :
  racetrack.__init__ σ d = Ok t →
  wf (deref σ (f_walls d)) → wf (deref σ (f_active d)) →
  wf (deref σ (f_buttons d)) →
  layers_agree (view σ t).
Proof.
  intros (Hf & Hs & _ & H1 & H2 & _)%init_fields Ww Wa Wb.
  subst d. simpl in *. unfold layers_agree. simpl. rewrite Hs.
  split; [done|]. split; [done|]. split; congruence.
Qed.

(** C2.  The constructor accepts [mismatched_colors], whose colour layer
    is 2x2 while the other three layers are 1x1: the shape of [colors] is
    never compared. *)
Theorem init_accepts_mismatched_colors :
  np.shape (deref mismatched_colors.1 (f_colors mismatched_colors.2))
  ≠ np.shape (deref mismatched_colors.1 (f_walls mismatched_colors.2))
  ∧ np.shape (deref mismatched_colors.1 (f_walls mismatched_colors.2))
    = np.shape (deref mismatched_colors.1 (f_active mismatched_colors.2))
  ∧ np.shape (deref mismatched_colors.1 (f_active mismatched_colors.2))
    = np.shape (deref mismatched_colors.1 (f_buttons mismatched_colors.2))
  ∧ is_ok (racetrack.__init__ mismatched_colors.1 mismatched_colors.2).
Proof.
  split; [done|]. split; [done|]. split; [done|].
  eexists. vm_compute. reflexivity.
Qed.

(** C3.  On [wall_value_two] the cell (0, 0) holds the wall value 2, which
    is not 0, and [find_wall_locations] without filters returns only
    (0, 1): the wall value enters the mask through a bitwise AND with 1. *)
Theorem find_wall_locations_misses_even_wall :
  is_ok (racetrack.__init__ wall_value_two.1 wall_value_two.2)
  ∧ cell_at (walls (built wall_value_two)) (0, 0) = Some 2
  ∧ racetrack.find_wall_locations wall_value_two.1 (build wall_value_two)
      None None = Ok {[ (0, 1) ]}.
Proof.
  split; [eexists; vm_compute; reflexivity|].
  split; vm_compute; reflexivity.
Qed.

(** ** The palette *)

(** C7 as stated fails: the palette has an entry at index 7. *)
Lemma palette_not_seven_entries :
  ¬ (size colors_basic = 7%nat
     ∧ ∀ k : Z, is_Some (colors_basic !! k) → 0 ≤ k ≤ 6).
Proof.
  intros [_ H]. specialize (H 7). assert (0 ≤ 7 ≤ 6) as [_ ?]; [|lia].
  apply H. by eexists.
Qed.

(** C7, amended.  The palette has exactly 8 entries, at the indices 0 to 7;
    index 0 is white, the colour of a cell without colour; no other index
    has an entry. *)
Theorem palette_eight_entries :
  size colors_basic = 8%nat
  ∧ colors_basic !! 0 = Some "#ffffff"
  ∧ ∀ k : Z, is_Some (colors_basic !! k) ↔ 0 ≤ k ≤ 7.
Proof.
  split; [reflexivity|]. split; [reflexivity|]. intros k.
  rewrite <- elem_of_dom. unfold colors_basic.
  rewrite dom_list_to_map_L, elem_of_list_to_set. simpl.
  rewrite !elem_of_cons, elem_of_nil. lia.
Qed.

(** ** Traversable cells *)

(** C4 as stated fails: on [wall_and_button] the only cell is an active
    wall and a button; it is returned by [find_buttons] and not by
    [find_traversable_cells]. *)
Lemma button_not_traversable :
  is_ok (racetrack.__init__ wall_and_button.1 wall_and_button.2)
  ∧ ∃ B T : gset Point,
      racetrack.find_buttons wall_and_button.1 (build wall_and_button) None
      = Ok B
      ∧ racetrack.find_traversable_cells wall_and_button.1
          (build wall_and_button) = Ok T
      ∧ ¬ B ⊆ T.
Proof.
  split; [eexists; vm_compute; reflexivity|].
  exists {[ (0, 0) ]}, ∅.
  split; [vm_compute; reflexivity|]. split; [vm_compute; reflexivity|].
  intros H. specialize (H (0, 0)). set_solver.
Qed.

(** C4, amended.  On a track whose walls, active and buttons layers share
    the recorded shape and whose active layer holds flags,
    [find_traversable_cells] returns exactly the cells where the wall value
    is 0 or the flag is 0; it contains every cell without a wall and misses
    exactly the cells with a wall whose flag is 1; and when no cell is both
    a wall and a button it contains every cell [find_buttons] returns. *)
Theorem traversable_cells_characterised (σ : store) (t : RaceTrack) :
  layers_agree (view σ t) → boolean (active (view σ t)) →
  ∃ T : gset Point,
    racetrack.find_traversable_cells σ t = Ok T
    ∧ (∀ p, p ∈ T ↔
            ∃ w a, cell_at (walls (view σ t)) p = Some w
                   ∧ cell_at (active (view σ t)) p = Some a
                   ∧ (w = 0 ∨ a = 0))
    ∧ (∀ p, cell_at (walls (view σ t)) p = Some 0 → p ∈ T)
    ∧ (∀ p w a, cell_at (walls (view σ t)) p = Some w →
                cell_at (active (view σ t)) p = Some a →
                (p ∉ T ↔ w ≠ 0 ∧ a = 1))
    ∧ (exclusive (view σ t) →
       ∃ B : gset Point, racetrack.find_buttons σ t None = Ok B ∧ B ⊆ T).
Proof.
  unfold racetrack.find_traversable_cells, racetrack.find_buttons.
  generalize (view σ t). clear σ t. intros t.
  intros Hs Hbool.
  destruct (find_traversable_cells_spec t Hs) as (T & HT & HTp).
  assert (∀ p a, cell_at (active t) p = Some a → a = 0 ∨ a = 1) as Hflag.
  { intros p a (i & j & -> & Ha)%cell_at_Some. eauto. }
  assert (∀ p, p ∈ T ↔
               ∃ w a, cell_at (walls t) p = Some w ∧ cell_at (active t) p = Some a
                      ∧ (w = 0 ∨ a = 0)) as HT0.
  { intros p. rewrite HTp. split; intros (w & a & Hw & Ha & Hwa);
      exists w, a; (split; [done|]); (split; [done|]);
      destruct (Hflag p a Ha); lia. }
  pose proof Hs as ((Ww & Wa & Wb) & Sw & Sa & Sb).
  exists T. split; [done|]. split; [done|]. split; [|split].
  - intros p Hw.
    destruct (cell_at_same_shape (walls t) (active t) p) as [a Ha];
      [done|done|congruence|by eexists|].
    apply HT0. exists 0, a. auto.
  - intros p w a Hw Ha. rewrite HT0. split.
    + intros Hn. destruct (Hflag p a Ha) as [-> | ->].
      * exfalso. apply Hn. exists w, 0. auto.
      * split; [|done]. intros ->. apply Hn. exists 0, 1. auto.
    + intros [Hw0 ->] (w' & a' & Hw' & Ha' & Hor).
      rewrite Hw in Hw'. rewrite Ha in Ha'. simplify_eq. lia.
  - intros Hex. destruct (find_buttons_unfiltered_spec t Hs) as (B & HB & HBp).
    exists B. split; [done|]. intros p (b & Hb & Hodd)%HBp.
    destruct (cell_at_same_shape (buttons t) (walls t) p) as [w Hw];
      [done|done|congruence|by eexists|].
    destruct (cell_at_same_shape (buttons t) (active t) p) as [a Ha];
      [done|done|congruence|by eexists|].
    apply HT0. exists w, a. split; [done|]. split; [done|]. left.
    apply cell_at_Some in Hb as (i & j & -> & Hb).
    rewrite cell_at_of_nat in Hw.
    destruct (Hex i j w b Hw Hb) as [-> | ->]; [done|].
    by rewrite Z.odd_0 in Hodd.
Qed.

Lemma traversable_cells_characterised_witness :
  layers_agree (built sample) ∧ boolean (active (built sample))
  ∧ exclusive (built sample)
  ∧ ∃ B T : gset Point,
      racetrack.find_buttons sample.1 (build sample) None = Ok B
      ∧ racetrack.find_traversable_cells sample.1 (build sample) = Ok T
      ∧ B ⊆ T.
Proof.
  pose proof (well_shaped_layers_agree _ sample_well_shaped) as Hagree.
  split; [exact Hagree|]. split; [exact sample_boolean|].
  split; [exact sample_exclusive|].
  destruct (traversable_cells_characterised sample.1 (build sample)
              Hagree sample_boolean) as (T & HT & _ & _ & _ & HB).
  destruct (HB sample_exclusive) as (B & HB1 & HB2).
  exists B, T. exact (conj HB1 (conj HT HB2)).
Defined.

(** ** Persistence *)

Section persistence.
Implicit Types (σ : store) (t : RaceTrack) (d : fields) (fs : racetrack.FileSystem).

Lemma place_lookup (rs : list ref) (r : ref) :
  r ∈ rs → rs !! place rs r = Some r.
Proof.
  intros Hr. unfold place.
  destruct (list_find (λ x, x = r) rs) as [[i x]|] eqn:Hf; simpl.
  - by apply list_find_Some in Hf as (Hl & -> & _).
  - apply list_find_None in Hf. rewrite Forall_forall in Hf.
    by destruct (Hf r Hr).
Qed.

(** The array that [pickle] wrote for [r] and gave back as a new object
    holds what [r] held. *)
Lemma saved_array σ (rs : list ref) (r : ref) :
  r ∈ rs → deref (σ ++ (deref σ <$> rs)) (length σ + place rs r) = deref σ r.
Proof.
  intros Hr. unfold deref at 1.
  rewrite lookup_app_r by lia.
  replace (length σ + place rs r - length σ)%nat with (place rs r) by lia.
  by rewrite list_lookup_fmap, place_lookup.
Qed.

Lemma layer_ref_saved t l :
  layer_ref l t ∈ remove_dups [racetrack.walls t; racetrack.active t;
                               racetrack.buttons t; racetrack.colors t].
Proof.
  apply elem_of_remove_dups. destruct l; simpl; set_solver.
Qed.

(** The constructor returns on arguments that make a track [render] can
    draw at its canvas size. *)
Lemma init_is_ok σ d :
  let v :=
    {| walls := deref σ (f_walls d); active := deref σ (f_active d);
       buttons := deref σ (f_buttons d); colors := deref σ (f_colors d);
       shape := np.shape (deref σ (f_walls d));
       color_scheme := colors_basic;
       spawn := f_spawn d; target := f_target d;
       surface := {| get_width := 0; get_height := 0; log := [] |};
       screen_size := f_screen_size d |} in
  well_shaped v →
  is_ok (render v (f_screen_size d).1 (f_screen_size d).2) →
  ∃ t s, racetrack.__init__ σ d = Ok t
         ∧ render v (f_screen_size d).1 (f_screen_size d).2 = Ok s
         ∧ fields_of t = d
         ∧ view σ t = set_surface v s.
Proof.
  intros v (_ & Sw & Sa & Sb & _) [s Hs].
  unfold racetrack.__init__.
  rewrite bool_decide_eq_true_2; [|simpl in *; split; congruence].
  cbn [negb]. cbv zeta. unfold racetrack.render.
  match goal with
  | |- context [render (view σ ?x)] => change (view σ x) with v
  end.
  rewrite Hs. cbn [mbind result_bind].
  eexists _, s. split; [reflexivity|]. split; [done|].
  split; [by destruct d|reflexivity].
Qed.


End persistence.

(** C5 as stated fails: [click_track] with the colour 9, which has no
    palette entry, paints the cell and raises at the redraw; the track it
    leaves is saved, and the load of the saved record raises
    [KeyError]. *)
Lemma saved_track_fails_to_load :
  click_track 9 "wall" true 5 5 1 false sample_editor
  = (miscoloured_sample, Raise KeyError)
  ∧ cell_at (colors (shown miscoloured_sample)) (0, 0) = Some 9
  ∧ (load_track
       (save (arrays miscoloured_sample) (track miscoloured_sample)
             "track.pkl" ∅)
       "track.pkl" (arrays miscoloured_sample)).2 = Raise KeyError.
Proof. repeat split; vm_compute; reflexivity. Qed.

(** C5, amended.  For a track that [render] can draw at its canvas size
    (the four layers have the recorded shape, which has a row and a
    column, every colour index has a palette entry, the canvas size is
    not negative and at most 4096 each way, and the border width of an
    inactive wall is defined), loading what [save] wrote returns a track
    whose seven saved fields hold what those of the original hold, in new
    arrays that are shared among the layers exactly as the original's
    are; rendering it at any size gives what rendering the original gives;
    and the original reads as before. *)
Theorem load_save_roundtrip
    (σ : store) (t : RaceTrack) (filename : string) (fs : racetrack.FileSystem) :
  allocated σ t → derived_attrs (view σ t) →
  well_shaped (view σ t) → palette_ok (view σ t) →
  (racetrack.shape t).1 ≠ 0%nat → (racetrack.shape t).2 ≠ 0%nat →
  0 ≤ (racetrack.screen_size t).1 ≤ 4096 →
  0 ≤ (racetrack.screen_size t).2 ≤ 4096 →
  border_fits (racetrack.screen_size t).1 (racetrack.shape t).2 →
  ∃ σ' t',
    load_track (save σ t filename fs) filename σ = (σ', Ok t')
    ∧ walls (view σ' t') = walls (view σ t)
    ∧ active (view σ' t') = active (view σ t)
    ∧ buttons (view σ' t') = buttons (view σ t)
    ∧ colors (view σ' t') = colors (view σ t)
    ∧ target (view σ' t') = target (view σ t)
    ∧ spawn (view σ' t') = spawn (view σ t)
    ∧ screen_size (view σ' t') = screen_size (view σ t)
    ∧ (∀ width height,
         racetrack.render σ' t' width height = racetrack.render σ t width height)
    ∧ (∀ l l', layer_ref l t' = layer_ref l' t' ↔ layer_ref l t = layer_ref l' t)
    ∧ (∀ l, (length σ ≤ layer_ref l t')%nat)
    ∧ view σ' t = view σ t.
Proof.
  intros Hal [Hshape Hpal] Hws Hpok HR HC Hw Hh Hbf.
  set (rs := remove_dups [racetrack.walls t; racetrack.active t;
                          racetrack.buttons t; racetrack.colors t]).
  set (σ' := σ ++ (deref σ <$> rs)).
  set (d := {| f_walls := (length σ + place rs (racetrack.walls t))%nat;
               f_active := (length σ + place rs (racetrack.active t))%nat;
               f_buttons := (length σ + place rs (racetrack.buttons t))%nat;
               f_colors := (length σ + place rs (racetrack.colors t))%nat;
               f_target := racetrack.target t; f_spawn := racetrack.spawn t;
               f_screen_size := racetrack.screen_size t |}).
  assert (∀ l, deref σ' (length σ + place rs (layer_ref l t))
               = deref σ (layer_ref l t)) as Hsaved.
  { intros l. apply saved_array, layer_ref_saved. }
  pose proof (Hsaved Walls) as Sw. pose proof (Hsaved Active) as Sa.
  pose proof (Hsaved Buttons) as Sb. pose proof (Hsaved Colors) as Sc.
  cbn [layer_ref] in Sw, Sa, Sb, Sc.
  assert (unpickle (save σ t filename fs) filename σ = (σ', Ok d)) as Hun.
  { unfold unpickle, save. by rewrite lookup_insert_eq. }
  set (v0 := set_surface (view σ t)
               {| get_width := 0; get_height := 0; log := [] |}).
  assert ({| walls := deref σ' (f_walls d); active := deref σ' (f_active d);
             buttons := deref σ' (f_buttons d); colors := deref σ' (f_colors d);
             shape := np.shape (deref σ' (f_walls d));
             color_scheme := colors_basic;
             spawn := f_spawn d; target := f_target d;
             surface := {| get_width := 0; get_height := 0; log := [] |};
             screen_size := f_screen_size d |} = v0) as Hv0.
  { cbn [f_walls f_active f_buttons f_colors f_spawn f_target f_screen_size d].
    rewrite Sw, Sa, Sb, Sc. unfold v0, set_surface.
    cbn [walls active buttons colors shape color_scheme spawn target
         screen_size view] in *.
    by rewrite <- Hshape, <- Hpal. }
  assert (is_ok (render v0 (racetrack.screen_size t).1 (racetrack.screen_size t).2))
    as Hdraw.
  { apply render_is_ok; try done; lia. }
  destruct (init_is_ok σ' d) as (t0 & s & Hinit & Hrender & Hfields & Hview).
  { rewrite Hv0. exact Hws. }
  { rewrite Hv0. exact Hdraw. }
  rewrite Hv0 in Hrender, Hview. cbn [f_screen_size d] in Hrender.
  assert (racetrack.screen_size t0 = racetrack.screen_size t) as Hss
    by (by injection Hfields).
  assert (racetrack.render σ' t0 (racetrack.screen_size t0).1
            (racetrack.screen_size t0).2 = Ok s) as Hagain.
  { unfold racetrack.render. rewrite Hview, Hss, <- Hrender.
    by apply render_ext. }
  exists σ', (racetrack.set_surface t0 s). split.
  { unfold load_track.
    cbv [mbind stateM_bind get lift mret stateM_ret]. rewrite Hun.
    cbv beta iota. rewrite Hinit. cbv beta iota. rewrite Hagain. done. }
  rewrite view_set_surface, Hview.
  split; [done|]. split; [done|]. split; [done|]. split; [done|].
  split; [done|]. split; [done|]. split; [done|].
  split; [intros width height; unfold racetrack.render;
          rewrite view_set_surface, Hview; by apply render_ext|].
  assert (∀ l, layer_ref l (racetrack.set_surface t0 s)
               = (length σ + place rs (layer_ref l t))%nat) as Hrefs.
  { intros l. injection Hfields as F1 F2 F3 F4 _. by destruct l. }
  split; [|split].
  - intros l l'. rewrite !Hrefs. split; [|by intros ->].
    intros Heq.
    assert (place rs (layer_ref l t) = place rs (layer_ref l' t)) as Hpl by lia.
    pose proof (place_lookup rs _ (layer_ref_saved t l)) as H1.
    pose proof (place_lookup rs _ (layer_ref_saved t l')) as H2.
    rewrite Hpl in H1. congruence.
  - intros l. rewrite Hrefs. lia.
  - by apply view_app.
Qed.

Lemma load_save_roundtrip_witness :
  allocated sample.1 (build sample) ∧ derived_attrs (built sample)
  ∧ well_shaped (built sample) ∧ palette_ok (built sample)
  ∧ border_fits 40 2
  ∧ ∃ σ' t',
      load_track (save sample.1 (build sample) "track.pkl" ∅) "track.pkl"
                 sample.1 = (σ', Ok t')
      ∧ walls (view σ' t') = walls (built sample)
      ∧ ∀ width height,
          racetrack.render σ' t' width height
          = racetrack.render sample.1 (build sample) width height.
Proof.
  assert (derived_attrs (built sample)) as H1 by (split; vm_compute; reflexivity).
  split; [exact sample_allocated|]. split; [exact H1|].
  split; [exact sample_well_shaped|]. split; [exact sample_palette_ok|].
  split; [exact sample_border_fits|].
  destruct (load_save_roundtrip sample.1 (build sample) "track.pkl" ∅
              sample_allocated H1 sample_well_shaped sample_palette_ok)
    as (σ' & t' & Hload & Hw & _ & _ & _ & _ & _ & _ & Hr & _).
  - vm_compute. discriminate.
  - vm_compute. discriminate.
  - vm_compute. split; discriminate.
  - vm_compute. split; discriminate.
  - exact sample_border_fits.
  - exists σ', t'. exact (conj Hload (conj Hw Hr)).
Defined.




(** ** The blank track *)

Section blank.
Implicit Types (σ : store) (t : RaceTrack).

(** What [blank_track] does, when the grid size is not negative: four new
    arrays, in the order the code makes them, and the constructor on
    them. *)
Lemma blank_track_run (grid_size screen : Z * Z) (n : Z) σ :
  0 ≤ grid_size.1 → 0 ≤ grid_size.2 →
  let s := (Z.to_nat grid_size.1, Z.to_nat grid_size.2) in
  let σ' := σ ++ [full s 0; full s 0; full s 1; full s 0] in
  blank_track grid_size screen n σ =
  (σ', racetrack.__init__ σ'
         {| f_walls := length σ; f_active := (length σ + 2)%nat;
            f_buttons := (length σ + 1)%nat; f_colors := (length σ + 3)%nat;
            f_target := (grid_size.1 - 1, grid_size.2 - 1);
            f_spawn := (0, 0); f_screen_size := screen |}).
Proof.
  intros H1 H2 s σ'.
  cbv [blank_track mbind stateM_bind lift get alloc zeros ones new_full].
  rewrite (proj2 (Z.ltb_ge _ 0) H1), (proj2 (Z.ltb_ge _ 0) H2).
  cbv beta iota. cbn [orb].
  rewrite !length_app. cbn [length].
  rewrite <- !app_assoc. cbn [app].
  replace (length σ + 1 + 1)%nat with (length σ + 2)%nat by lia.
  replace (length σ + 2 + 1)%nat with (length σ + 3)%nat by lia.
  reflexivity.
Qed.

Lemma blank_track_negative (grid_size screen : Z * Z) (n : Z) σ :
  grid_size.1 < 0 ∨ grid_size.2 < 0 →
  blank_track grid_size screen n σ = (σ, Raise ValueError).
Proof.
  intros H.
  cbv [blank_track mbind stateM_bind lift get alloc zeros ones new_full].
  assert ((grid_size.1 <? 0) || (grid_size.2 <? 0) = true) as ->; [|done].
  apply orb_true_iff. destruct H; [left|right]; by apply Z.ltb_lt.
Qed.

Lemma deref_new σ (objs : list ndarray) (k : nat) :
  deref (σ ++ objs) (length σ + k) = deref objs k.
Proof.
  unfold deref. rewrite lookup_app_r by lia.
  by replace (length σ + k - length σ)%nat with k by lia.
Qed.

End blank.

(** C10.  [blank_track] never reads [n_colors]: any two values give the
    same result.  A returned track has all-zero walls, buttons and colors,
    an all-ones active layer, the target in the last cell and the spawn in
    the first, and its four layers are four new arrays; and the call does
    return a track for a grid of 1 to 1024 rows and columns and a canvas of
    0 to 4096 pixels each way. *)
Theorem blank_track_ignores_n_colors
    (grid_size screen : Z * Z) (n1 n2 : Z) (σ : store) :
  blank_track grid_size screen n1 σ = blank_track grid_size screen n2 σ
  ∧ (∀ σ' t, blank_track grid_size screen n1 σ = (σ', Ok t) →
             let s := (Z.to_nat grid_size.1, Z.to_nat grid_size.2) in
             walls (view σ' t) = full s 0 ∧ buttons (view σ' t) = full s 0
             ∧ colors (view σ' t) = full s 0 ∧ active (view σ' t) = full s 1
             ∧ target (view σ' t) = (grid_size.1 - 1, grid_size.2 - 1)
             ∧ spawn (view σ' t) = (0, 0)
             ∧ separate t ∧ allocated σ' t
             ∧ (∀ l, (length σ ≤ layer_ref l t)%nat))
  ∧ (0 < grid_size.1 ≤ 1024 → 0 < grid_size.2 ≤ 1024 →
     0 ≤ screen.1 ≤ 4096 → 0 ≤ screen.2 ≤ 4096 →
     is_ok (blank_track grid_size screen n1 σ).2).
Proof.
  split; [reflexivity|]. split.
  - intros σ' t Hrun.
    destruct (decide (grid_size.1 < 0 ∨ grid_size.2 < 0)) as [Hneg|Hpos].
    { by rewrite blank_track_negative in Hrun. }
    rewrite blank_track_run in Hrun by lia.
    injection Hrun as <- Hinit.
    apply init_fields in Hinit as (Hf & _).
    injection Hf as Fw Fa Fb Fc Ft Fs _.
    unfold view. cbn [walls buttons colors active target spawn].
    rewrite Fw, Fa, Fb, Fc, Ft, Fs.
    rewrite <- (Nat.add_0_r (length σ)) at 1. rewrite !deref_new.
    split; [done|]. split; [done|]. split; [done|]. split; [done|].
    split; [done|]. split; [done|].
    split; [|split].
    + unfold separate. rewrite Fw, Fa, Fb, Fc.
      repeat (apply NoDup_cons; split;
              [rewrite ?elem_of_cons, elem_of_nil; lia|]).
      apply NoDup_nil_2.
    + intros l. rewrite length_app. cbn [length].
      destruct l; simpl; lia.
    + intros l. destruct l; simpl; lia.
  - intros H1 H2 H3 H4. rewrite blank_track_run by lia. cbn [snd].
    set (s := (Z.to_nat grid_size.1, Z.to_nat grid_size.2)).
    match goal with |- is_ok (racetrack.__init__ ?σ' ?d) =>
      destruct (init_is_ok σ' d) as (t & sf & -> & _); [| |by eexists]
    end;
      cbn [f_walls f_active f_buttons f_colors f_spawn f_target f_screen_size];
      rewrite <- (Nat.add_0_r (length σ)) at 1;
      rewrite <- (Nat.add_0_r (length σ)) at 5;
      rewrite !deref_new;
      cbv [deref lookup list_lookup default from_option id].
    + unfold well_shaped. cbn [walls active buttons colors shape].
      rewrite !shape_full. repeat split; apply wf_full.
    + eapply (render_blank _ (Z.to_nat grid_size.1) (Z.to_nat grid_size.2));
        cbn [walls active buttons colors shape color_scheme];
        rewrite ?shape_full; try done; lia.
Qed.

Lemma blank_track_ignores_n_colors_witness :
  blank_track (3, 2) (20, 30) 7 [] = blank_track (3, 2) (20, 30) 0 []
  ∧ ∃ σ' t, blank_track (3, 2) (20, 30) 7 [] = (σ', Ok t)
            ∧ walls (view σ' t) = full (3, 2)%nat 0
            ∧ active (view σ' t) = full (3, 2)%nat 1
            ∧ target (view σ' t) = (2, 1) ∧ spawn (view σ' t) = (0, 0)
            ∧ separate t.
Proof.
  destruct (blank_track_ignores_n_colors (3, 2) (20, 30) 7 0 []) as (H1 & H2 & H3).
  split; [exact H1|].
  destruct H3 as [t Ht]; [simpl; lia..|].
  destruct (blank_track (3, 2) (20, 30) 7 []) as [σ' res] eqn:Hrun.
  simpl in Ht. subst res.
  exists σ', t. split; [reflexivity|].
  destruct (H2 σ' t eq_refl) as (Hw & _ & _ & Ha & Hta & Hsp & Hsep & _).
  exact (conj Hw (conj Ha (conj Hta (conj Hsp Hsep)))).
Defined.

(** ** The editor keeps walls and buttons apart *)




(** * Further properties of the code *)

(** ** What the queries return *)

Lemma mask_value_Some (v c : Z) : mask_value (Some v) c = 1 ↔ c = v.
Proof. simpl. destruct (Z.eqb_spec c v); split; done. Qed.

Lemma mask_value_flag (af : option bool) (a : Z) :
  mask_value (Z.b2z <$> af) a = 1 ↔ ∀ b, af = Some b → a = Z.b2z b.
Proof.
  destruct af as [b|]; simpl.
  - destruct (Z.eqb_spec a (Z.b2z b)); split; try done.
    + by intros _ ? [= <-].
    + intros H. by specialize (H b eq_refl).
  - split; done.
Qed.

Lemma mask_value_flag_Some (b : bool) (a : Z) :
  mask_value (Z.b2z <$> Some b) a = 1 → a = Z.b2z b.
Proof. intros H. by apply (proj1 (mask_value_flag (Some b) a) H). Qed.

Lemma mask_value_colour (cf : option Z) (c : Z) :
  mask_value cf c = 1 ↔ ∀ v, cf = Some v → c = v.
Proof.
  destruct cf as [v|].
  - rewrite mask_value_Some. split; [by intros -> ? [= <-]|].
    intros H. by apply H.
  - split; done.
Qed.

Lemma cell_at_in_grid (t : Track) (a : ndarray) (p : Point) (v : Z) :
  wf a → np.shape a = shape t → cell_at a p = Some v → in_grid t p.
Proof.
  intros Hwf Hsh (i & j & -> & Hc)%cell_at_Some.
  apply cell_Some_lt in Hc as [Hi Hj]; [|done].
  unfold in_grid. rewrite <- Hsh. simpl. lia.
Qed.


(** X1.  On a track whose four layers have the recorded shape,
    [find_wall_locations] never raises and returns exactly the grid points
    whose wall value is odd, whose colour equals the colour filter when one
    is given and whose active value equals the active filter when one is
    given; on a 0/1 walls layer "odd" is "not 0". *)
Theorem find_wall_locations_returns
    (t : Track) (cf : option Z) (af : option bool) :
  well_shaped t →
  ∃ S : gset Point,
    find_wall_locations t cf af = Ok S
    ∧ (∀ p, p ∈ S ↔
            ∃ w c a, cell_at (walls t) p = Some w
                     ∧ cell_at (colors t) p = Some c
                     ∧ cell_at (active t) p = Some a
                     ∧ Z.odd w = true
                     ∧ (∀ v, cf = Some v → c = v)
                     ∧ (∀ b, af = Some b → a = Z.b2z b))
    ∧ (∀ p, p ∈ S → in_grid t p)
    ∧ (boolean (walls t) →
       ∀ p, p ∈ S ↔
            ∃ w c a, cell_at (walls t) p = Some w
                     ∧ cell_at (colors t) p = Some c
                     ∧ cell_at (active t) p = Some a
                     ∧ w ≠ 0
                     ∧ (∀ v, cf = Some v → c = v)
                     ∧ (∀ b, af = Some b → a = Z.b2z b)).
Proof.
  intros Hs. destruct (find_wall_locations_spec t cf af Hs) as (S & HS & HSp).
  pose proof Hs as ((Ww & _) & Sw & _).
  assert (∀ p, p ∈ S ↔
               ∃ w c a, cell_at (walls t) p = Some w
                        ∧ cell_at (colors t) p = Some c
                        ∧ cell_at (active t) p = Some a
                        ∧ Z.odd w = true
                        ∧ (∀ v, cf = Some v → c = v)
                        ∧ (∀ b, af = Some b → a = Z.b2z b)) as HS1.
  { intros p. rewrite HSp. split; intros (w & c & a & Hw & Hc & Ha & Ho & Hcf & Haf);
      exists w, c, a; repeat (split; [done|]);
      [ split; [by apply mask_value_colour|by apply mask_value_flag]
      | split; [by apply mask_value_colour|by apply mask_value_flag] ]. }
  exists S. split; [done|]. split; [done|]. split.
  - intros p (w & _ & _ & Hw & _)%HS1. by eapply cell_at_in_grid.
  - intros Hbool p. rewrite HS1.
    split; intros (w & c & a & Hw & Hc & Ha & Ho & Hrest);
      exists w, c, a; repeat (split; [done|]); (split; [|done]).
    + intros ->. by rewrite Z.odd_0 in Ho.
    + pose proof Hw as (i & j & _ & Hcw)%cell_at_Some.
      destruct (Hbool i j w Hcw) as [-> | ->]; done.
Qed.

Lemma find_wall_locations_returns_witness :
  well_shaped (built sample)
  ∧ is_ok (find_wall_locations (built sample) (Some 1) (Some true)).
Proof.
  split; [exact sample_well_shaped|].
  destruct (find_wall_locations_returns (built sample) (Some 1) (Some true)
              sample_well_shaped) as (S & HS & _).
  exists S. exact HS.
Defined.

(** X2.  On a track whose four layers have the recorded shape,
    [find_buttons] never raises and returns exactly the grid points whose
    button value is odd and whose colour equals the filter when one is
    given. *)
Theorem find_buttons_returns (t : Track) (cf : option Z) :
  well_shaped t →
  ∃ B : gset Point,
    find_buttons t cf = Ok B
    ∧ (∀ p, p ∈ B ↔
            ∃ b c, cell_at (buttons t) p = Some b
                   ∧ cell_at (colors t) p = Some c
                   ∧ Z.odd b = true ∧ (∀ v, cf = Some v → c = v))
    ∧ (∀ p, p ∈ B → in_grid t p).
Proof.
  intros Hs. destruct (find_buttons_spec t cf Hs) as (B & HB & HBp).
  pose proof Hs as ((_ & _ & Wb & _) & _ & _ & Sb & _).
  assert (∀ p, p ∈ B ↔
               ∃ b c, cell_at (buttons t) p = Some b
                      ∧ cell_at (colors t) p = Some c
                      ∧ Z.odd b = true ∧ (∀ v, cf = Some v → c = v)) as HB1.
  { intros p. rewrite HBp. split; intros (b & c & Hb & Hc & Ho & Hcf);
      exists b, c; repeat (split; [done|]); by apply mask_value_colour. }
  exists B. split; [done|]. split; [done|].
  intros p (b & _ & Hb & _)%HB1. by eapply cell_at_in_grid.
Qed.

Lemma find_buttons_returns_witness :
  well_shaped (built sample) ∧ is_ok (find_buttons (built sample) (Some 1)).
Proof.
  split; [exact sample_well_shaped|].
  destruct (find_buttons_returns (built sample) (Some 1) sample_well_shaped)
    as (B & HB & _).
  exists B. exact HB.
Defined.



(** X4.  The active filter splits the walls: the walls found with
    [active=True] and with [active=False] are disjoint and both lie in the
    walls found without the filter, and on a layer of 0/1 flags they make
    up all of them. *)
Theorem active_filter_partitions (t : Track) (cf : option Z) :
  well_shaped t →
  ∃ Son Soff Sall : gset Point,
    find_wall_locations t cf (Some true) = Ok Son
    ∧ find_wall_locations t cf (Some false) = Ok Soff
    ∧ find_wall_locations t cf None = Ok Sall
    ∧ Son ## Soff ∧ Son ∪ Soff ⊆ Sall
    ∧ (boolean (active t) → Sall = Son ∪ Soff).
Proof.
  intros Hs.
  destruct (find_wall_locations_spec t cf (Some true) Hs) as (Son & HSon & Hon).
  destruct (find_wall_locations_spec t cf (Some false) Hs) as (Soff & HSoff & Hoff).
  destruct (find_wall_locations_spec t cf None Hs) as (Sall & HSall & Hall).
  exists Son, Soff, Sall. repeat (split; [done|]). split; [|split].
  - apply elem_of_disjoint. intros p.
    intros (w & c & a & _ & _ & Ha & _ & _ & Hm)%Hon
           (w' & c' & a' & _ & _ & Ha' & _ & _ & Hm')%Hoff.
    simplify_eq. apply mask_value_flag_Some in Hm, Hm'.
    simpl in *. congruence.
  - intros p [Hp | Hp]%elem_of_union.
    + apply Hon in Hp as (w & c & a & Hw & Hc & Ha & Ho & Hcf & _).
      apply Hall. exists w, c, a. done.
    + apply Hoff in Hp as (w & c & a & Hw & Hc & Ha & Ho & Hcf & _).
      apply Hall. exists w, c, a. done.
  - intros Hbool. apply set_eq. intros p. rewrite elem_of_union. split.
    + intros (w & c & a & Hw & Hc & Ha & Ho & Hcf & _)%Hall.
      pose proof Ha as (i & j & _ & Hca)%cell_at_Some.
      destruct (Hbool i j a Hca) as [-> | ->].
      * right. apply Hoff. exists w, c, 0. done.
      * left. apply Hon. exists w, c, 1. done.
    + intros [Hp | Hp].
      * apply Hon in Hp as (w & c & a & Hw & Hc & Ha & Ho & Hcf & _).
        apply Hall. exists w, c, a. done.
      * apply Hoff in Hp as (w & c & a & Hw & Hc & Ha & Ho & Hcf & _).
        apply Hall. exists w, c, a. done.
Qed.

Lemma active_filter_partitions_witness :
  well_shaped (built sample) ∧ boolean (active (built sample))
  ∧ ∃ Son Soff Sall : gset Point,
      find_wall_locations (built sample) None (Some true) = Ok Son
      ∧ find_wall_locations (built sample) None (Some false) = Ok Soff
      ∧ find_wall_locations (built sample) None None = Ok Sall
      ∧ Sall = Son ∪ Soff.
Proof.
  split; [exact sample_well_shaped|]. split; [exact sample_boolean|].
  destruct (active_filter_partitions (built sample) None sample_well_shaped)
    as (Son & Soff & Sall & H1 & H2 & H3 & _ & _ & H6).
  exists Son, Soff, Sall.
  exact (conj H1 (conj H2 (conj H3 (H6 sample_boolean)))).
Defined.

(** X5.  Walls and traversability: a wall found with [active=True] is
    never traversable, a wall found with [active=False] always is, and on a
    0/1 walls layer a grid point is traversable exactly when it is not an
    active wall. *)
Theorem active_walls_block (t : Track) :
  well_shaped t →
  ∃ Son Soff T : gset Point,
    find_wall_locations t None (Some true) = Ok Son
    ∧ find_wall_locations t None (Some false) = Ok Soff
    ∧ find_traversable_cells t = Ok T
    ∧ Son ## T ∧ Soff ⊆ T
    ∧ (∀ p, p ∈ T → in_grid t p)
    ∧ (boolean (walls t) → ∀ p, in_grid t p → (p ∈ T ↔ p ∉ Son)).
Proof.
  intros Hs. pose proof (well_shaped_layers_agree _ Hs) as Hagree.
  destruct (find_wall_locations_spec t None (Some true) Hs) as (Son & HSon & Hon).
  destruct (find_wall_locations_spec t None (Some false) Hs) as (Soff & HSoff & Hoff).
  destruct (find_traversable_cells_spec t Hagree) as (T & HT & HTp).
  pose proof Hs as ((Ww & Wa & Wb & Wc) & Sw & Sa & Sb & Sc).
  exists Son, Soff, T. repeat (split; [done|]). split; [|split; [|split]].
  - apply elem_of_disjoint. intros p.
    intros (w & c & a & Hw & _ & Ha & Ho & _ & Hm)%Hon (w' & a' & Hw' & Ha' & Hor)%HTp.
    simplify_eq. apply mask_value_flag_Some in Hm. simpl in Hm. subst a.
    destruct Hor as [-> | ?]; [|done]. by rewrite Z.odd_0 in Ho.
  - intros p (w & c & a & Hw & _ & Ha & _ & _ & Hm)%Hoff.
    apply mask_value_flag_Some in Hm. simpl in Hm. subst a.
    apply HTp. exists w, 0. split; [done|]. split; [done|]. by right.
  - intros p (w & a & Hw & _)%HTp. exact (cell_at_in_grid t (walls t) p w Ww Sw Hw).
  - intros Hbool p Hp.
    destruct (in_grid_cell_at t (walls t) p Ww Sw Hp) as [w Hw].
    destruct (in_grid_cell_at t (active t) p Wa Sa Hp) as [a Ha].
    destruct (in_grid_cell_at t (colors t) p Wc Sc Hp) as [c Hc].
    pose proof Hw as (i & j & _ & Hcw)%cell_at_Some.
    rewrite HTp, Hon. split.
    + intros (w' & a' & Hw' & Ha' & Hor) (w'' & c'' & a'' & Hw'' & _ & Ha'' & Ho & _ & Hm).
      simplify_eq. apply mask_value_flag_Some in Hm. simpl in Hm. subst a.
      destruct Hor as [-> | ?]; [|done]. by rewrite Z.odd_0 in Ho.
    + intros Hn. exists w, a. split; [done|]. split; [done|].
      destruct (decide (w = 0)) as [?|Hw0]; [by left|]. right. intros ->.
      apply Hn. exists w, c, 1. repeat (split; [done|]).
      split; [|done]. destruct (Hbool i j w Hcw) as [-> | ->]; done.
Qed.

Lemma active_walls_block_witness :
  well_shaped (built sample)
  ∧ ∃ Son T : gset Point,
      find_wall_locations (built sample) None (Some true) = Ok Son
      ∧ find_traversable_cells (built sample) = Ok T ∧ Son ## T.
Proof.
  split; [exact sample_well_shaped|].
  destruct (active_walls_block (built sample) sample_well_shaped)
    as (Son & Soff & T & H1 & _ & H3 & H4 & _).
  exists Son, T. exact (conj H1 (conj H3 H4)).
Defined.

(** ** toggle on a well-shaped track *)

(** ** What toggle does to the queries *)

(** On a well-shaped track the search and the read of [toggle] succeed,
    and so does the write. *)
Lemma toggle_reads_ok (c : Z) (t : Track) :
  well_shaped t →
  ∃ (m : ndarray) (vals : list Z) (a' : ndarray),
    find_wall_locations_np t (Some c) None = Ok (where_ m)
    ∧ getitems (active t) (where_ m) = Ok vals
    ∧ setitems (active t) (where_ m) ((λ v, 1 - v) <$> vals) = Ok a'
    ∧ find_wall_locations t (Some c) None = Ok (list_to_set (nonzero m))
    ∧ layout a' = layout (active t)
    ∧ (∀ p, cell_at a' p =
            if decide (p ∈ (list_to_set (nonzero m) : gset Point))
            then (λ v, 1 - v) <$> cell_at (active t) p
            else cell_at (active t) p).
Proof.
  intros Hs. pose proof Hs as ((Ww & Wa & Wb & Wc) & Sw & Sa & Sb & Sc).
  destruct (find_wall_locations_np_spec t (Some c) None Hs) as (m & Hfind & Hm).
  assert (getitems (active t) (where_ m)
          = Ok ((λ p : Z * Z, default 0 (cell_at (active t) p)) <$> nonzero m))
    as Hget.
  { unfold getitems. rewrite decide_True by apply where_lengths.
    rewrite zip_where. apply traverse_ok.
    intros p (i & j & v & -> & Hv & _)%elem_of_nonzero. simpl.
    rewrite Hm in Hv.
    destruct (cell (walls t) i j) as [w|]; simplify_eq/=.
    destruct (cell (colors t) i j) as [col|]; simplify_eq/=.
    destruct (cell (active t) i j) as [a|] eqn:Ha; simplify_eq/=.
    rewrite cell_at_of_nat, Ha. simpl. apply getitem_of_nat_ok.
    apply cell_Some_lt in Ha as Hlt; [|done]. by destruct Hlt. }
  destruct (rewrite_through_where (λ v, 1 - v) _ _ _ Hget)
    as (a' & Hset & Hl & Hc & _).
  exists m. eexists. exists a'.
  split; [done|]. split; [exact Hget|]. split; [done|].
  split; [by apply find_wall_locations_of_np|]. split; [done|].
  intros p. rewrite (cell_at_rewritten _ _ _ _ Hc p).
  destruct (decide (p ∈ nonzero m)) as [Hin|Hin].
  - by rewrite decide_True by by apply elem_of_list_to_set.
  - by rewrite decide_False by by rewrite elem_of_list_to_set.
Qed.

(** On a well-shaped track with four arrays the active layer is always
    rewritten, and the call returns what the redraw returns. *)
Lemma toggle_on_well_shaped (c : Z) (σ : store) (t : RaceTrack) :
  allocated σ t → separate t → well_shaped (view σ t) →
  ∃ (S : gset Point) (a' : ndarray),
    find_wall_locations (view σ t) (Some c) None = Ok S
    ∧ layout a' = layout (active (view σ t))
    ∧ (∀ p, cell_at a' p =
            if decide (p ∈ S)
            then (λ v, 1 - v) <$> cell_at (active (view σ t)) p
            else cell_at (active (view σ t)) p)
    ∧ match render (set_active (view σ t) a')
                   (get_width (surface (view σ t)))
                   (get_height (surface (view σ t))) with
      | Ok s => toggled c σ t = set_surface (set_active (view σ t) a') s
                ∧ (racetrack.toggle c (σ, t)).2 = Ok tt
      | Raise e => toggled c σ t = set_active (view σ t) a'
                   ∧ (racetrack.toggle c (σ, t)).2 = Raise e
      end.
Proof.
  intros Hal Hsep Hs.
  destruct (toggle_reads_ok c (view σ t) Hs)
    as (m & vals & a' & Hfind & Hget & Hset & HS & Hl & Hc).
  exists (list_to_set (nonzero m)), a'.
  split; [done|]. split; [done|]. split; [done|].
  unfold toggled.
  rewrite (toggle_written c σ t _ _ _ Hfind Hget Hset). cbv zeta.
  pose proof (view_write σ t Active a' Hal Hsep) as Hview.
  cbn [layer_ref layer_set] in Hview. rewrite Hview.
  change (racetrack.surface t) with (surface (view σ t)).
  destruct (render (set_active (view σ t) a') _ _) as [s|e];
    cbn [fst snd]; rewrite ?view_set_surface, Hview; done.
Qed.

Lemma layout_written_layer (t : Track) (a' : ndarray) :
  layout a' = layout (active t) → well_shaped t → well_shaped (set_active t a').
Proof.
  intros Hl ((Ww & Wa & Wb & Wc) & Sw & Sa & Sb & Sc).
  unfold well_shaped. simpl. rewrite (layout_shape _ _ Hl).
  pose proof (layout_wf _ _ Hl Wa). done.
Qed.

Lemma toggle_state_on_well_shaped (c : Z) (σ : store) (t : RaceTrack) :
  allocated σ t → separate t → well_shaped (view σ t) →
  ∃ S : gset Point,
    find_wall_locations (view σ t) (Some c) None = Ok S
    ∧ well_shaped (toggled c σ t)
    ∧ walls (toggled c σ t) = walls (view σ t)
    ∧ buttons (toggled c σ t) = buttons (view σ t)
    ∧ colors (toggled c σ t) = colors (view σ t)
    ∧ (∀ p, cell_at (active (toggled c σ t)) p =
            if decide (p ∈ S)
            then (λ v, 1 - v) <$> cell_at (active (view σ t)) p
            else cell_at (active (view σ t)) p).
Proof.
  intros Hal Hsep Hs.
  destruct (toggle_on_well_shaped c σ t Hal Hsep Hs)
    as (S & a' & HS & Hl & Hc & Hrun).
  exists S. split; [done|].
  pose proof (layout_written_layer _ a' Hl Hs) as Hs'.
  destruct (render (set_active (view σ t) a') _ _) as [s|e];
    destruct Hrun as [-> _]; done.
Qed.

(** The flags after [toggle(c)] on a track with a 0/1 active layer. *)
Lemma toggled_flags (c : Z) (σ : store) (t : RaceTrack) (S : gset Point) :
  boolean (active (view σ t)) →
  (∀ p, cell_at (active (toggled c σ t)) p =
        if decide (p ∈ S)
        then (λ v, 1 - v) <$> cell_at (active (view σ t)) p
        else cell_at (active (view σ t)) p) →
  ∀ p (b : bool),
    cell_at (active (view σ t)) p = Some (Z.b2z b) →
    cell_at (active (toggled c σ t)) p
    = Some (Z.b2z (if decide (p ∈ S) then negb b else b)).
Proof.
  intros _ Hact p b Hb. rewrite Hact, Hb.
  case_decide; [|done]. by destruct b.
Qed.

(** X6.  [toggle] on a well-shaped track with four arrays and a 0/1
    active layer raises exactly when the redraw of the flipped track
    raises, and with the same exception; whether it raises or not, the
    active flags have been inverted on the walls of the colour (they are
    not restored when the redraw fails), and a returned surface has the
    size of the one before. *)
Theorem toggle_returns_what_redraw_returns (c : Z) (σ : store) (t : RaceTrack) :
  allocated σ t → separate t →
  well_shaped (view σ t) → boolean (active (view σ t)) →
  ∃ S : gset Point,
    racetrack.find_wall_locations σ t (Some c) None = Ok S
    ∧ (∀ p (b : bool),
         cell_at (active (view σ t)) p = Some (Z.b2z b) →
         cell_at (active (toggled c σ t)) p
         = Some (Z.b2z (if decide (p ∈ S) then negb b else b)))
    ∧ (racetrack.toggle c (σ, t)).2 =
      (render (toggled c σ t) (get_width (racetrack.surface t))
              (get_height (racetrack.surface t))
       ≫= λ _, Ok tt)
    ∧ ((racetrack.toggle c (σ, t)).2 = Ok tt →
       get_width (surface (toggled c σ t)) = get_width (racetrack.surface t)
       ∧ get_height (surface (toggled c σ t)) = get_height (racetrack.surface t)).
Proof.
  intros Hal Hsep Hs Hbool.
  destruct (toggle_state_on_well_shaped c σ t Hal Hsep Hs)
    as (S & HS & _ & _ & _ & _ & Hact).
  destruct (toggle_on_well_shaped c σ t Hal Hsep Hs)
    as (S' & a' & HS' & Hl & Hc & Hrun).
  exists S. split; [done|].
  split; [by apply toggled_flags|].
  change (racetrack.surface t) with (surface (view σ t)).
  destruct (render (set_active (view σ t) a') _ _) as [s|e] eqn:Hr;
    destruct Hrun as [Ht ->]; rewrite Ht.
  - split.
    + rewrite (render_ext (set_active (view σ t) a')
                 (set_surface (set_active (view σ t) a') s));
        [by rewrite Hr|done..].
    + intros _. by apply render_size in Hr.
  - split; [by rewrite Hr|done].
Qed.

Lemma toggle_returns_what_redraw_returns_witness :
  allocated sample.1 (build sample) ∧ separate (build sample)
  ∧ well_shaped (built sample) ∧ boolean (active (built sample))
  ∧ (racetrack.toggle 1 (sample.1, build sample)).2 =
    (render (toggled 1 sample.1 (build sample))
            (get_width (racetrack.surface (build sample)))
            (get_height (racetrack.surface (build sample))) ≫= λ _, Ok tt).
Proof.
  split; [exact sample_allocated|]. split; [exact sample_separate|].
  split; [exact sample_well_shaped|]. split; [exact sample_boolean|].
  destruct (toggle_returns_what_redraw_returns 1 sample.1 (build sample)
              sample_allocated sample_separate sample_well_shaped
              sample_boolean)
    as (S & _ & _ & H & _).
  exact H.
Defined.







(** X10.  On a track with four arrays, [toggle] of a colour that no wall
    has changes no layer of the track, nor the spawn or the target. *)
Theorem toggle_absent_colour (c : Z) (σ : store) (t : RaceTrack) :
  allocated σ t → separate t →
  racetrack.find_wall_locations σ t (Some c) None = Ok ∅ →
  active (toggled c σ t) = active (view σ t)
  ∧ walls (toggled c σ t) = walls (view σ t)
  ∧ buttons (toggled c σ t) = buttons (view σ t)
  ∧ colors (toggled c σ t) = colors (view σ t)
  ∧ spawn (toggled c σ t) = spawn (view σ t)
  ∧ target (toggled c σ t) = target (view σ t).
Proof.
  intros Hal Hsep Hempty. unfold racetrack.find_wall_locations in Hempty.
  destruct (toggle_state c σ t Hal Hsep)
    as [(Hw & Hb & Hc & _ & _ & Hsp & Hta & _) Hact].
  fold (toggled c σ t) in Hw, Hb, Hc, Hsp, Hta, Hact.
  split; [|done].
  destruct Hact as [(Ha & _) | (m & vals & Hfind & _ & Hl & Hcell & _)]; [done|].
  rewrite (find_wall_locations_of_np _ _ _ _ Hfind) in Hempty.
  injection Hempty as Hempty.
  apply layout_cell_ext; [done|]. intros i j. rewrite Hcell.
  rewrite decide_False; [done|]. intros Hin.
  apply (elem_of_list_to_set (C := gset Point)) in Hin.
  rewrite Hempty in Hin. by apply not_elem_of_empty in Hin.
Qed.

Lemma toggle_absent_colour_witness :
  allocated sample.1 (build sample) ∧ separate (build sample)
  ∧ racetrack.find_wall_locations sample.1 (build sample) (Some 5) None = Ok ∅
  ∧ active (toggled 5 sample.1 (build sample)) = active (built sample).
Proof.
  assert (racetrack.find_wall_locations sample.1 (build sample) (Some 5) None
          = Ok ∅) as H by (vm_compute; reflexivity).
  split; [exact sample_allocated|]. split; [exact sample_separate|].
  split; [exact H|].
  exact (proj1 (toggle_absent_colour 5 sample.1 (build sample)
                  sample_allocated sample_separate H)).
Defined.

(** ** Rendering and construction *)

Lemma in_grid_cells_of (t : Track) (p : Point) :
  in_grid t p → p ∈ cells_of (shape t).
Proof.
  intros [[Hr1 Hr2] [Hc1 Hc2]]. destruct p as [r c]. simpl in *.
  unfold cells_of. apply list_elem_of_bind. exists r. split.
  - apply list_elem_of_fmap. exists c. split; [done|].
    apply elem_of_range. exists (Z.to_nat c). lia.
  - apply elem_of_range. exists (Z.to_nat r). lia.
Qed.

Lemma render_ok_reads (t : Track) (width height : Z) (s : Surface) :
  render t width height = Ok s →
  ((shape t).1 ≠ 0%nat ∧ (shape t).2 ≠ 0%nat)
  ∧ (get_width s = width ∧ get_height s = height)
  ∧ ∀ p, in_grid t p →
         ∃ a w c b col,
           getitem (active t) p.1 p.2 = Ok a ∧ getitem (walls t) p.1 p.2 = Ok w
           ∧ getitem (colors t) p.1 p.2 = Ok c ∧ getitem (buttons t) p.1 p.2 = Ok b
           ∧ color_scheme t !! c = Some col.
Proof.
  intros Hr. split; [|split; [by apply render_size in Hr|]].
  - unfold render in Hr.
    apply result_bind_ok in Hr as (s0 & _ & Hr).
    apply result_bind_ok in Hr as (w & Hw & Hr).
    apply result_bind_ok in Hr as (h & Hh & _).
    unfold f64.int_truediv in Hw, Hh.
    destruct (Z.eqb_spec (Z.of_nat (shape t).2) 0); [done|].
    destruct (Z.eqb_spec (Z.of_nat (shape t).1) 0); [done|]. lia.
  - intros p Hp. unfold render in Hr.
    apply result_bind_ok in Hr as (s0 & _ & Hr).
    apply result_bind_ok in Hr as (w & _ & Hr).
    apply result_bind_ok in Hr as (h & _ & Hr).
    apply result_bind_ok in Hr as (ops & Hops & _).
    apply traverse_ok_inv in Hops.
    apply in_grid_cells_of, list_elem_of_lookup in Hp as [k Hk].
    destruct (Forall2_lookup_l _ _ _ _ _ Hops Hk) as (y & _ & Hy).
    unfold render_cell in Hy. destruct p as [row col0].
    apply result_bind_ok in Hy as (a & Ha & Hy).
    apply result_bind_ok in Hy as (wv & Hwv & Hy).
    apply result_bind_ok in Hy as (c & Hc & Hy).
    apply result_bind_ok in Hy as (b & Hb & Hy).
    apply result_bind_ok in Hy as (col & Hcol & _).
    exists a, wv, c, b, col. repeat (split; [done|]).
    unfold dict_get in Hcol. destruct (color_scheme t !! c); by simplify_eq.
Qed.

(** X11.  A render that returns has read, at every point of the grid, a
    cell of each of the four layers and a palette entry for the cell's
    colour, whether or not the cell holds a wall or a button; and the grid
    it drew has at least one row and one column. *)
Theorem render_reads_every_cell
    (σ : store) (t : RaceTrack) (width height : Z) (s : Surface) :
  racetrack.render σ t width height = Ok s →
  ((racetrack.shape t).1 ≠ 0%nat ∧ (racetrack.shape t).2 ≠ 0%nat)
  ∧ (get_width s = width ∧ get_height s = height)
  ∧ ∀ p, in_grid (view σ t) p →
         ∃ a w c b col,
           getitem (active (view σ t)) p.1 p.2 = Ok a
           ∧ getitem (walls (view σ t)) p.1 p.2 = Ok w
           ∧ getitem (colors (view σ t)) p.1 p.2 = Ok c
           ∧ getitem (buttons (view σ t)) p.1 p.2 = Ok b
           ∧ racetrack.color_scheme t !! c = Some col.
Proof. exact (render_ok_reads (view σ t) width height s). Qed.

Lemma render_reads_every_cell_witness :
  racetrack.render sample.1 (build sample) 40 40
  = Ok (racetrack.surface (build sample))
  ∧ get_width (racetrack.surface (build sample)) = 40.
Proof.
  assert (racetrack.render sample.1 (build sample) 40 40
          = Ok (racetrack.surface (build sample))) as H
    by (vm_compute; reflexivity).
  split; [exact H|].
  exact (proj1 (proj1 (proj2 (render_reads_every_cell _ _ _ _ _ H)))).
Defined.




(** X13.  [render] returns on every track it can draw: when the four
    layers have the recorded shape, every stored colour index has a palette
    entry, the grid has a row and a column, the size is between 0 and 4096
    each way and the border width of an inactive wall converts to an int,
    the call raises nothing and returns a surface of the size asked
    for. *)
Theorem render_returns (σ : store) (t : RaceTrack) (width height : Z) :
  well_shaped (view σ t) → palette_ok (view σ t) →
  (racetrack.shape t).1 ≠ 0%nat → (racetrack.shape t).2 ≠ 0%nat →
  0 ≤ width ≤ 4096 → 0 ≤ height ≤ 4096 →
  border_fits width (racetrack.shape t).2 →
  ∃ s, racetrack.render σ t width height = Ok s
       ∧ get_width s = width ∧ get_height s = height.
Proof.
  intros Hs Hpal HR HC Hwd Hht Hbf.
  destruct (render_is_ok (view σ t) width height) as [s Hr]; try done; try lia.
  exists s. split; [done|]. by apply render_size in Hr.
Qed.

Lemma render_returns_witness :
  well_shaped (built sample) ∧ palette_ok (built sample)
  ∧ border_fits 40 2
  ∧ ∃ s, racetrack.render sample.1 (build sample) 40 40 = Ok s
         ∧ get_width s = 40 ∧ get_height s = 40.
Proof.
  split; [exact sample_well_shaped|]. split; [exact sample_palette_ok|].
  split; [exact sample_border_fits|].
  apply (render_returns sample.1 (build sample) 40 40
           sample_well_shaped sample_palette_ok).
  - vm_compute. discriminate.
  - vm_compute. discriminate.
  - lia.
  - lia.
  - exact sample_border_fits.
Defined.

(** X14.  What [__init__] guarantees about a track it returns: the seven
    arguments are stored as given, the arrays by reference; [shape] is the
    shape of the walls layer, which the active and buttons layers share,
    the palette is [colors_basic], the grid has at least one row and one
    column, every grid point has a colour with a palette entry (so the
    colour layer covers the grid), and the surface is the render at the
    canvas size given and has that size. *)
Theorem init_establishes (σ : store) (d : fields) (t : RaceTrack) :
  racetrack.__init__ σ d = Ok t →
  fields_of t = d ∧ derived_attrs (view σ t)
  ∧ np.shape (active (view σ t)) = racetrack.shape t
  ∧ np.shape (buttons (view σ t)) = racetrack.shape t
  ∧ ((racetrack.shape t).1 ≠ 0%nat ∧ (racetrack.shape t).2 ≠ 0%nat)
  ∧ (∀ p, in_grid (view σ t) p →
          ∃ c col, getitem (colors (view σ t)) p.1 p.2 = Ok c
                   ∧ colors_basic !! c = Some col)
  ∧ racetrack.render σ t (racetrack.screen_size t).1 (racetrack.screen_size t).2
    = Ok (racetrack.surface t)
  ∧ get_width (racetrack.surface t) = (racetrack.screen_size t).1
  ∧ get_height (racetrack.surface t) = (racetrack.screen_size t).2.
Proof.
  intros (Hf & Hs & Hp & H1 & H2 & Hr)%init_fields.
  subst d. cbn [fields_of f_walls f_active f_buttons f_screen_size] in *.
  destruct (render_ok_reads _ _ _ _ Hr) as (Hne & [Hsw Hsh] & Hcells).
  split; [done|]. split; [done|].
  split; [simpl; congruence|]. split; [simpl; congruence|].
  split; [done|]. split; [|done].
  intros p Hp'.
  destruct (Hcells p Hp') as (a & w & c & b & col & _ & _ & Hc & _ & Hcol).
  exists c, col. split; [done|]. rewrite <- Hp. exact Hcol.
Qed.

Lemma init_establishes_witness :
  racetrack.__init__ sample.1 sample.2 = Ok (build sample)
  ∧ derived_attrs (built sample).
Proof.
  assert (racetrack.__init__ sample.1 sample.2 = Ok (build sample)) as H
    by (vm_compute; reflexivity).
  split; [exact H|].
  exact (proj1 (proj2 (init_establishes _ _ _ H))).
Defined.

(** ** The blank track *)

Lemma deref_new0 (σ : store) (objs : list ndarray) :
  deref (σ ++ objs) (length σ) = deref objs 0.
Proof. rewrite <- (Nat.add_0_r (length σ)) at 1. apply deref_new. Qed.




(** X16.  A track that [blank_track] returns has four new arrays of its
    own, is well shaped with a row and a column, carries the attributes
    the constructor derives, has a 0/1 active layer and a palette entry
    for every colour; it has no walls and no buttons, and every point of
    its grid, and no other point, is traversable. *)
Theorem blank_track_is_open
    (grid_size screen : Z * Z) (n : Z) (σ σ' : store) (t : RaceTrack) :
  blank_track grid_size screen n σ = (σ', Ok t) →
  (allocated σ' t ∧ separate t ∧ derived_attrs (view σ' t))
  ∧ well_shaped (view σ' t)
  ∧ ((racetrack.shape t).1 ≠ 0%nat ∧ (racetrack.shape t).2 ≠ 0%nat)
  ∧ boolean (active (view σ' t)) ∧ exclusive (view σ' t)
  ∧ palette_ok (view σ' t)
  ∧ racetrack.find_wall_locations σ' t None None = Ok ∅
  ∧ racetrack.find_buttons σ' t None = Ok ∅
  ∧ ∃ T : gset Point,
      racetrack.find_traversable_cells σ' t = Ok T
      ∧ ∀ p, p ∈ T ↔ in_grid (view σ' t) p.
Proof.
  intros Hrun.
  destruct (decide (grid_size.1 < 0 ∨ grid_size.2 < 0)) as [Hneg|Hpos].
  { by rewrite blank_track_negative in Hrun. }
  rewrite blank_track_run in Hrun by lia.
  injection Hrun as <- Hinit.
  destruct (init_establishes _ _ _ Hinit) as (_ & Hder & _ & _ & Hne & _).
  apply init_fields in Hinit as (Hf & Hs & Hp & _ & _ & _).
  injection Hf as Fw Fa Fb Fc _ _ _.
  set (R := Z.to_nat grid_size.1) in *. set (C := Z.to_nat grid_size.2) in *.
  set (σ' := σ ++ [full (R, C) 0; full (R, C) 0; full (R, C) 1; full (R, C) 0])
    in *.
  assert (walls (view σ' t) = full (R, C) 0 ∧ active (view σ' t) = full (R, C) 1
          ∧ buttons (view σ' t) = full (R, C) 0
          ∧ colors (view σ' t) = full (R, C) 0) as (Hw & Ha & Hb & Hc).
  { unfold view. cbn [walls active buttons colors]. rewrite Fw, Fa, Fb, Fc.
    unfold σ'. rewrite <- (Nat.add_0_r (length σ)) at 1.
    by rewrite !deref_new. }
  assert (shape (view σ' t) = (R, C)) as Hs'.
  { cbn [f_walls] in Hs. fold σ' in Hs. rewrite <- Fw in Hs.
    change (deref σ' (racetrack.walls t)) with (walls (view σ' t)) in Hs.
    by rewrite Hw, shape_full in Hs. }
  assert (color_scheme (view σ' t) = colors_basic) as Hp' by exact Hp.
  assert (allocated σ' t ∧ separate t) as [Hal Hsep].
  { split.
    - intros l. unfold σ'. rewrite length_app. cbn [length].
      destruct l; simpl; lia.
    - unfold separate. rewrite Fw, Fa, Fb, Fc.
      repeat (apply NoDup_cons; split;
              [rewrite ?elem_of_cons, elem_of_nil; lia|]).
      apply NoDup_nil_2. }
  split; [done|].
  unfold racetrack.find_wall_locations, racetrack.find_buttons,
    racetrack.find_traversable_cells.
  change (racetrack.shape t) with (shape (view σ' t)) in Hne |- *.
  revert Hw Ha Hb Hc Hs' Hp' Hne. generalize (view σ' t).
  clear. intros t Hw Ha Hb Hc Hs Hp Hne.
  assert (well_shaped t) as Hws.
  { unfold well_shaped. rewrite Hw, Ha, Hb, Hc, Hs, !shape_full.
    repeat split; apply wf_full. }
  assert (∀ i j v, cell (walls t) i j = Some v → v = 0) as Hw0.
  { intros i j v. rewrite Hw, cell_full. case_decide; by intros [= <-]. }
  assert (∀ i j v, cell (buttons t) i j = Some v → v = 0) as Hb0.
  { intros i j v. rewrite Hb, cell_full. case_decide; by intros [= <-]. }
  split; [done|]. split; [done|].
  split; [|split; [|split; [|split; [|split]]]].
  - intros i j v. rewrite Ha, cell_full. case_decide; intros [= <-]; auto.
  - intros i j w b Hcw _. left. by eapply Hw0.
  - intros i j c. rewrite Hc, Hp, cell_full. case_decide; intros [= <-]. by eexists.
  - destruct (find_wall_locations_spec t None None Hws) as (S & -> & HSp).
    f_equal. apply elem_of_equiv_empty_L.
    intros p (w & _ & _ & (i & j & _ & Hcw)%cell_at_Some & _ & _ & Ho & _)%HSp.
    rewrite (Hw0 _ _ _ Hcw) in Ho. done.
  - destruct (find_buttons_unfiltered_spec t (well_shaped_layers_agree _ Hws))
      as (B & -> & HBp).
    f_equal. apply elem_of_equiv_empty_L.
    intros p (b & (i & j & _ & Hcb)%cell_at_Some & Ho)%HBp.
    rewrite (Hb0 _ _ _ Hcb) in Ho. done.
  - destruct (find_traversable_cells_spec t (well_shaped_layers_agree _ Hws))
      as (T & HT & HTp).
    exists T. split; [done|]. intros p. rewrite HTp.
    destruct Hws as ((Ww & Wa & _) & Sw & Sa & _). split.
    + intros (w & a & Hcw & _). by eapply (cell_at_in_grid t (walls t)).
    + intros Hin.
      destruct (in_grid_cell_at t (walls t) p Ww Sw Hin) as [w Hcw].
      destruct (in_grid_cell_at t (active t) p Wa Sa Hin) as [a Hca].
      exists w, a. split; [done|]. split; [done|]. left.
      apply cell_at_Some in Hcw as (i & j & _ & Hcw). by eapply Hw0.
Qed.

Lemma blank_track_is_open_witness :
  ∃ σ' t, blank_track (3, 2) (20, 30) 7 [] = (σ', Ok t)
          ∧ well_shaped (view σ' t)
          ∧ racetrack.find_wall_locations σ' t None None = Ok ∅.
Proof.
  destruct (blank_track (3, 2) (20, 30) 7 []) as [σ' [t|e]] eqn:Hrun;
    [|vm_compute in Hrun; discriminate].
  exists σ', t. split; [reflexivity|].
  destruct (blank_track_is_open _ _ _ _ _ _ Hrun)
    as (_ & Hws & _ & _ & _ & _ & Hfind & _).
  exact (conj Hws Hfind).
Defined.

(** ** What a click edits *)











Lemma gesture_cell_values color kind shift (e e' : editor) (l : layer)
    (i j : nat) (v : Z) :
  gesture color kind shift e e' →
  cell (layer_get l (shown e')) i j = Some v →
  cell (layer_get l (shown e)) i j = Some v
  ∨ edit_value color kind shift l = Some v.
Proof.
  intros (_ & _ & _ & _ & Hcells & _) Hv.
  specialize (Hcells l (Z.of_nat i, Z.of_nat j)).
  rewrite !cell_at_of_nat, Hv in Hcells.
  destruct (edit_value color kind shift l) as [x|]; [|by left].
  destruct (decide _); [|by left].
  destruct (cell (layer_get l (shown e)) i j); simpl in Hcells; [|done].
  right. congruence.
Qed.


Lemma edit_value_colour color kind shift (v : Z) :
  edit_value color kind shift Colors = Some v → v = color ∨ v = 0.
Proof.
  unfold edit_value. intros Hv.
  destruct (String.eqb kind "wall"), (String.eqb kind "button"),
    (String.eqb kind "target" || String.eqb kind "spawn");
    simpl in Hv; try done; injection Hv as <-; auto.
Qed.




(** ** When the editor returns *)

Section returning.
Implicit Types (e : editor) (t : Track) (l : layer).

Lemma keeps_bind {S} (J : S → Prop) (m k : stateM S unit) :
  keeps J m → keeps J k → keeps J (m ;; k).
Proof.
  intros Hm Hk s Hs. destruct (Hm s Hs) as (s1 & H1 & Hs1).
  destruct (Hk s1 Hs1) as (s2 & H2 & Hs2). exists s2. split; [|done].
  rewrite stateM_bind_run, H1. exact H2.
Qed.

Lemma keeps_ret {S} (J : S → Prop) : keeps J (mret tt).
Proof. intros s Hs. by exists s. Qed.

Lemma keeps_for {S A} (J : S → Prop) (body : A → stateM S unit) (xs : list A) :
  (∀ x, keeps J (body x)) → keeps J (for_ xs body).
Proof.
  intros Hb. induction xs as [|x xs IH]; simpl.
  - apply keeps_ret.
  - intros s Hs. destruct (Hb x s Hs) as (s1 & H1 & Hs1).
    destruct (IH s1 Hs1) as (s2 & H2 & Hs2). exists s2. split; [|done].
    rewrite stateM_bind_run, H1. exact H2.
Qed.

Lemma well_shaped_written l t i j v :
  well_shaped t → well_shaped (layer_set l t (written (layer_get l t) i j v)).
Proof.
  intros ((Ww & Wa & Wb & Wc) & Sw & Sa & Sb & Sc). unfold well_shaped.
  pose proof (layout_written (layer_get l t) i j v) as Hl.
  pose proof (layout_shape _ _ Hl) as Hsh.
  destruct l; simpl in *; rewrite Hsh;
    (split; [repeat split; try done; by eapply layout_wf|done]).
Qed.

Variable e0 : editor.
Hypothesis Hsep : separate (track e0).
Hypothesis Hal : allocated (arrays e0) (track e0).

(** A write into a cell of the grid returns. *)
Lemma assign_returns (s0 : nat * nat) l (r c v : Z) :
  in_range r s0.1 = true → in_range c s0.2 = true →
  keeps (steady e0 s0) (assign l r c v).
Proof.
  intros Hr Hc e (Hs & Hsh & K).
  pose proof Hr as Hr0%in_range_nonneg. pose proof Hc as Hc0%in_range_nonneg.
  unfold in_range in Hr, Hc.
  apply andb_true_iff in Hr as [_ Hr2%Z.ltb_lt].
  apply andb_true_iff in Hc as [_ Hc2%Z.ltb_lt].
  destruct (well_shaped_layer _ l Hs) as [_ Hl]. rewrite Hsh in Hl.
  destruct s0 as [R C]. unfold np.shape in Hl. injection Hl as HlR HlC.
  simpl in Hr2, Hc2.
  unfold shown in HlR, HlC. rewrite view_layer in HlR, HlC.
  assert (setitem (deref (arrays e) (layer_ref l (track e))) r c v
          = Ok (written (deref (arrays e) (layer_ref l (track e)))
                        (Z.to_nat r) (Z.to_nat c) v)) as Hset.
  { pose proof (setitem_of_nat (deref (arrays e) (layer_ref l (track e)))
                  (Z.to_nat r) (Z.to_nat c) v) as H.
    rewrite !Z2Nat.id in H by done. apply H; lia. }
  assert (∃ e', assign l r c v e = (e', Ok tt)) as [e' He'].
  { cbv [assign mbind stateM_bind get lift put]. rewrite Hset. by eexists. }
  exists e'. split; [done|].
  destruct (assign_shown e0 l r c v e e' Hsep Hal K He' Hr0 Hc0)
    as (K' & _ & Hsh').
  unfold steady. rewrite Hsh'.
  split; [by apply well_shaped_written|]. split; [by destruct l|done].
Qed.

Lemma update_track_returns (s0 : nat * nat) (f : RaceTrack → RaceTrack)
    (g : Track → Track) :
  (∀ σ o, view σ (f o) = g (view σ o)) →
  (∀ o l, layer_ref l (f o) = layer_ref l o) →
  (∀ t, well_shaped t → well_shaped (g t)) → (∀ t, shape (g t) = shape t) →
  keeps (steady e0 s0) (update_track f).
Proof.
  intros Hfg Hrefs Hg Hsh e (Hs & Hs0 & K). eexists. split; [reflexivity|].
  unfold steady, shown. cbn [arrays track]. rewrite Hfg.
  split; [by apply Hg|]. split; [by rewrite Hsh|].
  by apply same_arrays_update.
Qed.

Lemma edit_cell_returns (s0 : nat * nat) color kind shift (r c : Z) :
  in_range r s0.1 = true → in_range c s0.2 = true →
  keeps (steady e0 s0) (edit_cell color kind shift r c).
Proof.
  intros Hr Hc. unfold edit_cell.
  destruct (String.eqb kind "wall").
  { destruct (color =? 0); repeat apply keeps_bind; by apply assign_returns. }
  destruct (String.eqb kind "button").
  { destruct (color =? 0); repeat apply keeps_bind; by apply assign_returns. }
  destruct (String.eqb kind "target").
  { repeat apply keeps_bind; try (by apply assign_returns).
    by apply (update_track_returns s0 _ (λ t, set_target t (r, c))). }
  destruct (String.eqb kind "spawn").
  { repeat apply keeps_bind; try (by apply assign_returns).
    by apply (update_track_returns s0 _ (λ t, set_spawn t (r, c))). }
  apply keeps_ret.
Qed.

Lemma visit_cell_returns (s0 : nat * nat) color kind shift (r c : Z) :
  keeps (steady e0 s0) (visit_cell color kind shift r c).
Proof.
  intros e (Hs & Hs0 & K). cbv [visit_cell mbind stateM_bind get put].
  change (racetrack.shape (track e)) with (shape (shown e)). rewrite Hs0.
  destruct (in_range r s0.1) eqn:Hr; simpl; [|by exists e].
  destruct (in_range c s0.2) eqn:Hc; simpl; [|by exists e].
  case_bool_decide; simpl; [by exists e|].
  by apply (edit_cell_returns s0 color kind shift r c Hr Hc).
Qed.

End returning.

Lemma gesture_palette_ok color kind shift (e e' : editor) :
  gesture color kind shift e e' →
  is_Some (color_scheme (shown e) !! color) →
  is_Some (color_scheme (shown e) !! 0) →
  palette_ok (shown e) → palette_ok (shown e').
Proof.
  intros G Hcol H0 Hpal i j c Hc.
  pose proof G as (_ & (_ & Hcs & _) & _). rewrite Hcs.
  destruct (gesture_cell_values _ _ _ _ _ Colors i j c G Hc) as [Hold | Hnew].
  - exact (Hpal i j c Hold).
  - by destruct (edit_value_colour _ _ _ _ Hnew) as [-> | ->].
Qed.

Lemma get_grid_coord_grid (t : Track) mx my :
  is_ok (get_grid_coord t mx my) → (shape t).1 ≠ 0%nat ∧ (shape t).2 ≠ 0%nat.
Proof.
  intros [rc H]. unfold get_grid_coord in H.
  apply result_bind_ok in H as (w & Hw & H).
  apply result_bind_ok in H as (h & Hh & _).
  unfold f64.int_truediv in Hw, Hh.
  destruct (Z.eqb_spec (Z.of_nat (shape t).2) 0); [done|].
  destruct (Z.eqb_spec (Z.of_nat (shape t).1) 0); [done|]. lia.
Qed.

(** A call of [click_track] on a track it can draw returns. *)
Lemma click_track_is_ok color kind pressed mx my cursor shift (e : editor) :
  separate (track e) → allocated (arrays e) (track e) →
  well_shaped (shown e) → palette_ok (shown e) →
  is_Some (color_scheme (shown e) !! color) →
  is_Some (color_scheme (shown e) !! 0) →
  border_fits (get_width (surface (shown e))) (shape (shown e)).2 →
  (collidepoint (surface (shown e)) mx my = true →
   is_ok (get_grid_coord (shown e) mx my)) →
  ∃ e', click_track color kind pressed mx my cursor shift e = (e', Ok tt).
Proof.
  intros Hsep Hal Hs Hpal Hcol H0 Hbf Hrc.
  unfold click_track. cbv [mbind stateM_bind get].
  change (racetrack.surface (track e)) with (surface (shown e)).
  destruct (negb pressed || negb (collidepoint _ mx my)) eqn:Hguard;
    [by exists e|].
  apply orb_false_iff in Hguard as [_ Hcl%negb_false_iff].
  specialize (Hrc Hcl).
  destruct (get_grid_coord_grid _ _ _ Hrc) as [HR HC].
  destruct Hrc as [rc Hrc]. cbv [lift]. unfold racetrack.get_grid_coord.
  change (view (arrays e) (track e)) with (shown e). rewrite Hrc.
  set (loops := for_ _ _).
  destruct (keeps_for (steady e (shape (shown e)))
              (λ r, for_ (range (rc.2 - cursor + 1) (rc.2 + cursor))
                      (λ c, visit_cell color kind shift r c))
              (range (rc.1 - cursor + 1) (rc.1 + cursor))) with (s := e)
    as (e1 & Hloops & Hs1 & Hsh1 & K1).
  { intros r. apply keeps_for. intros c. by apply visit_cell_returns. }
  { split; [done|]. split; [done|]. apply same_arrays_refl. }
  assert (gesture color kind shift e e1) as G.
  { refine (for_ok_invariant (gesture color kind shift e) _ _ _ e e1 Hloops
              (gesture_refl _ _ _ e)).
    intros r s1 s2 Hinner G1.
    refine (for_ok_invariant (gesture color kind shift e) _ _ _ s1 s2 Hinner G1).
    intros c s3 s4 Hv G2. by eapply gesture_visit. }
  subst loops. rewrite Hloops. cbv beta iota.
  pose proof (gesture_palette_ok _ _ _ _ _ G Hcol H0 Hpal) as Hpal1.
  destruct G as (_ & (_ & _ & _ & Hgw & Hgh) & _).
  unfold collidepoint in Hcl.
  apply andb_true_iff in Hcl as [Hcl Hy2%Z.ltb_lt].
  apply andb_true_iff in Hcl as [Hcl Hy1%Z.leb_le].
  apply andb_true_iff in Hcl as [Hx1%Z.leb_le Hx2%Z.ltb_lt].
  unfold racetrack.render.
  change (view (arrays e1) (track e1)) with (shown e1).
  change (racetrack.surface (track e1)) with (surface (shown e1)).
  assert (is_ok (render (shown e1) (get_width (surface (shown e1)))
                        (get_height (surface (shown e1))))) as [s Hrender].
  { apply render_is_ok; try done; rewrite ?Hsh1, ?Hgw, ?Hgh; try done; lia. }
  rewrite Hrender. by eexists.
Qed.

(** X23.  [click_track] returns whenever it can draw what it edits.  On a
    well-shaped track with four arrays whose stored colours, the selected
    colour and colour 0 all have palette entries, with a cell width whose
    border converts and, when the pointer is on the canvas, a position
    that [get_grid_coord] converts, the call raises nothing, whatever the
    kind, the brush size and the cells the brush would reach outside the
    grid; and the track it leaves is again well shaped with a palette
    entry for every stored colour. *)
Theorem click_track_returns
    (color : Z) (kind : string) (pressed : bool) (mx my cursor : Z)
    (shift : bool) (e : editor) :
  separate (track e) → allocated (arrays e) (track e) →
  well_shaped (shown e) → palette_ok (shown e) →
  is_Some (color_scheme (shown e) !! color) →
  is_Some (color_scheme (shown e) !! 0) →
  border_fits (get_width (surface (shown e))) (shape (shown e)).2 →
  (collidepoint (surface (shown e)) mx my = true →
   is_ok (racetrack.get_grid_coord (arrays e) (track e) mx my)) →
  ∃ e', click_track color kind pressed mx my cursor shift e = (e', Ok tt)
        ∧ well_shaped (shown e') ∧ palette_ok (shown e').
Proof.
  intros Hsep Hal Hs Hpal Hcol H0 Hbf Hrc.
  destruct (click_track_is_ok color kind pressed mx my cursor shift e)
    as [e' He']; try done.
  exists e'. split; [done|].
  destruct (click_track_gesture _ _ _ _ _ _ _ _ _ Hsep Hal He') as [G _].
  split; [exact (gesture_well_shaped _ _ _ _ _ Hs G)|].
  exact (gesture_palette_ok _ _ _ _ _ G Hcol H0 Hpal).
Qed.

Lemma click_track_returns_witness :
  well_shaped (shown sample_editor) ∧ palette_ok (shown sample_editor)
  ∧ ∃ e', click_track 3 "button" true 5 5 7 false sample_editor = (e', Ok tt)
          ∧ well_shaped (shown e') ∧ palette_ok (shown e').
Proof.
  split; [exact sample_well_shaped|]. split; [exact sample_palette_ok|].
  apply (click_track_returns 3 "button" true 5 5 7 false sample_editor
           sample_separate sample_allocated
           sample_well_shaped sample_palette_ok).
  - eexists. vm_compute. reflexivity.
  - eexists. vm_compute. reflexivity.
  - exact sample_border_fits.
  - intros _. eexists. vm_compute. reflexivity.
Defined.

(** ** The random bot *)

Lemma choice_ok {A} (k : nat) (l : list A) (x : A) : choice k l = Ok x → x ∈ l.
Proof.
  unfold choice. destruct l as [|y l]; [done|].
  destruct (_ !! _) eqn:H; intros [= <-]. by eapply list_elem_of_lookup_2.
Qed.

Lemma choice_raise {A} (k : nat) (l : list A) (e : exn) :
  choice k l = Raise e → l = [] ∧ e = IndexError.
Proof.
  unfold choice. destruct l as [|y l]; [by intros [= <-]|].
  destruct (_ !! _) eqn:H; [done|]. apply lookup_ge_None in H.
  pose proof (Nat.mod_upper_bound k (length (y :: l))). simpl in *. lia.
Qed.

Lemma choice_reaches {A} (l : list A) (x : A) : x ∈ l → ∃ k, choice k l = Ok x.
Proof.
  intros [k Hk]%list_elem_of_lookup. exists k. unfold choice.
  destruct l as [|y l]; [done|].
  rewrite Nat.mod_small by (by eapply lookup_lt_Some). by rewrite Hk.
Qed.

Lemma random_move_safe_options (loc : Point) (T : gset Point) (opt : Point) :
  opt ∈ (filter (λ on : Point * Point, on.2 ∈ T)
           ((λ o : Point, (o, (loc.1 + o.1, loc.2 + o.2))) <$> options)).*1
  ↔ opt ∈ options ∧ (loc.1 + opt.1, loc.2 + opt.2) ∈ T.
Proof.
  rewrite list_elem_of_fmap. split.
  - intros ([o d] & -> & [Hd Hin]%list_elem_of_filter).
    apply list_elem_of_fmap in Hin as (o' & [= -> ->] & Ho). done.
  - intros [Ho Hd]. exists (opt, (loc.1 + opt.1, loc.2 + opt.2)).
    split; [done|]. apply list_elem_of_filter. split; [done|].
    apply list_elem_of_fmap. by exists opt.
Qed.

Lemma random_move_run (loc : Point) (σ : store) (t : RaceTrack) (k : nat)
    (T : gset Point) :
  find_traversable_cells (view σ t) = Ok T →
  random_move loc σ t k =
  choice k (filter (λ on : Point * Point, on.2 ∈ T)
              ((λ o : Point, (o, (loc.1 + o.1, loc.2 + o.2))) <$> options)).*1.
Proof.
  intros H. unfold random_move, racetrack.find_traversable_cells.
  by rewrite H.
Qed.

(** X24.  On a track whose walls and active layers have the recorded
    shape, a move that [random_move] returns is one of the four unit
    steps, and the cell it leads to lies inside the grid, is traversable
    and is not a wall with active value 1. *)
Theorem random_move_is_safe
    (loc opt : Point) (σ : store) (t : RaceTrack) (k : nat) :
  layers_agree (view σ t) → random_move loc σ t k = Ok opt →
  opt ∈ options
  ∧ in_grid (view σ t) (loc.1 + opt.1, loc.2 + opt.2)
  ∧ (∃ T : gset Point,
       racetrack.find_traversable_cells σ t = Ok T
       ∧ (loc.1 + opt.1, loc.2 + opt.2) ∈ T)
  ∧ ∃ w a, cell_at (walls (view σ t)) (loc.1 + opt.1, loc.2 + opt.2) = Some w
           ∧ cell_at (active (view σ t)) (loc.1 + opt.1, loc.2 + opt.2) = Some a
           ∧ (w = 0 ∨ a ≠ 1).
Proof.
  intros Hs Hmove.
  destruct (find_traversable_cells_spec (view σ t) Hs) as (T & HT & HTp).
  rewrite (random_move_run _ _ _ _ _ HT) in Hmove.
  apply choice_ok, random_move_safe_options in Hmove as [Ho Hd].
  split; [done|]. pose proof Hd as (w & a & Hw & Ha & Hor)%HTp.
  destruct Hs as ((Ww & _) & Sw & _).
  split; [by eapply (cell_at_in_grid (view σ t) (walls (view σ t)))|].
  split; [by exists T|]. by exists w, a.
Qed.

Lemma random_move_is_safe_witness :
  layers_agree (built sample)
  ∧ random_move (0, 0) sample.1 (build sample) 1 = Ok (0, 1)
  ∧ in_grid (built sample) (0, 1).
Proof.
  pose proof (well_shaped_layers_agree _ sample_well_shaped) as H1.
  assert (random_move (0, 0) sample.1 (build sample) 1 = Ok (0, 1)) as H2
    by (vm_compute; reflexivity).
  split; [exact H1|]. split; [exact H2|].
  exact (proj1 (proj2 (random_move_is_safe (0, 0) (0, 1) sample.1
                         (build sample) 1 H1 H2))).
Defined.

(** X25.  On such a track [random_move] raises only [IndexError], and
    exactly when none of the four neighbours is traversable; and every
    step to a traversable neighbour is returned for some draw of the
    generator. *)
Theorem random_move_boxed_in (loc : Point) (σ : store) (t : RaceTrack) :
  layers_agree (view σ t) →
  ∃ T : gset Point,
    racetrack.find_traversable_cells σ t = Ok T
    ∧ (∀ k e, random_move loc σ t k = Raise e →
              e = IndexError
              ∧ ∀ opt, opt ∈ options → (loc.1 + opt.1, loc.2 + opt.2) ∉ T)
    ∧ (∀ k, (∀ opt, opt ∈ options → (loc.1 + opt.1, loc.2 + opt.2) ∉ T) →
            random_move loc σ t k = Raise IndexError)
    ∧ (∀ opt, opt ∈ options → (loc.1 + opt.1, loc.2 + opt.2) ∈ T →
              ∃ k, random_move loc σ t k = Ok opt).
Proof.
  intros Hs.
  destruct (find_traversable_cells_spec (view σ t) Hs) as (T & HT & _).
  exists T. split; [done|]. split; [|split].
  - intros k e. rewrite (random_move_run _ _ _ _ _ HT).
    intros [Hnil ->]%choice_raise. split; [done|]. intros opt Ho Hd.
    pose proof (proj2 (random_move_safe_options loc T opt) (conj Ho Hd)) as Hin.
    rewrite Hnil in Hin. by apply not_elem_of_nil in Hin.
  - intros k Hnone. rewrite (random_move_run _ _ _ _ _ HT).
    destruct (choice k _) as [opt|e] eqn:Hc.
    + apply choice_ok, random_move_safe_options in Hc as [Ho Hd].
      by destruct (Hnone opt Ho).
    + by apply choice_raise in Hc as [_ ->].
  - intros opt Ho Hd.
    destruct (choice_reaches _ opt
                (proj2 (random_move_safe_options loc T opt) (conj Ho Hd)))
      as [k Hk].
    exists k. by rewrite (random_move_run _ _ _ _ _ HT).
Qed.

Lemma random_move_boxed_in_witness :
  layers_agree (built wall_and_button)
  ∧ random_move (5, 5) wall_and_button.1 (build wall_and_button) 3
    = Raise IndexError.
Proof.
  assert (layers_agree (built wall_and_button)) as H1
    by (vm_compute; repeat split; repeat constructor).
  split; [exact H1|].
  destruct (random_move_boxed_in (5, 5) wall_and_button.1
              (build wall_and_button) H1)
    as (T & HT & _ & H & _).
  apply H. intros opt Ho.
  assert (racetrack.find_traversable_cells wall_and_button.1
            (build wall_and_button) = Ok ∅) as HT0
    by (vm_compute; reflexivity).
  rewrite HT0 in HT. injection HT as <-. apply not_elem_of_empty.
Defined.

(** ** Copying *)

(** The queries read the layers and the recorded shape, nothing else. *)
Lemma queries_ext (t t' : Track) :
  walls t' = walls t → active t' = active t → buttons t' = buttons t →
  colors t' = colors t → shape t' = shape t →
  (∀ cf af, find_wall_locations t' cf af = find_wall_locations t cf af)
  ∧ (∀ cf, find_buttons t' cf = find_buttons t cf)
  ∧ find_traversable_cells t' = find_traversable_cells t.
Proof.
  intros Hw Ha Hb Hc Hs.
  unfold find_wall_locations, find_wall_locations_np, find_buttons,
    find_traversable_cells, mask.
  rewrite Hw, Ha, Hb, Hc, Hs. done.
Qed.

Lemma copying_start (σ : store) : copying σ (σ, ∅).
Proof.
  split; [exists []; simpl; by rewrite app_nil_r|].
  split; simpl; intros *; by rewrite lookup_empty.
Qed.

(** A copy of an array of [σ] through the memo. *)
Lemma deepcopy_array_spec (σ : store) (st : store * gmap ref ref) (r : ref) :
  (r < length σ)%nat → copying σ st →
  ∃ st' r', racetrack.deepcopy_array r st = (st', Ok r')
            ∧ copying σ st' ∧ st'.2 !! r = Some r' ∧ st.2 ⊆ st'.2.
Proof.
  intros Hr ([objs Hobjs] & Hmemo & Hinj). destruct st as [σ1 m].
  simpl in *. subst σ1. unfold racetrack.deepcopy_array. simpl.
  destruct (m !! r) as [r'|] eqn:Hm.
  - exists (σ ++ objs, m), r'. split; [done|]. split; [|done].
    split; [by exists objs|done].
  - exists ((σ ++ objs) ++ [deref (σ ++ objs) r], <[r := length (σ ++ objs)]> m),
      (length (σ ++ objs)).
    split; [done|]. split; [|split].
    + split; [exists (objs ++ [deref (σ ++ objs) r]); by rewrite app_assoc|].
      simpl. split.
      * intros r1 r1'. rewrite lookup_insert_Some.
        intros [[<- <-] | [Hne Hold]].
        -- split; [done|]. split; [rewrite !length_app; simpl; lia|].
           rewrite deref_new0. change (deref [?x] 0) with x.
           by apply deref_app_l.
        -- destruct (Hmemo _ _ Hold) as (H1 & H2 & H3).
           split; [done|]. rewrite length_app. simpl. split; [lia|].
           rewrite <- H3. apply deref_app_l. lia.
      * intros r1 r2 r0. rewrite !lookup_insert_Some.
        intros [[<- <-] | [Hne1 Hold1]] [[<- Heq] | [Hne2 Hold2]]; try done.
        -- destruct (Hmemo _ _ Hold2) as (_ & H2 & _). lia.
        -- destruct (Hmemo _ _ Hold1) as (_ & H2 & _). lia.
        -- by eapply Hinj.
    + simpl. by rewrite lookup_insert_eq.
    + simpl. by apply insert_subseteq.
Qed.

(** X26.  A deep copy of a track, made with an empty memo as
    [copy.deepcopy(track)] does, that is returned: its four layers hold
    what those of the original hold, in new arrays shared among the layers
    exactly as the original's are, and target, spawn and canvas size are
    the original's; so every query returns on it what it returns on the
    original, and it renders as the original does; the original reads as
    before. *)
Theorem deepcopy_is_equal
    (σ σ' : store) (memo' : gmap ref ref) (t t' : RaceTrack) :
  allocated σ t → derived_attrs (view σ t) →
  racetrack.__deepcopy__ t (σ, ∅) = ((σ', memo'), Ok t') →
  (walls (view σ' t') = walls (view σ t)
   ∧ active (view σ' t') = active (view σ t)
   ∧ buttons (view σ' t') = buttons (view σ t)
   ∧ colors (view σ' t') = colors (view σ t)
   ∧ target (view σ' t') = target (view σ t)
   ∧ spawn (view σ' t') = spawn (view σ t)
   ∧ screen_size (view σ' t') = screen_size (view σ t))
  ∧ (∀ cf af, racetrack.find_wall_locations σ' t' cf af
              = racetrack.find_wall_locations σ t cf af)
  ∧ (∀ cf, racetrack.find_buttons σ' t' cf = racetrack.find_buttons σ t cf)
  ∧ racetrack.find_traversable_cells σ' t' = racetrack.find_traversable_cells σ t
  ∧ (∀ width height,
       racetrack.render σ' t' width height = racetrack.render σ t width height)
  ∧ (∀ l, (length σ ≤ layer_ref l t')%nat)
  ∧ (∀ l l', layer_ref l t' = layer_ref l' t' ↔ layer_ref l t = layer_ref l' t)
  ∧ view σ' t = view σ t.
Proof.
  intros Hal [Hshape Hpal] Hrun. unfold racetrack.__deepcopy__ in Hrun.
  apply stateM_bind_ok in Hrun as (st1 & w' & H1 & Hrun).
  apply stateM_bind_ok in Hrun as (st2 & a' & H2 & Hrun).
  apply stateM_bind_ok in Hrun as (st3 & b' & H3 & Hrun).
  apply stateM_bind_ok in Hrun as (st4 & c' & H4 & Hrun).
  apply stateM_bind_ok in Hrun as (? & ? & [= <- <-] & Hrun).
  injection Hrun as -> Hinit.
  destruct (deepcopy_array_spec σ _ _ (Hal Walls) (copying_start σ))
    as (? & ? & E1 & C1 & M1 & _).
  cbn [layer_ref] in E1, M1. rewrite H1 in E1. injection E1 as <- <-.
  destruct (deepcopy_array_spec σ _ _ (Hal Active) C1)
    as (? & ? & E2 & C2 & M2 & S2).
  cbn [layer_ref] in E2, M2. rewrite H2 in E2. injection E2 as <- <-.
  destruct (deepcopy_array_spec σ _ _ (Hal Buttons) C2)
    as (? & ? & E3 & C3 & M3 & S3).
  cbn [layer_ref] in E3, M3. rewrite H3 in E3. injection E3 as <- <-.
  destruct (deepcopy_array_spec σ _ _ (Hal Colors) C3)
    as (? & ? & E4 & C4 & M4 & S4).
  cbn [layer_ref] in E4, M4. rewrite H4 in E4. injection E4 as <- <-.
  cbn [fst snd] in *.
  assert (memo' !! racetrack.buttons t = Some b') as M3' by
    (by eapply lookup_weaken).
  assert (memo' !! racetrack.active t = Some a') as M2' by
    (eapply lookup_weaken; [|exact S4]; by eapply lookup_weaken).
  assert (memo' !! racetrack.walls t = Some w') as M1' by
    (eapply lookup_weaken; [|exact S4]; eapply lookup_weaken; [|exact S3];
     by eapply lookup_weaken).
  destruct C4 as ([objs Hobjs] & Hmemo & Hinj). cbn [fst snd] in *.
  assert (∀ l, ∃ r', memo' !! layer_ref l t = Some r'
                     ∧ layer_ref l t' = r') as Hrefs.
  { apply init_fields in Hinit as (Hf & _).
    injection Hf as F1 F2 F3 F4 _ _ _.
    intros []; simpl; eauto. }
  assert (∀ l, deref σ' (layer_ref l t') = deref σ (layer_ref l t)) as Hlayers.
  { intros l. destruct (Hrefs l) as (r' & Hr' & ->).
    by destruct (Hmemo _ _ Hr') as (_ & _ & ?). }
  pose proof (Hlayers Walls) as Lw. pose proof (Hlayers Active) as La.
  pose proof (Hlayers Buttons) as Lb. pose proof (Hlayers Colors) as Lc.
  cbn [layer_ref] in Lw, La, Lb, Lc.
  pose proof Hinit as (Hf & Hs & Hp & _)%init_fields.
  injection Hf as _ _ _ _ Fta Fsp Fss. cbn [f_walls] in Hs.
  assert (shape (view σ' t') = shape (view σ t)) as Hs'.
  { cbn [shape view]. rewrite Hs.
    destruct (Hrefs Walls) as (r' & Hr' & Hr''). simpl in Hr', Hr''.
    rewrite M1' in Hr'. injection Hr' as <-.
    pose proof Lw as Lw'. rewrite Hr'' in Lw'. rewrite Lw'. symmetry.
    exact Hshape. }
  split; [done|].
  unfold racetrack.find_wall_locations, racetrack.find_buttons,
    racetrack.find_traversable_cells, racetrack.render.
  destruct (queries_ext (view σ t) (view σ' t')) as (Q1 & Q2 & Q3);
    [done..|].
  split; [done|]. split; [done|]. split; [done|].
  split.
  { intros width height. apply render_ext; try done.
    cbn [color_scheme view] in *. congruence. }
  split; [|split].
  - intros l. destruct (Hrefs l) as (r' & Hr' & ->).
    destruct (Hmemo _ _ Hr') as (_ & ? & _). lia.
  - intros l l'. destruct (Hrefs l) as (r1 & Hr1 & ->).
    destruct (Hrefs l') as (r2 & Hr2 & ->). split.
    + intros <-. by eapply Hinj.
    + intros Heq. rewrite Heq in Hr1. congruence.
  - subst σ'. by apply view_app.
Qed.

Lemma deepcopy_is_equal_witness :
  allocated sample.1 (build sample) ∧ derived_attrs (built sample)
  ∧ ∃ σ' t', (racetrack.__deepcopy__ (build sample) (sample.1, ∅)).2 = Ok t'
             ∧ (racetrack.__deepcopy__ (build sample) (sample.1, ∅)).1.1 = σ'
             ∧ walls (view σ' t') = walls (built sample)
             ∧ racetrack.find_traversable_cells σ' t'
               = racetrack.find_traversable_cells sample.1 (build sample).
Proof.
  assert (derived_attrs (built sample)) as H1 by (split; vm_compute; reflexivity).
  split; [exact sample_allocated|]. split; [exact H1|].
  destruct (racetrack.__deepcopy__ (build sample) (sample.1, ∅))
    as [[σ' memo'] [t'|e]] eqn:Hrun; [|vm_compute in Hrun; discriminate].
  exists σ', t'. split; [reflexivity|]. split; [reflexivity|].
  destruct (deepcopy_is_equal sample.1 σ' memo' (build sample) t'
              sample_allocated H1 Hrun)
    as ((Hw & _) & _ & _ & HT & _).
  exact (conj Hw HT).
Defined.
